(** * ipmitool_exporter: the output parsers, the sensor classifier and
      the collectors of collector.go, embedded in Rocq.

    The file follows collector.go.  The Go library functions the parsers
    call (bufio.Scanner, strings, strconv, regexp) are modelled first, at the
    level of bytes; then come the two generations of collector.go found in
    the source (modules [Gen1] and [Gen2]), the arguments of ipmitool and
    the collectors of a scrape (modules [Gen1Tool] and [Exporter]), the
    vocabulary of the properties, and the properties with their proofs. *)

From Stdlib Require Import ZArith List String Ascii Bool Lia SpecFloat.
Import ListNotations.

Local Open Scope string_scope.
Local Open Scope Z_scope.

(** ** Run-time faults

    A Go slice access out of range panics.  The parsers index the result of
    [strings.Split] and of [FindStringSubmatch] without a length check, so
    the model keeps the fault as a value. *)

Inductive panic : Type :=
| IndexOutOfRange (index length : nat).

Inductive go (A : Type) : Type :=
| Ret (a : A)
| Fault (p : panic).

Arguments Ret {A} a.
Arguments Fault {A} p.

Definition bind {A B : Type} (c : go A) (k : A -> go B) : go B :=
  match c with
  | Ret a => k a
  | Fault p => Fault p
  end.

Notation "x <- c ;; k" := (bind c (fun x => k))
  (at level 61, c at next level, right associativity).

(** [l[i]] on a slice. *)
Definition index {A : Type} (l : list A) (i : nat) : go A :=
  match nth_error l i with
  | Some a => Ret a
  | None => Fault (IndexOutOfRange i (List.length l))
  end.

(** The builtin [len] on a string. *)
Definition len (s : string) : Z := Z.of_nat (String.length s).

(** ** package strings *)

Module strings.

(** [strings.HasPrefix]; [String.prefix] of the library is the same test. *)
Definition HasPrefix (s p : string) : bool := String.prefix p s.

Fixpoint drop (n : nat) (s : string) : string :=
  match n, s with
  | O, _ => s
  | S n', String _ s' => drop n' s'
  | S _, EmptyString => EmptyString
  end.

Fixpoint take (n : nat) (s : string) : string :=
  match n, s with
  | S n', String c s' => String c (take n' s')
  | _, _ => EmptyString
  end.

(** [strings.Index]: the offset of the first occurrence of [sep], or
    [None] for Go's -1. *)
Fixpoint Index (s sep : string) : option nat :=
  if HasPrefix s sep then Some O
  else match s with
       | EmptyString => None
       | String _ s' => option_map S (Index s' sep)
       end.

(** [strings.genSplit] with n = -1 and a non-empty separator: cut at
    every occurrence found by [Index], left to right.  The counter bounds
    the number of cuts; a string of n bytes has at most n of them. *)
Fixpoint genSplit (cuts : nat) (s sep : string) : list string :=
  match cuts with
  | O => [s]
  | S cuts' =>
      match Index s sep with
      | None => [s]
      | Some m => take m s :: genSplit cuts' (drop (m + String.length sep) s) sep
      end
  end.

(** [strings.Split(s, sep)] for a non-empty [sep] (the program only
    passes "|" and ":"). *)
Definition Split (s sep : string) : list string :=
  genSplit (String.length s) s sep.

(** [strings.ReplaceAll(s, old, new)] for a non-empty [old]: the pieces
    between the occurrences of [old], joined by [new]. *)
Definition ReplaceAll (s old new : string) : string :=
  String.concat new (Split s old).

End strings.

(** ** package bufio: Scanner with the default split function ScanLines *)

Module bufio.

(** [bufio.MaxScanTokenSize]: the scanner's buffer never grows beyond
    this, and a line that does not fit in it with its newline stops the
    scan ([Scan] returns false, the error stays in the scanner, where the
    parsers never look). *)
Definition MaxScanTokenSize : Z := 64 * 1024.

(** [dropCR]: one trailing carriage return is removed. *)
Fixpoint dropCR (s : string) : string :=
  match s with
  | EmptyString => EmptyString
  | String c EmptyString => if Ascii.eqb c "013" then EmptyString else s
  | String c s' => String c (dropCR s')
  end.

Definition newline : string := String "010" EmptyString.

(** The tokens of successive [Scan] calls on [strings.NewReader(data)].
    A line ends at a newline, the last line may lack it, an empty rest
    yields nothing.  The counter bounds the number of lines. *)
Fixpoint scan (lines : nat) (data : string) : list string :=
  match lines with
  | O => []
  | S lines' =>
      match strings.Index data newline with
      | Some i =>
          if Z.of_nat i <? MaxScanTokenSize
          then dropCR (strings.take i data) :: scan lines' (strings.drop (S i) data)
          else []
      | None =>
          if (0 <? Z.of_nat (String.length data)) && (Z.of_nat (String.length data) <? MaxScanTokenSize)
          then [dropCR data]
          else []
      end
  end.

(** All the lines [for scanner.Scan() { ... scanner.Text() ... }] sees. *)
Definition Lines (data : string) : list string :=
  scan (S (String.length data)) data.

End bufio.

(** ** package strconv *)

Module strconv.

Inductive errKind : Type :=
| ErrSyntax
| ErrRange
| ErrBase (base : Z)
| ErrBitSize (bitSize : Z).

(** [*strconv.NumError]; a nil error is [None]. *)
Record NumError : Type := mkNumError { Func : string; Num : string; Err : errKind }.

Definition error : Type := option NumError.

Definition syntaxError (fn str : string) : error := Some (mkNumError fn str ErrSyntax).
Definition rangeError (fn str : string) : error := Some (mkNumError fn str ErrRange).
Definition baseError (fn str : string) (base : Z) : error := Some (mkNumError fn str (ErrBase base)).
Definition bitSizeError (fn str : string) (bitSize : Z) : error :=
  Some (mkNumError fn str (ErrBitSize bitSize)).

Definition isNil (e : error) : bool :=
  match e with None => true | Some _ => false end.

Definition byte (c : ascii) : Z := Z.of_N (N_of_ascii c).

(** [lower(c)] is [c | ('x' - 'X')]. *)
Definition lower (c : ascii) : ascii := ascii_of_N (N.lor (N_of_ascii c) 32).

Definition between (lo c hi : ascii) : bool :=
  (byte lo <=? byte c) && (byte c <=? byte hi).

Definition nthByte (s : string) (i : nat) : ascii :=
  match String.get i s with Some c => c | None => zero end.

(** *** underscoreOK *)

(** The last character seen: '^' beginning of number, '0' digit or base
    prefix, '_' underscore, '!' none of the above. *)
Inductive seen : Type := SeenBegin | SeenDigit | SeenUnderscore | SeenOther.

Definition seen_eqb (a b : seen) : bool :=
  match a, b with
  | SeenBegin, SeenBegin | SeenDigit, SeenDigit
  | SeenUnderscore, SeenUnderscore | SeenOther, SeenOther => true
  | _, _ => false
  end.

Fixpoint underscoreLoop (hex : bool) (s : string) (i : seen) : bool :=
  match s with
  | EmptyString => negb (seen_eqb i SeenUnderscore)
  | String c s' =>
      if between "0" c "9" || (hex && between "a" (lower c) "f")
      then underscoreLoop hex s' SeenDigit
      else if Ascii.eqb c "_"
      then if seen_eqb i SeenDigit then underscoreLoop hex s' SeenUnderscore else false
      else if seen_eqb i SeenUnderscore then false
      else underscoreLoop hex s' SeenOther
  end.

Definition underscoreOK (s : string) : bool :=
  let s :=
    if (1 <=? len s) && (Ascii.eqb (nthByte s 0) "-" || Ascii.eqb (nthByte s 0) "+")
    then strings.drop 1 s else s in
  if (2 <=? len s) && Ascii.eqb (nthByte s 0) "0"
     && (Ascii.eqb (lower (nthByte s 1)) "b" || Ascii.eqb (lower (nthByte s 1)) "o"
         || Ascii.eqb (lower (nthByte s 1)) "x")
  then underscoreLoop (Ascii.eqb (lower (nthByte s 1)) "x") (strings.drop 2 s) SeenDigit
  else underscoreLoop false s SeenBegin.

(** *** ParseUint *)

Definition fnParseUint : string := "ParseUint".
Definition maxUint64 : Z := 2 ^ 64 - 1.

(** The value of a digit character, letters counting from 10. *)
Definition digitVal (c : ascii) : option Z :=
  if between "0" c "9" then Some (byte c - byte "0")
  else if between "a" (lower c) "z" then Some (byte (lower c) - byte "a" + 10)
  else None.

(** The loop [for _, c := range []byte(s)] of ParseUint.  The result is
    the value, the kind of error if any, and the [underscores] flag. *)
Fixpoint uintLoop (base : Z) (base0 : bool) (cutoff maxVal : Z)
         (s : string) (n : Z) (underscores : bool) : Z * option errKind * bool :=
  match s with
  | EmptyString => (n, None, underscores)
  | String c s' =>
      if Ascii.eqb c "_" && base0
      then uintLoop base base0 cutoff maxVal s' n true
      else
        match digitVal c with
        | None => (0, Some ErrSyntax, underscores)
        | Some d =>
            if base <=? d then (0, Some ErrSyntax, underscores)
            else if cutoff <=? n then (maxVal, Some ErrRange, underscores)
            else
              let n := n * base in
              let n1 := (n + d) mod 2 ^ 64 in
              if (n1 <? n) || (maxVal <? n1) then (maxVal, Some ErrRange, underscores)
              else uintLoop base base0 cutoff maxVal s' n1 underscores
        end
  end.

(** The base and the digits after the prefix, for a call with base 0. *)
Definition basePrefix (s : string) : Z * string :=
  if Ascii.eqb (nthByte s 0) "0" then
    if (3 <=? len s) && Ascii.eqb (lower (nthByte s 1)) "b" then (2, strings.drop 2 s)
    else if (3 <=? len s) && Ascii.eqb (lower (nthByte s 1)) "o" then (8, strings.drop 2 s)
    else if (3 <=? len s) && Ascii.eqb (lower (nthByte s 1)) "x" then (16, strings.drop 2 s)
    else (8, strings.drop 1 s)
  else (10, s).

Definition ParseUint (s : string) (base : Z) (bitSize : Z) : Z * error :=
  if String.eqb s "" then (0, syntaxError fnParseUint s)
  else
    let base0 := base =? 0 in
    let s0 := s in
    let prefixed : option (Z * string) :=
      if (2 <=? base) && (base <=? 36) then Some (base, s)
      else if base =? 0 then Some (basePrefix s)
      else None in
    match prefixed with
    | None => (0, baseError fnParseUint s0 base)
    | Some (base, s) =>
        if (bitSize <? 0) || (64 <? bitSize) then (0, bitSizeError fnParseUint s0 bitSize)
        else
          let bitSize := if bitSize =? 0 then 64 else bitSize in
          let cutoff := maxUint64 / base + 1 in
          let maxVal := 2 ^ bitSize - 1 in
          match uintLoop base base0 cutoff maxVal s 0 false with
          | (n, Some k, _) => (n, Some (mkNumError fnParseUint s0 k))
          | (n, None, underscores) =>
              if underscores && negb (underscoreOK s0)
              then (0, syntaxError fnParseUint s0)
              else (n, None)
          end
    end.

End strconv.

(** ** float64

    A float64 is a [spec_float] of the library (binary64: 53 bits of
    precision, exponents of finite numbers between -1074 and 971 on an
    integer mantissa).  All NaNs are one value. *)

Definition float64 : Type := spec_float.

Module math.

Definition NaN : float64 := S754_nan.
Definition Inf (sign : Z) : float64 := S754_infinity (sign <? 0).

Definition IsNaN (f : float64) : bool :=
  match f with S754_nan => true | _ => false end.

End math.

(** The float64 nearest to the positive rational [num/den], ties to even
    (IEEE 754 roundTiesToEven), and whether the rounded value overflows the
    format.  [neg] is the sign given to the result. *)
Definition roundFloat64 (neg : bool) (num den : Z) : float64 * bool :=
  if num <=? 0 then (S754_zero neg, false)
  else
    (* floor (log2 (num/den)) is l or l - 1 *)
    let l := Z.log2 num - Z.log2 den in
    let reaches := if 0 <=? l then den * 2 ^ l <=? num else den <=? num * 2 ^ (- l) in
    let e0 := if reaches then l - 52 else l - 53 in
    (* below the normal range the exponent stays at -1074 *)
    let e := Z.max e0 (-1074) in
    let n := if 0 <=? e then num else num * 2 ^ (- e) in
    let d := if 0 <=? e then den * 2 ^ e else den in
    let q := n / d in
    let r := n mod d in
    let q' :=
      match 2 * r ?= d with
      | Lt => q
      | Gt => q + 1
      | Eq => if Z.even q then q else q + 1
      end in
    let '(m, e) := if q' =? 2 ^ 53 then (2 ^ 52, e + 1) else (q', e) in
    match m with
    | Zpos p => if e <=? 971 then (S754_finite neg p e, false) else (S754_infinity neg, true)
    | _ => (S754_zero neg, false)
    end.

(** The conversion [float64(u)] of a uint64. *)
Definition float64_of_uint64 (u : Z) : float64 := fst (roundFloat64 false u 1).

(** The integer a float64 denotes, when it denotes one. *)
Definition integerOf (f : float64) : option Z :=
  match f with
  | S754_zero _ => Some 0
  | S754_finite s m e =>
      let v :=
        if 0 <=? e then Some (Zpos m * 2 ^ e)
        else if Zpos m mod 2 ^ (- e) =? 0 then Some (Zpos m / 2 ^ (- e))
        else None in
      if s then option_map Z.opp v else v
  | _ => None
  end.

(** ** strconv.ParseFloat(s, 64) *)

Module atof.

Import strconv.

Definition fnParseFloat : string := "ParseFloat".

Definition toLowerAZ (c : ascii) : ascii :=
  if between "A" c "Z" then ascii_of_N (N_of_ascii c + 32) else c.

(** [commonPrefixLenIgnoreCase(s, prefix)], [prefix] in lower case. *)
Fixpoint commonPrefixLenIgnoreCase (s pre : string) : Z :=
  match s, pre with
  | String c s', String p pre' =>
      if Ascii.eqb (toLowerAZ c) p then 1 + commonPrefixLenIgnoreCase s' pre' else 0
  | _, _ => 0
  end.

(** [special]: the value and the number of bytes read for a (possibly
    signed) "inf", "infinity", or an unsigned "nan", in any case. *)
Definition special (s : string) : option (float64 * Z) :=
  let infinity (sign nsign : Z) (s : string) :=
    let n := commonPrefixLenIgnoreCase s "infinity" in
    let n := if (3 <? n) && (n <? 8) then 3 else n in
    if (n =? 3) || (n =? 8) then Some (math.Inf sign, nsign + n) else None in
  match s with
  | EmptyString => None
  | String c s' =>
      if Ascii.eqb c "+" then infinity 1 1 s'
      else if Ascii.eqb c "-" then infinity (-1) 1 s'
      else if Ascii.eqb c "i" || Ascii.eqb c "I" then infinity 1 0 s
      else if Ascii.eqb c "n" || Ascii.eqb c "N" then
        if commonPrefixLenIgnoreCase s "nan" =? 3 then Some (math.NaN, 3) else None
      else None
  end.

(** The state of the digit loop of [readFloat].  The mantissa is kept in
    full (Go keeps 19 digits and a truncation flag, and falls back to a
    slower exact conversion when they do not decide the rounding). *)
Record digits : Type := mkDigits {
  sawdot : bool;
  sawdigits : bool;
  nd : Z;
  dp : Z;
  mantissa : Z;
  underscores : bool
}.

Fixpoint digitLoop (base : Z) (s : string) (st : digits) : digits * string :=
  match s with
  | EmptyString => (st, s)
  | String c s' =>
      if Ascii.eqb c "_" then
        digitLoop base s' (mkDigits (sawdot st) (sawdigits st) (nd st) (dp st) (mantissa st) true)
      else if Ascii.eqb c "." then
        if sawdot st then (st, s)
        else digitLoop base s'
               (mkDigits true (sawdigits st) (nd st) (nd st) (mantissa st) (underscores st))
      else if between "0" c "9" then
        if Ascii.eqb c "0" && (nd st =? 0) then
          digitLoop base s'
            (mkDigits (sawdot st) true (nd st) (dp st - 1) (mantissa st) (underscores st))
        else
          digitLoop base s'
            (mkDigits (sawdot st) true (nd st + 1) (dp st)
                      (mantissa st * base + (byte c - byte "0")) (underscores st))
      else if (base =? 16) && between "a" (lower c) "f" then
        digitLoop base s'
          (mkDigits (sawdot st) true (nd st + 1) (dp st)
                    (mantissa st * 16 + (byte (lower c) - byte "a" + 10)) (underscores st))
      else (st, s)
  end.

(** The digits of the exponent; the value stops growing at 10000. *)
Fixpoint expLoop (s : string) (e : Z) (underscores : bool) : Z * bool * string :=
  match s with
  | EmptyString => (e, underscores, s)
  | String c s' =>
      if Ascii.eqb c "_" then expLoop s' e true
      else if between "0" c "9" then
        expLoop s' (if e <? 10000 then e * 10 + (byte c - byte "0") else e) underscores
      else (e, underscores, s)
  end.

Record scanned : Type := mkScanned {
  sc_mantissa : Z;
  sc_exp : Z;          (* power of 10, or of 2 for a hexadecimal mantissa *)
  sc_neg : bool;
  sc_hex : bool;
  sc_rest : string     (* what follows the number *)
}.

(** [readFloat]: [None] is ok = false. *)
Definition readFloat (s : string) : option scanned :=
  match s with
  | EmptyString => None
  | String c0 s0 =>
      let neg := Ascii.eqb c0 "-" in
      let s1 := if Ascii.eqb c0 "+" || Ascii.eqb c0 "-" then s0 else s in
      let hex := (2 <? len s1) && Ascii.eqb (nthByte s1 0) "0"
                 && Ascii.eqb (lower (nthByte s1 1)) "x" in
      let base := if hex then 16 else 10 in
      let expChar : ascii := if hex then "p"%char else "e"%char in
      let s2 := if hex then strings.drop 2 s1 else s1 in
      let '(st, s3) := digitLoop base s2 (mkDigits false false 0 0 0 false) in
      if negb (sawdigits st) then None
      else
        let dp := if sawdot st then dp st else nd st in
        let dp := if hex then dp * 4 else dp in
        let ndMant := if hex then nd st * 4 else nd st in
        let finish (dp : Z) (underscores : bool) (rest : string) :=
          let exp := if mantissa st =? 0 then 0 else dp - ndMant in
          let read := strings.take (String.length s - String.length rest) s in
          if underscores && negb (underscoreOK read) then None
          else Some (mkScanned (mantissa st) exp neg hex rest) in
        match s3 with
        | String c s4 =>
            if Ascii.eqb (lower c) expChar then
              match s4 with
              | EmptyString => None
              | String c' s5 =>
                  let esign := if Ascii.eqb c' "-" then -1 else 1 in
                  let s6 := if Ascii.eqb c' "+" || Ascii.eqb c' "-" then s5 else s4 in
                  match s6 with
                  | EmptyString => None
                  | String d _ =>
                      if between "0" d "9" then
                        let '(e, underscores, rest) := expLoop s6 0 (underscores st) in
                        finish (dp + e * esign) underscores rest
                      else None
                  end
              end
            else if hex then None
            else finish dp (underscores st) s3
        | EmptyString => if hex then None else finish dp (underscores st) s3
        end
  end.

(** The float64 for a scanned number, correctly rounded, and whether it
    overflows. *)
Definition value (sc : scanned) : float64 * bool :=
  let b := if sc_hex sc then 2 else 10 in
  if 0 <=? sc_exp sc
  then roundFloat64 (sc_neg sc) (sc_mantissa sc * b ^ sc_exp sc) 1
  else roundFloat64 (sc_neg sc) (sc_mantissa sc) (b ^ (- sc_exp sc)).

(** [strconv.ParseFloat(s, 64)].  Text after the number is a syntax error.
    (When the number in front of such text overflows, some Go releases
    report the range error instead; the parsers only compare the error
    with nil.) *)
Definition ParseFloat64 (s : string) : float64 * error :=
  match special s with
  | Some (f, n) => if n =? len s then (f, None) else (S754_zero false, syntaxError fnParseFloat s)
  | None =>
      match readFloat s with
      | None => (S754_zero false, syntaxError fnParseFloat s)
      | Some sc =>
          if negb (String.eqb (sc_rest sc) "") then (S754_zero false, syntaxError fnParseFloat s)
          else
            let '(f, ovf) := value sc in
            if ovf then (f, rangeError fnParseFloat s) else (f, None)
      end
  end.

End atof.

(** ** package regexp

    The patterns of collector.go use literals, the classes \s, \d and ".",
    a greedy star on a single byte or class, one alternation, one named
    group, and "^" only as the first thing of a pattern.  A pattern is
    matched the way Go's regexp documents: leftmost match, and among the
    matches at that place the one a backtracking search finds first
    (earlier alternative first, longer repetition first).  All patterns are
    ASCII, so matching bytes agrees with matching runes. *)

Module regexp.

Inductive re : Type :=
| Empty
| Class (p : ascii -> bool)
| Cat (a b : re)
| Alt (a b : re)
| Star (p : ascii -> bool)
| Group (i : nat) (name : string) (a : re).

(** [\s] is [\t\n\f\r ]. *)
Definition space (c : ascii) : bool :=
  Ascii.eqb c "009" || Ascii.eqb c "010" || Ascii.eqb c "012" || Ascii.eqb c "013"
  || Ascii.eqb c " ".

(** [\d] *)
Definition digit (c : ascii) : bool := strconv.between "0" c "9".

(** [.] is any character but a newline. *)
Definition dot (c : ascii) : bool := negb (Ascii.eqb c "010").

Definition chr (c : ascii) : re := Class (Ascii.eqb c).

Fixpoint seq (l : list re) : re :=
  match l with
  | [] => Empty
  | [a] => a
  | a :: l' => Cat a (seq l')
  end.

(** The characters of a literal, one after the other. *)
Fixpoint lit (s : string) : re :=
  match s with
  | EmptyString => Empty
  | String c EmptyString => chr c
  | String c s' => Cat (chr c) (lit s')
  end.

(** A compiled pattern: [anchored] is a leading "^". *)
Record Regexp : Type := mkRegexp { anchored : bool; expr : re }.

Fixpoint groupNames (r : re) : list string :=
  match r with
  | Cat a b | Alt a b => groupNames a ++ groupNames b
  | Group _ name a => name :: groupNames a
  | _ => []
  end.

(** [re.SubexpNames()]: the name of group i at index i, "" at index 0. *)
Definition SubexpNames (r : Regexp) : list string := "" :: groupNames (expr r).

Fixpoint setNth (i : nat) (v : string) (l : list string) : list string :=
  match i, l with
  | O, _ :: l' => v :: l'
  | S i', x :: l' => x :: setNth i' v l'
  | _, [] => []
  end.

(** What was read between [s] and its suffix [s']. *)
Definition consumed (s s' : string) : string :=
  strings.take (String.length s - String.length s') s.

Section Backtrack.

Context {A : Type}.

Fixpoint starLoop (p : ascii -> bool) (s : string) (k : string -> option A) : option A :=
  match s with
  | String c s' =>
      if p c then
        match starLoop p s' k with
        | Some x => Some x
        | None => k s
        end
      else k s
  | EmptyString => k s
  end.

(** Match [r] at the head of [s], then go on with [k] on the rest and
    the groups; the first success is the answer. *)
Fixpoint run (r : re) (s : string) (caps : list string)
         (k : string -> list string -> option A) : option A :=
  match r with
  | Empty => k s caps
  | Class p =>
      match s with
      | String c s' => if p c then k s' caps else None
      | EmptyString => None
      end
  | Cat a b => run a s caps (fun s' caps' => run b s' caps' k)
  | Alt a b =>
      match run a s caps k with
      | Some x => Some x
      | None => run b s caps k
      end
  | Star p => starLoop p s (fun s' => k s' caps)
  | Group i _ a => run a s caps (fun s' caps' => k s' (setNth i (consumed s s') caps'))
  end.

End Backtrack.

(** The match that starts at the head of [s]: the matched text and the
    text of each group. *)
Definition matchHere (r : Regexp) (s : string) : option (list string) :=
  run (expr r) s (map (fun _ => "") (SubexpNames r))
      (fun s' caps => Some (setNth 0 (consumed s s') caps)).

Fixpoint search (r : Regexp) (s : string) : option (list string) :=
  match matchHere r s with
  | Some m => Some m
  | None =>
      match s with
      | String _ s' => search r s'
      | EmptyString => None
      end
  end.

(** [re.FindStringSubmatch(s)]; a nil slice is [None]. *)
Definition FindStringSubmatch (r : Regexp) (s : string) : option (list string) :=
  if anchored r then matchHere r s else search r s.

(** [regexp.MatchString(pattern, s)] for a pattern that compiles: the
    error is nil. *)
Definition MatchString (pattern : Regexp) (s : string) : bool * strconv.error :=
  (match FindStringSubmatch pattern s with Some _ => true | None => false end, None).

(** [m[i]] where [m] may be the nil slice. *)
Definition at_ (m : option (list string)) (i : nat) : go string :=
  match m with
  | Some l => index l i
  | None => index (@nil string) i
  end.

(** The texts a pattern matches, for reasoning. *)
Inductive Matches : re -> string -> Prop :=
| MEmpty : Matches Empty ""
| MClass p c : p c = true -> Matches (Class p) (String c "")
| MCat a b u v : Matches a u -> Matches b v -> Matches (Cat a b) (u ++ v)
| MAltL a b u : Matches a u -> Matches (Alt a b) u
| MAltR a b u : Matches b u -> Matches (Alt a b) u
| MStarNil p : Matches (Star p) ""
| MStarCons p c u : p c = true -> Matches (Star p) u -> Matches (Star p) (String c u)
| MGroup i name a u : Matches a u -> Matches (Group i name a) u.

End regexp.

Import regexp.

Definition valueGroup (a : re) : re := Group 1 "value" a.

(** *** The patterns of collector.go (second generation, lines 641-657;
        the first generation has only ipmiCurrentPowerRegex, the same).
        Each pattern is quoted above its translation, with a blank added
        before the parenthesis that closes the group. *)

(** "\sBoard\sMfg\sDate\s*:\s*(?P<value>.* )" *)
Definition fruBoardDateRegex : Regexp :=
  mkRegexp false
    (seq [Class space; lit "Board"; Class space; lit "Mfg"; Class space; lit "Date";
          Star space; chr ":"; Star space; valueGroup (Star dot)]).

(** "^Chassis\s*Power\s*is\s*(?P<value>on|off* )" *)
Definition ipmiCurrentPowerRegex : Regexp :=
  mkRegexp true
    (seq [lit "Chassis"; Star space; lit "Power"; Star space; lit "is"; Star space;
          valueGroup (Alt (lit "on") (Cat (lit "of") (Star (Ascii.eqb "f"))))]).

(** "^IP\sAddress\sSource\s*:\s*(?P<value>.* )" *)
Definition ipSourceRegex : Regexp :=
  mkRegexp true
    (seq [lit "IP"; Class space; lit "Address"; Class space; lit "Source";
          Star space; chr ":"; Star space; valueGroup (Star dot)]).

(** "^MAC\sAddress\s*:\s*(?P<value>.* )" *)
Definition macAddressRegex : Regexp :=
  mkRegexp true
    (seq [lit "MAC"; Class space; lit "Address";
          Star space; chr ":"; Star space; valueGroup (Star dot)]).

(** "^Default\sGateway\sIP\s*:\s*(?P<value>.* )" *)
Definition defaultGatewayRegex : Regexp :=
  mkRegexp true
    (seq [lit "Default"; Class space; lit "Gateway"; Class space; lit "IP";
          Star space; chr ":"; Star space; valueGroup (Star dot)]).

(** "^802.1q\sVLAN\sID\s*:\s*(?P<value>.* )" (the "." after 802 is not
    escaped) *)
Definition vlanIDRegex : Regexp :=
  mkRegexp true
    (seq [lit "802"; Class dot; lit "1q"; Class space; lit "VLAN"; Class space; lit "ID";
          Star space; chr ":"; Star space; valueGroup (Star dot)]).

(** "^802.1q\sVLAN\sPriority\s*:\s*(?P<value>.* )" *)
Definition vlanPriorityRegex : Regexp :=
  mkRegexp true
    (seq [lit "802"; Class dot; lit "1q"; Class space; lit "VLAN"; Class space; lit "Priority";
          Star space; chr ":"; Star space; valueGroup (Star dot)]).

(** "^Subnet\sMask\s*:\s*(?P<value>.* )" *)
Definition subnetMaskRegex : Regexp :=
  mkRegexp true
    (seq [lit "Subnet"; Class space; lit "Mask";
          Star space; chr ":"; Star space; valueGroup (Star dot)]).

(** "^Firmware\sRevision\s*:\s*(?P<value>.* )" *)
Definition firmwareRevRegex : Regexp :=
  mkRegexp true
    (seq [lit "Firmware"; Class space; lit "Revision";
          Star space; chr ":"; Star space; valueGroup (Star dot)]).

(** "^IPMI\sVersion\s*:\s*(?P<value>.* )" *)
Definition ipmiVersionRegex : Regexp :=
  mkRegexp true
    (seq [lit "IPMI"; Class space; lit "Version";
          Star space; chr ":"; Star space; valueGroup (Star dot)]).

(** "^Manufacturer\sName\s*:\s*(?P<value>.* )" *)
Definition manufacturerRegex : Regexp :=
  mkRegexp true
    (seq [lit "Manufacturer"; Class space; lit "Name";
          Star space; chr ":"; Star space; valueGroup (Star dot)]).

(** "^\s*Average\spower\sreading\sover\ssample\speriod:\s*(?P<value>.* ) Watts" *)
Definition dcmiAvgPowerRegex : Regexp :=
  mkRegexp true
    (seq [Star space; lit "Average"; Class space; lit "power"; Class space; lit "reading";
          Class space; lit "over"; Class space; lit "sample"; Class space; lit "period:";
          Star space; valueGroup (Star dot); lit " Watts"]).

(** "^\s*Instantaneous\spower\sreading:\s*(?P<value>.* ) Watts" *)
Definition dcmiInstaPowerRegex : Regexp :=
  mkRegexp true
    (seq [Star space; lit "Instantaneous"; Class space; lit "power"; Class space;
          lit "reading:"; Star space; valueGroup (Star dot); lit " Watts"]).

(** "^\s*Minimum\sduring\ssampling\speriod:\s*(?P<value>.* ) Watts" *)
Definition dcmiMinPowerRegex : Regexp :=
  mkRegexp true
    (seq [Star space; lit "Minimum"; Class space; lit "during"; Class space; lit "sampling";
          Class space; lit "period:"; Star space; valueGroup (Star dot); lit " Watts"]).

(** "^\s*Maximum\sduring\ssampling\speriod:\s*(?P<value>.* ) Watts" *)
Definition dcmiMaxPowerRegex : Regexp :=
  mkRegexp true
    (seq [Star space; lit "Maximum"; Class space; lit "during"; Class space; lit "sampling";
          Class space; lit "period:"; Star space; valueGroup (Star dot); lit " Watts"]).

(** ":" in splitFwumOutput *)
Definition colonRegex : Regexp := mkRegexp false (chr ":").

(** "ChassisIntru" in collectSensorMonitoring *)
Definition chassisIntruPattern : Regexp := mkRegexp false (lit "ChassisIntru").

(** "PS\dStatus*" in collectSensorMonitoring *)
Definition psStatusPattern : Regexp :=
  mkRegexp false (seq [lit "PS"; Class digit; lit "Statu"; Star (Ascii.eqb "s")]).

(** ** collector.go: data and loops *)

Import strconv atof.

Record fruData : Type := mkFruData { fru_Name : string; fru_Value : string }.
Record lanData : Type := mkLanData { lan_Name : string; lan_Value : string }.
Record bmcData : Type := mkBmcData { bmc_Name : string; bmc_Value : string }.
Record fwumData : Type := mkFwumData { fwum_Name : string; fwum_Value : float64 }.
Record dcmiPowerData : Type := mkDcmiPowerData { dcmi_Name : string; dcmi_Value : float64 }.

Record sensorData : Type := mkSensorData {
  Name : string;
  Value : float64;
  Type_ : string;
  State : string
}.

(** The builtin [append] with one element. *)
Definition append {T : Type} (s : list T) (x : T) : list T := (s ++ [x])%list.

(** The metric descriptors the sensor collector sends with (lines 702-870;
    the first generation declares the same ones). *)
Inductive Desc : Type :=
| sensorStateDesc | sensorValueDesc
| chassisIntrusionDesc | chassisIntrusionStateDesc
| chassisPowerDeviceDesc | chassisPowerDeviceStateDesc
| fanSpeedDesc | fanSpeedStateDesc
| temperatureDesc | temperatureStateDesc
| voltageDesc | voltageStateDesc
| currentDesc | currentStateDesc
| powerDesc | powerStateDesc.

(** [prometheus.MustNewConstMetric(desc, prometheus.GaugeValue, value,
    labelValues...)]; every call of the collector passes as many label
    values as its descriptor has labels. *)
Record Metric : Type := mkMetric {
  desc : Desc;
  metricValue : float64;
  labelValues : list string
}.

(** A call of [log.Errorf]. *)
Inductive logLine : Type :=
| Errorf (format : string) (args : list string).

(** What went wrong in a collector: the external command, or a parse. *)
Inductive collectError (E : Type) : Type :=
| ExecError (e : E)
| ParseError (e : NumError).

Arguments ExecError {E} e.
Arguments ParseError {E} e.

(** What a collector did: the metrics sent on the channel, in order, the
    log lines, and the values returned. *)
Record collected (E : Type) : Type := mkCollected {
  sent : list Metric;
  logged : list logLine;
  returned : Z * option (collectError E)
}.

Arguments mkCollected {E} sent logged returned.
Arguments sent {E} c.
Arguments logged {E} c.
Arguments returned {E} c.

(** How the body of [for scanner.Scan() { ... }] leaves a line: at its end
    or by [continue], by [break], or by [return]. *)
Inductive step (S R : Type) : Type :=
| Next (s : S)
| Break (s : S)
| Return (r : R).

Arguments Next {S R} s.
Arguments Break {S R} s.
Arguments Return {S R} r.

(** The loop over the lines of the scanner; [inl] is the state with which
    the statements after the loop run, [inr] what a [return] inside it
    gave. *)
Fixpoint forScan {S R : Type} (body : S -> string -> go (step S R))
         (lines : list string) (s : S) : go (S + R) :=
  match lines with
  | [] => Ret (inl s)
  | line :: rest =>
      match body s line with
      | Ret (Next s') => forScan body rest s'
      | Ret (Break s') => Ret (inl s')
      | Ret (Return r) => Ret (inr r)
      | Fault p => Fault p
      end
  end.

(** A parser whose loop state is its pair of results, [return result, err]
    after the loop. *)
Definition scanAll {T : Type} (body : list T * error -> string -> go (step (list T * error) (list T * error)))
           (output : string) : go (list T * error) :=
  r <- forScan body (bufio.Lines output) ([], None) ;;
  match r with
  | inl st => Ret st
  | inr st => Ret st
  end.

(** [for i, name := range re.SubexpNames() { if name != "value" { continue }
    ... m[i] ... break }]: the text of the first group called "value". *)
Fixpoint firstValue (m : list string) (names : list string) (i : nat) : go (option string) :=
  match names with
  | [] => Ret None
  | name :: names' =>
      if negb (String.eqb name "value") then firstValue m names' (S i)
      else v <- index m i ;; Ret (Some v)
  end.

(** ** First generation of collector.go (lines 1-618) *)

Module Gen1.

(** lines 271-303 *)
Definition splitSensorLine (st : list sensorData * error) (line : string)
  : go (step (list sensorData * error) (list sensorData * error)) :=
  let '(result, err) := st in
  if 0 <? len line then
    let trimmedL := strings.ReplaceAll line " " "" in
    let splittedL := strings.Split trimmedL "|" in
    name <- index splittedL 0 ;;
    valueS <- index splittedL 1 ;;
    let '(convValueS, convErr) := ParseUint valueS 0 64 in
    let finish (value : float64) (err : error) :=
      type <- index splittedL 2 ;;
      state <- index splittedL 3 ;;
      Ret (Next (append result (mkSensorData name value type state), err)) in
    if negb (String.eqb valueS "na") && negb (isNil convErr) then
      let '(value, err) := ParseFloat64 valueS in
      if negb (isNil err) then Ret (Next (result, err))
      else finish value err
    else if negb (String.eqb valueS "na") && isNil convErr then
      finish (float64_of_uint64 convValueS) err
    else finish math.NaN err
  else Ret (Next (result, err)).

Definition splitSensorOutput (impitoolOutput : string) : go (list sensorData * error) :=
  scanAll splitSensorLine impitoolOutput.

(** lines 305-329 *)
Definition splitFwumLine (st : list fwumData * error) (line : string)
  : go (step (list fwumData * error) (list fwumData * error)) :=
  let '(result, err) := st in
  let trimmedL := strings.ReplaceAll line " " "" in
  let sanitizedL := FindStringSubmatch colonRegex trimmedL in
  match sanitizedL with
  | Some _ =>
      let splittedL := strings.Split trimmedL ":" in
      name <- index splittedL 0 ;;
      valueS <- index splittedL 1 ;;
      let '(value, err) := ParseFloat64 valueS in
      if negb (isNil err) then Ret (Return (result, err))
      else Ret (Next (append result (mkFwumData name value), err))
  | None => Ret (Next (append result (mkFwumData "" (S754_zero false)), err))
  end.

Definition splitFwumOutput (impitoolOutput : string) : go (list fwumData * error) :=
  scanAll splitFwumLine impitoolOutput.

(** lines 331-349 *)
Definition splitFruLine (st : list fruData * error) (line : string)
  : go (step (list fruData * error) (list fruData * error)) :=
  let '(result, err) := st in
  if 0 <? len line then
    let trimmedL := strings.ReplaceAll line " " "" in
    let splittedL := strings.Split trimmedL ":" in
    name <- index splittedL 0 ;;
    value <- index splittedL 1 ;;
    Ret (Next (append result (mkFruData name value), err))
  else Ret (Next (result, err)).

Definition splitFruOutput (impitoolOutput : string) : go (list fruData * error) :=
  scanAll splitFruLine impitoolOutput.

(** lines 351-366 *)
Definition chassisPowerLine (err : error) (line : string) : go (step error (Z * error)) :=
  if 0 <? len line then
    value <- at_ (FindStringSubmatch ipmiCurrentPowerRegex line) 1 ;;
    if String.eqb value "on" then Ret (Return (0, err)) else Ret (Next err)
  else Ret (Next err).

Definition getChassisPowerState (ipmitoolOutput : string) : go (Z * error) :=
  r <- forScan chassisPowerLine (bufio.Lines ipmitoolOutput) None ;;
  match r with
  | inl err => Ret (1, err)
  | inr res => Ret res
  end.

(** lines 381-475 *)
Definition collectTypedSensor (desc stateDesc : Desc) (state : float64) (data : sensorData)
  : list Metric :=
  [mkMetric desc (Value data) [Name data]; mkMetric stateDesc state [Name data]].

Definition collectGenericSensor (state : float64) (data : sensorData) : list Metric :=
  [mkMetric sensorValueDesc (Value data) [Name data; Type_ data];
   mkMetric sensorStateDesc state [Name data; Type_ data]].

(** [switch data.State] of collectSensorMonitoring (lines 427-447):
    the state and what is logged. *)
Definition sensorState (data : sensorData) : float64 * list logLine :=
  if String.eqb (State data) "ok" then (float64_of_uint64 0, [])
  else if String.eqb (State data) "cr" then (float64_of_uint64 1, [])
  else if String.eqb (State data) "nr" then (float64_of_uint64 2, [])
  else if String.eqb (State data) "nc" then (float64_of_uint64 3, [])
  else if String.eqb (State data) "ns" then (float64_of_uint64 4, [])
  else if String.eqb (State data) "0x0000" then (float64_of_uint64 0, [])
  else if String.eqb (State data) "0x0100" then (float64_of_uint64 1, [])
  else if String.eqb (State data) "na" then (math.NaN, [])
  else (math.NaN, [Errorf "Unknown sensor state: '%s'\n" [State data]]).

(** [switch data.Type] of collectSensorMonitoring (lines 449-472):
    the metrics sent for one record. *)
Definition sensorMetrics (state : float64) (data : sensorData) : list Metric :=
  if String.eqb (Type_ data) "RPM" then
    collectTypedSensor fanSpeedDesc fanSpeedStateDesc state data
  else if String.eqb (Type_ data) "degrees C" then
    collectTypedSensor temperatureDesc temperatureStateDesc state data
  else if String.eqb (Type_ data) "Ampers" then
    collectTypedSensor currentDesc currentStateDesc state data
  else if String.eqb (Type_ data) "Volts" then
    collectTypedSensor voltageDesc voltageStateDesc state data
  else if String.eqb (Type_ data) "Watts" then
    collectTypedSensor powerDesc powerStateDesc state data
  else if String.eqb (Type_ data) "discrete" then
    let '(res, err) := MatchString chassisIntruPattern (Name data) in
    if res then
      if negb (isNil err)
      then collectTypedSensor chassisIntrusionDesc chassisIntrusionStateDesc state data
      else []
    else
      let '(res, err) := MatchString psStatusPattern (Name data) in
      if res then
        if negb (isNil err)
        then collectTypedSensor chassisPowerDeviceDesc chassisPowerDeviceStateDesc state data
        else []
      else []
  else collectGenericSensor state data.

Section Collector.

(** The process collaborator: [ipmitoolOutput(target, command)] runs
    the external tool; [targetName] names the host in log lines. *)
Context {ipmiTarget execError : Type}.
Variable ipmitoolOutput : ipmiTarget -> string -> string * option execError.
Variable targetName : ipmiTarget -> string.
Variable errorText : collectError execError -> string.

Fixpoint collectSensors (results : list sensorData) : list Metric * list logLine :=
  match results with
  | [] => ([], [])
  | data :: rest =>
      let '(state, l) := sensorState data in
      let '(ms, ls) := collectSensors rest in
      ((sensorMetrics state data ++ ms)%list, (l ++ ls)%list)
  end.

Definition collectSensorMonitoring (target : ipmiTarget) : go (collected execError) :=
  match ipmitoolOutput target "sensor" with
  | (_, Some err) =>
      Ret (mkCollected []
             [Errorf "Failed to collect ipmitool sensor data from %s: %s"
                     [targetName target; errorText (ExecError err)]]
             (0, Some (ExecError err)))
  | (output, None) =>
      r <- splitSensorOutput output ;;
      match r with
      | (_, Some err) =>
          Ret (mkCollected []
                 [Errorf "Failed to parse ipmitool sensor data from %s: %s"
                         [targetName target; errorText (ParseError err)]]
                 (0, Some (ParseError err)))
      | (results, None) =>
          let '(ms, ls) := collectSensors results in
          Ret (mkCollected ms ls (1, None))
      end
  end.

End Collector.

End Gen1.

(** ** Second generation of collector.go (lines 619-1605) *)

Module Gen2.

(** lines 944-976 *)
Definition splitSensorLine (st : list sensorData * error) (line : string)
  : go (step (list sensorData * error) (list sensorData * error)) :=
  let '(result, err) := st in
  if 0 <? len line then
    let trimmedL := strings.ReplaceAll line " " "" in
    let splittedL := strings.Split trimmedL "|" in
    name <- index splittedL 0 ;;
    valueS <- index splittedL 1 ;;
    let '(convValueS, convErr) := ParseUint valueS 0 64 in
    let finish (value : float64) (err : error) :=
      type <- index splittedL 2 ;;
      state <- index splittedL 3 ;;
      Ret (Next (append result (mkSensorData name value type state), err)) in
    if negb (String.eqb valueS "na") && negb (isNil convErr) then
      let '(value, err) := ParseFloat64 valueS in
      if negb (isNil err) then Ret (Next (result, err))
      else finish value err
    else if negb (String.eqb valueS "na") && isNil convErr then
      finish (float64_of_uint64 convValueS) err
    else finish math.NaN err
  else Ret (Next (result, err)).

Definition splitSensorOutput (impitoolOutput : string) : go (list sensorData * error) :=
  scanAll splitSensorLine impitoolOutput.

(** One of the four blocks of splitDcmiPowerOutput: the loop over the
    group names has neither [break] nor [return]; a value that does not
    parse leaves the error set and appends nothing. *)
Fixpoint dcmiValues (label : string) (m names : list string) (i : nat)
         (st : list dcmiPowerData * error) : go (list dcmiPowerData * error) :=
  match names with
  | [] => Ret st
  | name :: names' =>
      if negb (String.eqb name "value") then dcmiValues label m names' (S i) st
      else
        v <- index m i ;;
        let '(value, err) := ParseFloat64 v in
        if negb (isNil err) then dcmiValues label m names' (S i) (fst st, err)
        else dcmiValues label m names' (S i) (append (fst st) (mkDcmiPowerData label value), err)
  end.

Definition dcmiBlock (re : Regexp) (label : string) (line : string)
           (st : list dcmiPowerData * error) : go (list dcmiPowerData * error) :=
  match FindStringSubmatch re line with
  | Some m => dcmiValues label m (SubexpNames re) 0 st
  | None => Ret st
  end.

(** lines 978-1048 *)
Definition splitDcmiPowerLine (st : list dcmiPowerData * error) (line : string)
  : go (step (list dcmiPowerData * error) (list dcmiPowerData * error)) :=
  if 0 <? len line then
    st <- dcmiBlock dcmiAvgPowerRegex "Avg power consumption" line st ;;
    st <- dcmiBlock dcmiMinPowerRegex "Min power consumption" line st ;;
    st <- dcmiBlock dcmiMaxPowerRegex "Max power consumption" line st ;;
    st <- dcmiBlock dcmiInstaPowerRegex "Instantaneous power consumption" line st ;;
    Ret (Next st)
  else Ret (Next st).

Definition splitDcmiPowerOutput (impitoolOutput : string) : go (list dcmiPowerData * error) :=
  scanAll splitDcmiPowerLine impitoolOutput.

(** lines 1050-1074 *)
Definition splitFwumLine (st : list fwumData * error) (line : string)
  : go (step (list fwumData * error) (list fwumData * error)) :=
  let '(result, err) := st in
  let trimmedL := strings.ReplaceAll line " " "" in
  let sanitizedL := FindStringSubmatch colonRegex trimmedL in
  match sanitizedL with
  | Some _ =>
      let splittedL := strings.Split trimmedL ":" in
      name <- index splittedL 0 ;;
      valueS <- index splittedL 1 ;;
      let '(value, err) := ParseFloat64 valueS in
      if negb (isNil err) then Ret (Return (result, err))
      else Ret (Next (append result (mkFwumData name value), err))
  | None => Ret (Next (append result (mkFwumData "" (S754_zero false)), err))
  end.

Definition splitFwumOutput (impitoolOutput : string) : go (list fwumData * error) :=
  scanAll splitFwumLine impitoolOutput.

(** The blocks of splitBmcOutput, splitFruOutput and splitLANOutput: the
    first group called "value" is appended under a fixed name. *)
Definition captured {T : Type} (mk : string -> T) (re : Regexp) (m : list string)
           (result : list T) : go (list T) :=
  v <- firstValue m (SubexpNames re) 0 ;;
  match v with
  | Some v => Ret (append result (mk v))
  | None => Ret result
  end.

(** lines 1076-1129 *)
Definition splitBmcLine (st : list bmcData * error) (line : string)
  : go (step (list bmcData * error) (list bmcData * error)) :=
  let '(result, err) := st in
  if 0 <? len line then
    match FindStringSubmatch firmwareRevRegex line with
    | Some firmwareRev =>
        result <- captured (mkBmcData "FirmwareRevision") firmwareRevRegex firmwareRev result ;;
        Ret (Next (result, err))
    | None =>
    match FindStringSubmatch ipmiVersionRegex line with
    | Some ipmiVersion =>
        result <- captured (mkBmcData "IPMIVersion") ipmiVersionRegex ipmiVersion result ;;
        Ret (Next (result, err))
    | None =>
    match FindStringSubmatch manufacturerRegex line with
    | Some manufacturer =>
        result <- captured (mkBmcData "Manufacturer") manufacturerRegex manufacturer result ;;
        Ret (Break (result, err))
    | None => Ret (Next (result, err))
    end end end
  else Ret (Next (result, err)).

Definition splitBmcOutput (impitoolOutput : string) : go (list bmcData * error) :=
  scanAll splitBmcLine impitoolOutput.

(** lines 1131-1162 *)
Definition splitFruLine (st : list fruData * error) (line : string)
  : go (step (list fruData * error) (list fruData * error)) :=
  let '(result, err) := st in
  if 0 <? len line then
    match FindStringSubmatch fruBoardDateRegex line with
    | Some boardDate =>
        result <- captured (mkFruData "BoardMfgDate") fruBoardDateRegex boardDate result ;;
        Ret (Next (result, err))
    | None =>
        let trimmedL := strings.ReplaceAll line " " "" in
        let splittedL := strings.Split trimmedL ":" in
        name <- index splittedL 0 ;;
        value <- index splittedL 1 ;;
        Ret (Next (append result (mkFruData name value), err))
    end
  else Ret (Next (result, err)).

Definition splitFruOutput (impitoolOutput : string) : go (list fruData * error) :=
  scanAll splitFruLine impitoolOutput.

(** lines 1164-1255 *)
Definition splitLANLine (st : list lanData * error) (line : string)
  : go (step (list lanData * error) (list lanData * error)) :=
  let '(result, err) := st in
  if 0 <? len line then
    match FindStringSubmatch ipSourceRegex line with
    | Some ipSource =>
        result <- captured (fun v => mkLanData "IPSource" (strings.ReplaceAll v " " ""))
                           ipSourceRegex ipSource result ;;
        Ret (Next (result, err))
    | None =>
    match FindStringSubmatch subnetMaskRegex line with
    | Some subnetMask =>
        result <- captured (mkLanData "SubnetMask") subnetMaskRegex subnetMask result ;;
        Ret (Next (result, err))
    | None =>
    match FindStringSubmatch macAddressRegex line with
    | Some macMatch =>
        result <- captured (mkLanData "MACAddress") macAddressRegex macMatch result ;;
        Ret (Next (result, err))
    | None =>
    match FindStringSubmatch defaultGatewayRegex line with
    | Some defGateway =>
        result <- captured (mkLanData "DefaultGateway") defaultGatewayRegex defGateway result ;;
        Ret (Next (result, err))
    | None =>
    match FindStringSubmatch vlanIDRegex line with
    | Some vlanID =>
        result <- captured (mkLanData "VLANID") vlanIDRegex vlanID result ;;
        Ret (Next (result, err))
    | None =>
    match FindStringSubmatch vlanPriorityRegex line with
    | Some vlanPriority =>
        result <- captured (mkLanData "VLANPriority") vlanPriorityRegex vlanPriority result ;;
        Ret (Break (result, err))
    | None => Ret (Next (result, err))
    end end end end end end
  else Ret (Next (result, err)).

Definition splitLANOutput (impitoolOutput : string) : go (list lanData * error) :=
  scanAll splitLANLine impitoolOutput.

(** lines 1257-1272 *)
Definition chassisPowerLine (err : error) (line : string) : go (step error (Z * error)) :=
  if 0 <? len line then
    value <- at_ (FindStringSubmatch ipmiCurrentPowerRegex line) 1 ;;
    if String.eqb value "on" then Ret (Return (1, err)) else Ret (Next err)
  else Ret (Next err).

Definition getChassisPowerState (ipmitoolOutput : string) : go (Z * error) :=
  r <- forScan chassisPowerLine (bufio.Lines ipmitoolOutput) None ;;
  match r with
  | inl err => Ret (0, err)
  | inr res => Ret res
  end.

(** lines 1287-1387 *)
Definition collectTypedSensor (desc stateDesc : Desc) (state : float64) (data : sensorData)
  : list Metric :=
  [mkMetric desc (Value data) [Name data]; mkMetric stateDesc state [Name data]].

Definition collectGenericSensor (state : float64) (data : sensorData) : list Metric :=
  [mkMetric sensorValueDesc (Value data) [Name data; Type_ data];
   mkMetric sensorStateDesc state [Name data; Type_ data]].

(** [switch data.State] of collectSensorMonitoring (lines 1333-1353):
    the state and what is logged. *)
Definition sensorState (data : sensorData) : float64 * list logLine :=
  if String.eqb (State data) "ok" then (float64_of_uint64 0, [])
  else if String.eqb (State data) "cr" then (float64_of_uint64 1, [])
  else if String.eqb (State data) "nr" then (float64_of_uint64 2, [])
  else if String.eqb (State data) "nc" then (float64_of_uint64 3, [])
  else if String.eqb (State data) "ns" then (float64_of_uint64 4, [])
  else if String.eqb (State data) "0x0000" then (float64_of_uint64 0, [])
  else if String.eqb (State data) "0x0100" then (float64_of_uint64 1, [])
  else if String.eqb (State data) "na" then (math.NaN, [])
  else (math.NaN, [Errorf "Unknown sensor state: '%s'\n" [State data]]).

(** [switch data.Type] of collectSensorMonitoring (lines 1355-1384):
    the metrics sent for one record. *)
Definition sensorMetrics (state : float64) (data : sensorData) : list Metric :=
  if String.eqb (Type_ data) "RPM" then
    collectTypedSensor fanSpeedDesc fanSpeedStateDesc state data
  else if String.eqb (Type_ data) "degrees C" then
    collectTypedSensor temperatureDesc temperatureStateDesc state data
  else if String.eqb (Type_ data) "Ampers" then
    collectTypedSensor currentDesc currentStateDesc state data
  else if String.eqb (Type_ data) "Volts" then
    collectTypedSensor voltageDesc voltageStateDesc state data
  else if String.eqb (Type_ data) "Watts" then
    collectTypedSensor powerDesc powerStateDesc state data
  else if String.eqb (Type_ data) "discrete" then
    let '(res, err) := MatchString chassisIntruPattern (Name data) in
    if res then
      if negb (isNil err)
      then collectTypedSensor chassisIntrusionDesc chassisIntrusionStateDesc state data
      else collectTypedSensor chassisIntrusionDesc chassisIntrusionStateDesc state data
    else
      let '(res, err) := MatchString psStatusPattern (Name data) in
      if res then
        if negb (isNil err)
        then collectTypedSensor chassisPowerDeviceDesc chassisPowerDeviceStateDesc state data
        else collectTypedSensor chassisPowerDeviceDesc chassisPowerDeviceStateDesc state data
      else []
  else collectGenericSensor state data.

Section Collector.

(** The process collaborator: [ipmitoolOutput(target, command)] runs
    the external tool; [targetName] names the host in log lines. *)
Context {ipmiTarget execError : Type}.
Variable ipmitoolOutput : ipmiTarget -> string -> string * option execError.
Variable targetName : ipmiTarget -> string.
Variable errorText : collectError execError -> string.

Fixpoint collectSensors (results : list sensorData) : list Metric * list logLine :=
  match results with
  | [] => ([], [])
  | data :: rest =>
      let '(state, l) := sensorState data in
      let '(ms, ls) := collectSensors rest in
      ((sensorMetrics state data ++ ms)%list, (l ++ ls)%list)
  end.

Definition collectSensorMonitoring (target : ipmiTarget) : go (collected execError) :=
  match ipmitoolOutput target "sensor" with
  | (_, Some err) =>
      Ret (mkCollected []
             [Errorf "Failed to collect ipmitool sensor data from %s: %s"
                     [targetName target; errorText (ExecError err)]]
             (0, Some (ExecError err)))
  | (output, None) =>
      r <- splitSensorOutput output ;;
      match r with
      | (_, Some err) =>
          Ret (mkCollected []
                 [Errorf "Failed to parse ipmitool sensor data from %s: %s"
                         [targetName target; errorText (ParseError err)]]
                 (0, Some (ParseError err)))
      | (results, None) =>
          let '(ms, ls) := collectSensors results in
          Ret (mkCollected ms ls (1, None))
      end
  end.

End Collector.

End Gen2.

(** * The exporter around the parsers *)

(** ** strconv.FormatInt and strconv.FormatFloat *)

Module itoa.

Definition digits : string := "0123456789abcdefghijklmnopqrstuvwxyz".

(** The loop of [formatBits], from the last digit to the first:
    [for u >= b { q := u / b; a[i] = digits[u-q*b]; u = q }] and then
    [a[i] = digits[u]].  The counter bounds the number of digits. *)
Fixpoint formatBits (n : nat) (u base : Z) (a : string) : string :=
  match n with
  | O => a
  | S n' =>
      if base <=? u
      then formatBits n' (u / base) base (String (nthByte digits (Z.to_nat (u mod base))) a)
      else String (nthByte digits (Z.to_nat u)) a
  end.

(** [strconv.FormatInt(i, base)] for a base from 2 to 36: the digits of
    the magnitude of [i], after "-" when [i] is negative.  A number has no
    more digits than bits. *)
Definition FormatInt (i : Z) (base : Z) : string :=
  let u := Z.abs i in
  let a := formatBits (S (Z.to_nat (Z.log2 u))) u base "" in
  if i <? 0 then String "-" a else a.

End itoa.

Module ftoa.

Import itoa.

(** The integer nearest to [num/den], ties to the even one. *)
Definition roundHalfEven (num den : Z) : Z :=
  let q := num / den in
  let r := num mod den in
  if 2 * r <? den then q
  else if den <? 2 * r then q + 1
  else if Z.even q then q else q + 1.

Fixpoint zeros (n : nat) : string :=
  match n with
  | O => EmptyString
  | S n' => String "0" (zeros n')
  end.

(** [%e] is not used by the program; [fmtF] writes the integer part, and
    after a point [prec] digits, of the decimal [q / 10^prec]. *)
Definition fmtF (neg : bool) (q : Z) (prec : nat) : string :=
  let p := 10 ^ Z.of_nat prec in
  let frac := FormatInt (q mod p) 10 in
  (if neg then "-" else "")
  ++ FormatInt (q / p) 10
  ++ (if (0 <? prec)%nat then "." ++ zeros (prec - String.length frac) ++ frac else "").

(** [strconv.FormatFloat(f, 'f', prec, 64)] for a precision that is not
    negative: the decimal with [prec] digits after the point nearest to
    [f], ties to even. *)
Definition FormatFloat (f : float64) (prec : nat) : string :=
  match f with
  | S754_nan => "NaN"
  | S754_infinity false => "+Inf"
  | S754_infinity true => "-Inf"
  | S754_zero s => fmtF s 0 prec
  | S754_finite s m e =>
      let p := 10 ^ Z.of_nat prec in
      let q := if 0 <=? e then Zpos m * 2 ^ e * p
               else roundHalfEven (Zpos m * p) (2 ^ (- e)) in
      fmtF s q prec
  end.

End ftoa.

Import itoa ftoa.

(** ** The configuration and the target *)

(** Modelled from the spec: the type IPMIConfig, "a resolved set of
    connection options (credentials, privilege level, interface, timeout,
    enabled collector list)", is declared outside collector.go.  Its
    fields are those collector.go reads, at the types it uses them with:
    strings, an int64 for the timeout, a slice of strings for the
    collectors. *)
Record IPMIConfig : Type := mkIPMIConfig {
  User : string;
  Password : string;
  Privilege : string;
  Interface : string; Timeout : Z;
  Collectors : list string
}.

(** lines 697-700 *)
Record ipmiTarget : Type := mkIpmiTarget { host : string; config : IPMIConfig }.

Definition targetLocal : string := "".

(** lines 1603-1605 *)
Definition targetIsLocal (target : string) : bool := String.eqb target targetLocal.

(** lines 1596-1601 *)
Definition targetName (target : string) : string :=
  if targetIsLocal target then "[local]" else target.

(** First generation, lines 211-226. *)
Module Gen1Tool.

Definition ipmitoolConfig (config : IPMIConfig) : list string :=
  let args := [] in
  let args := if negb (String.eqb (Privilege config) "")
              then (args ++ ["-L"; Privilege config])%list else args in
  let args := if negb (String.eqb (User config) "")
              then (args ++ ["-U"; User config])%list else args in
  let args := if negb (String.eqb (Password config) "")
              then (args ++ ["-P"; Password config])%list else args in
  let args := if negb (Timeout config =? 0)
              then (args ++ ["-N"; FormatInt (Timeout config) 36])%list else args in
  args.

End Gen1Tool.

(** ** Samples, log lines and the trace of a scrape *)

(** The descriptors of the second generation that the sensor collector
    does not use (lines 746-870). *)
Inductive infoDesc : Type :=
| chassisPowerStateDesc
| powerConsumptionDesc
| fwumInfo
| bmcInfo
| fruInfo
| lanInfo
| upDesc
| durationDesc.

Definition descriptor : Type := (Desc + infoDesc)%type.

(** The label names each descriptor is declared with (lines 702-870). *)
Definition variableLabels (d : descriptor) : list string :=
  match d with
  | inl sensorStateDesc | inl sensorValueDesc => ["name"; "type"]
  | inl _ => ["name"]
  | inr chassisPowerStateDesc | inr powerConsumptionDesc => ["name"]
  | inr fwumInfo => ["firmware_revision"; "manufacturer_id"]
  | inr bmcInfo | inr fruInfo | inr lanInfo => ["name"; "value"]
  | inr upDesc => ["collector"]
  | inr durationDesc => []
  end.

(** The arguments of a call of [prometheus.MustNewConstMetric]. *)
Record sample : Type := mkSample {
  sampleDesc : descriptor;
  sampleValue : float64;
  sampleLabels : list string
}.

Definition ofMetric (m : Metric) : sample :=
  mkSample (inl (desc m)) (metricValue m) (labelValues m).

(** A call of [log.Debugf] or of [log.Errorf]. *)
Inductive logEntry : Type :=
| Debugf (format : string) (args : list string)
| AtError (l : logLine).

(** What a scrape does to the world, in order: it runs ipmitool with
    arguments, writes a log line, sends a metric on the channel. *)
Inductive event : Type :=
| Exec (args : list string)
| Log (l : logEntry)
| Send (s : sample).

(** How a call ends other than by returning: a run-time panic of a
    parser, or the panic of [MustNewConstMetric] when [NewConstMetric]
    refuses the label values. *)
Inductive crash : Type :=
| Panic (p : panic)
| MustPanic (s : sample).

(** A computation of the collector: from the trace so far to the trace
    after it, with its result or the panic that ended it. *)
Definition io (A : Type) : Type := list event -> list event * (A + crash).

Definition ret {A : Type} (a : A) : io A := fun t => (t, inl a).

Definition bindIO {A B : Type} (c : io A) (k : A -> io B) : io B :=
  fun t =>
    match c t with
    | (t', inl a) => k a t'
    | (t', inr p) => (t', inr p)
    end.

Notation "x <~ c ;; k" := (bindIO c (fun x => k))
  (at level 61, c at next level, right associativity).

Notation "c ;;; k" := (bindIO c (fun _ => k))
  (at level 61, right associativity).

Definition emit (e : event) : io unit := fun t => ((t ++ [e])%list, inl tt).

Definition logDebugf (format : string) (args : list string) : io unit :=
  emit (Log (Debugf format args)).

Definition logErrorf (format : string) (args : list string) : io unit :=
  emit (Log (AtError (Errorf format args))).

(** A parser called from a collector: its run-time panic ends the
    collector. *)
Definition call {A : Type} (c : go A) : io A :=
  fun t =>
    match c with
    | Ret a => (t, inl a)
    | Fault p => (t, inr (Panic p))
    end.

Fixpoint forEach {A : Type} (body : A -> io unit) (l : list A) : io unit :=
  match l with
  | [] => ret tt
  | a :: l' => body a ;;; forEach body l'
  end.

(** ** Second generation, lines 872-942 and 1287-1605 *)

Module Exporter.

(** lines 872-890 *)
Definition ipmitoolConfig (config : IPMIConfig) : list string :=
  let args := [] in
  let args := if negb (String.eqb (Interface config) "")
              then (args ++ ["-I"; Interface config])%list else args in
  let args := if negb (String.eqb (Privilege config) "")
              then (args ++ ["-L"; Privilege config])%list else args in
  let args := if negb (String.eqb (User config) "")
              then (args ++ ["-U"; User config])%list else args in
  let args := if negb (String.eqb (Password config) "")
              then (args ++ ["-P"; Password config])%list else args in
  let args := if negb (Timeout config =? 0)
              then (args ++ ["-N"; FormatInt (Timeout config) 10])%list else args in
  args.

(** lines 691-695; the field [config *SafeConfig] is read only through
    [ConfigForTarget], below. *)
Record collector : Type := mkCollector { target : string; module : string }.

Section Scrape.

(** The world of a scrape.  [cmdRun] is [exec.Command("ipmitool",
    args...).Run()] with the standard output and the standard error in one
    buffer: the text and the error, which may depend on all that happened
    before.  [exitStatus] is the status of an [*exec.ExitError],
    [errorText] and [cmdText] are the texts "%s" gives for an error and for
    the command.  [validLabel] is the test of [NewConstMetric] on a label
    value: [utf8.ValidString] in the versions of the client library that
    check the encoding, constantly true in the older ones.  [since] is
    [time.Since(start).Seconds()] at the end of the scrape.
    [ConfigForTarget] is the method of [SafeConfig], declared outside
    collector.go. *)
Context {execError : Type}.
Variable cmdRun : list event -> list string -> string * option execError.
Variable exitStatus : execError -> option Z.
Variable errorText : collectError execError -> string.
Variable cmdText : list string -> string.
Variable validLabel : string -> bool.
Variable since : list event -> float64.
Variable ConfigForTarget : string -> string -> IPMIConfig.

Definition result : Type := (Z * option (collectError execError))%type.

(** [ch <- prometheus.MustNewConstMetric(desc, prometheus.GaugeValue,
    value, labelValues...)]: [NewConstMetric] wants as many label values as
    the descriptor has label names, each of them valid. *)
Definition send (desc : descriptor) (value : float64) (labelValues : list string) : io unit :=
  let s := mkSample desc value labelValues in
  if (Nat.eqb (List.length labelValues) (List.length (variableLabels desc)))
     && forallb validLabel labelValues
  then emit (Send s)
  else fun t => (t, inr (MustPanic s)).

Definition exec (args : list string) : io (string * option execError) :=
  fun t => ((t ++ [Exec args])%list, inl (cmdRun t args)).

(** lines 892-942 *)
Definition ipmitoolOutput (target : ipmiTarget) (command : string)
  : io (string * option execError) :=
  let cmdConfig := ipmitoolConfig (config target) in
  cmdCommand <~
    (if String.eqb command "sensor" then ret ["sensor"; "list"]
     else if String.eqb command "fru" then ret ["fru"; "list"]
     else if String.eqb command "power" then ret ["power"; "status"]
     else if String.eqb command "fwum" then ret ["fwum"; "info"]
     else if String.eqb command "bmc" then ret ["bmc"; "info"]
     else if String.eqb command "lan" then ret ["lan"; "print"]
     else if String.eqb command "dcmi-power" then ret ["dcmi"; "power"; "reading"; "1_min"]
     else logErrorf "Unknown ipmitool command: '%s'\n" [command] ;;; ret [""]) ;;
  let cmdConfig := if negb (String.eqb (host target) "")
                   then (cmdConfig ++ ["-H"; host target])%list else cmdConfig in
  let cmdConfig := (cmdConfig ++ cmdCommand)%list in
  r <~ exec cmdConfig ;;
  match snd r with
  | Some err =>
      if String.eqb command "fwum" then
        match exitStatus err with
        | Some status =>
            logDebugf "Exit status of FWUM %d, but it was suppressed" [FormatInt status 10]
        | None => ret tt
        end
      else logErrorf "Error while calling %s for %s: %s"
                     [command; targetName (host target); cmdText ("ipmitool" :: cmdConfig)]
  | None => ret tt
  end ;;;
  ret r.

(** The body of the loop of collectSensorMonitoring (lines 1330-1385):
    the log line of an unknown state before the samples of the record. *)
Definition sendSensor (data : sensorData) : io unit :=
  let '(state, l) := Gen2.sensorState data in
  forEach (fun line => emit (Log (AtError line))) l ;;;
  forEach (fun m => send (inl (desc m)) (metricValue m) (labelValues m))
          (Gen2.sensorMetrics state data).

(** lines 1319-1387 *)
Definition collectSensorMonitoring (target : ipmiTarget) : io result :=
  r <~ ipmitoolOutput target "sensor" ;;
  match snd r with
  | Some err =>
      logErrorf "Failed to collect ipmitool sensor data from %s: %s"
                [targetName (host target); errorText (ExecError err)] ;;;
      ret (0, Some (ExecError err))
  | None =>
      p <~ call (Gen2.splitSensorOutput (fst r)) ;;
      match snd p with
      | Some err =>
          logErrorf "Failed to parse ipmitool sensor data from %s: %s"
                    [targetName (host target); errorText (ParseError err)] ;;;
          ret (0, Some (ParseError err))
      | None => forEach sendSensor (fst p) ;;; ret (1, None)
      end
  end.

Definition one : float64 := float64_of_uint64 1.

(** lines 1389-1410 *)
Definition collectFRUInfo (target : ipmiTarget) : io result :=
  r <~ ipmitoolOutput target "fru" ;;
  match snd r with
  | Some err =>
      logDebugf "Failed to collect ipmitool fru data from %s: %s"
                [targetName (host target); errorText (ExecError err)] ;;;
      ret (0, Some (ExecError err))
  | None =>
      p <~ call (Gen2.splitFruOutput (fst r)) ;;
      match snd p with
      | Some err =>
          logErrorf "Failed to parse ipmitool fru data from %s: %s"
                    [targetName (host target); errorText (ParseError err)] ;;;
          ret (0, Some (ParseError err))
      | None =>
          forEach (fun data => send (inr fruInfo) one [fru_Name data; fru_Value data]) (fst p) ;;;
          ret (1, None)
      end
  end.

(** lines 1412-1433 *)
Definition collectLANInfo (target : ipmiTarget) : io result :=
  r <~ ipmitoolOutput target "lan" ;;
  match snd r with
  | Some err =>
      logDebugf "Failed to collect ipmitool lan data from %s: %s"
                [targetName (host target); errorText (ExecError err)] ;;;
      ret (0, Some (ExecError err))
  | None =>
      p <~ call (Gen2.splitLANOutput (fst r)) ;;
      match snd p with
      | Some err =>
          logErrorf "Failed to parse ipmitool lan data from %s: %s"
                    [targetName (host target); errorText (ParseError err)] ;;;
          ret (0, Some (ParseError err))
      | None =>
          forEach (fun data => send (inr lanInfo) one [lan_Name data; lan_Value data]) (fst p) ;;;
          ret (1, None)
      end
  end.

(** lines 1435-1456 *)
Definition collectBmcInfo (target : ipmiTarget) : io result :=
  r <~ ipmitoolOutput target "bmc" ;;
  match snd r with
  | Some err =>
      logDebugf "Failed to collect ipmtool bmc data from %s: %s"
                [targetName (host target); errorText (ExecError err)] ;;;
      ret (0, Some (ExecError err))
  | None =>
      p <~ call (Gen2.splitBmcOutput (fst r)) ;;
      match snd p with
      | Some err =>
          logErrorf "Failed to collect ipmtool bmc data from %s: %s"
                    [targetName (host target); errorText (ParseError err)] ;;;
          ret (0, Some (ParseError err))
      | None =>
          forEach (fun data => send (inr bmcInfo) one [bmc_Name data; bmc_Value data]) (fst p) ;;;
          ret (1, None)
      end
  end.

(** lines 1458-1479 *)
Definition collectDcmiPowerInfo (target : ipmiTarget) : io result :=
  r <~ ipmitoolOutput target "dcmi-power" ;;
  match snd r with
  | Some err =>
      logDebugf "Failed to collect ipmtool dcmi power data from %s: %s"
                [targetName (host target); errorText (ExecError err)] ;;;
      ret (0, Some (ExecError err))
  | None =>
      p <~ call (Gen2.splitDcmiPowerOutput (fst r)) ;;
      match snd p with
      | Some err =>
          logErrorf "Failed to collect ipmtool dcmi power data from %s: %s"
                    [targetName (host target); errorText (ParseError err)] ;;;
          ret (0, Some (ParseError err))
      | None =>
          forEach (fun data => send (inr powerConsumptionDesc) (dcmi_Value data) [dcmi_Name data]) (fst p) ;;;
          ret (1, None)
      end
  end.

(** The loop of collectFwumInfo (lines 1496-1503): the texts of the last
    "FirmwareRevision" and of the last "ManufacturerId". *)
Fixpoint fwumLabels (results : list fwumData) (firmwareRevision manufacturerID : string)
  : string * string :=
  match results with
  | [] => (firmwareRevision, manufacturerID)
  | data :: rest =>
      if String.eqb (fwum_Name data) "FirmwareRevision"
      then fwumLabels rest (FormatFloat (fwum_Value data) 6) manufacturerID
      else if String.eqb (fwum_Name data) "ManufacturerId"
      then fwumLabels rest firmwareRevision (FormatFloat (fwum_Value data) 6)
      else fwumLabels rest firmwareRevision manufacturerID
  end.

(** lines 1481-1511 *)
Definition collectFwumInfo (target : ipmiTarget) : io result :=
  r <~ ipmitoolOutput target "fwum" ;;
  p <~ call (Gen2.splitFwumOutput (fst r)) ;;
  match snd p with
  | Some err =>
      logErrorf "Failed to collect ipmtool fwum data from %s: %s"
                [targetName (host target); errorText (ParseError err)] ;;;
      ret (0, Some (ParseError err))
  | None =>
      let '(firmwareRevision, manufacturerID) := fwumLabels (fst p) "" "" in
      send (inr fwumInfo) one [firmwareRevision; manufacturerID] ;;;
      ret (1, None)
  end.

(** lines 1513-1531 *)
Definition collectPowerState (target : ipmiTarget) : io result :=
  r <~ ipmitoolOutput target "power" ;;
  match snd r with
  | Some err =>
      logDebugf "Failed to collect ipmtool power data from %s: %s"
                [targetName (host target); errorText (ExecError err)] ;;;
      ret (0, Some (ExecError err))
  | None =>
      p <~ call (Gen2.getChassisPowerState (fst r)) ;;
      match snd p with
      | Some err =>
          logErrorf "Failed to collect ipmtool power data from %s: %s"
                    [targetName (host target); errorText (ParseError err)] ;;;
          ret (0, Some (ParseError err))
      | None =>
          send (inr chassisPowerStateDesc) (float64_of_uint64 (fst p)) ["PowerState"] ;;;
          ret (1, None)
      end
  end.

(** lines 1533-1540; [up] is 0 or 1. *)
Definition markCollectorUp (name : string) (up : Z) : io unit :=
  send (inr upDesc) (float64_of_uint64 up) [name].

(** The body of the loop of Collect (lines 1561-1579). *)
Definition runCollector (target : ipmiTarget) (collector : string) : io unit :=
  logDebugf "Running collector: %s" [collector] ;;;
  up <~
    (if String.eqb collector "sensor" then r <~ collectSensorMonitoring target ;; ret (fst r)
     else if String.eqb collector "fru" then r <~ collectFRUInfo target ;; ret (fst r)
     else if String.eqb collector "lan" then r <~ collectLANInfo target ;; ret (fst r)
     else if String.eqb collector "bmc" then r <~ collectBmcInfo target ;; ret (fst r)
     else if String.eqb collector "fwum" then r <~ collectFwumInfo target ;; ret (fst r)
     else if String.eqb collector "dcmi-power"
     then r <~ collectDcmiPowerInfo target ;; ret (fst r)
     else ret 0) ;;
  markCollectorUp collector up.

(** The statements of Collect after its [defer] (lines 1555-1580). *)
Definition collectAll (c : collector) : io unit :=
  let config := ConfigForTarget (target c) (module c) in
  let target := mkIpmiTarget (target c) config in
  forEach (runCollector target) (Collectors config) ;;;
  collectPowerState target ;;;
  ret tt.

(** The deferred function of Collect (lines 1545-1553); it runs when the
    body returns and when it panics. *)
Definition scrapeDuration (c : collector) : io unit :=
  fun t =>
    let duration := since t in
    (logDebugf "Scrape of target %s took %f seconds."
               [targetName (target c); FormatFloat duration 6] ;;;
     send (inr durationDesc) duration []) t.

(** lines 1543-1581 *)
Definition Collect (c : collector) : io unit :=
  fun t =>
    match collectAll c t with
    | (t', inl _) => scrapeDuration c t'
    | (t', inr p) =>
        match scrapeDuration c t' with
        | (t'', inl _) => (t'', inr p)
        | (t'', inr p') => (t'', inr p')
        end
    end.

(** The shape collectFRUInfo, collectLANInfo, collectBmcInfo and
    collectDcmiPowerInfo share: the command, its parser, one sample for
    each record. *)
Definition collectInfo {T : Type} (command : string) (failed parseFailed : string)
           (parse : string -> go (list T * error)) (sendRecord : T -> io unit)
           (target : ipmiTarget) : io result :=
  r <~ ipmitoolOutput target command ;;
  match snd r with
  | Some err =>
      logDebugf failed [targetName (host target); errorText (ExecError err)] ;;;
      ret (0, Some (ExecError err))
  | None =>
      p <~ call (parse (fst r)) ;;
      match snd p with
      | Some err =>
          logErrorf parseFailed [targetName (host target); errorText (ParseError err)] ;;;
          ret (0, Some (ParseError err))
      | None => forEach sendRecord (fst p) ;;; ret (1, None)
      end
  end.

End Scrape.

End Exporter.

(** * Vocabulary of the properties *)

(** ** Inputs: those of the repository's tests and a DCMI reading *)

Definition unlines (l : list string) : string := String.concat bufio.newline l.

Definition collSensorOutput : string :=
  unlines
    ["CPU1 Temp        | 31.000     | degrees C  | ok    | 0.000     | 0.000     | 0.000     | 90.000    | 95.000    | 95.000";
     "P1-DIMMA2 Temp   | na         |            | na    | na        | na        | na        | na        | na        | na";
     "Chassis Intru    | 0x0        | discrete   | 0x0000| na        | na        | na        | na        | na        | na"].

Definition collFwumOutput : string :=
  unlines
    ["FWUM extension Version 1.3";
     "";
     "IPMC Info";
     "=========";
     "Manufacturer Id           : 10876";
     "Board Id                  : 2130";
     "Firmware Revision         : 3.76"].

Definition collFruOutput : string :=
  unlines
    ["FRU Device Description : Builtin FRU Device (ID 0)";
     "Chassis Type          : Other";
     "Board Mfg Date        : Mon Jan  1 03:00:00 1996";
     " Board Mfg Date       : Mon Jan  1 03:00:00 1996";
     "Product Part Number   : SYS-7048GR-TR"].


(** ** The classifier *)

(** The state codes collectSensorMonitoring names. *)
Definition knownStates : list string :=
  ["ok"; "cr"; "nr"; "nc"; "ns"; "0x0000"; "0x0100"; "na"].

(** The units collectSensorMonitoring names. *)
Definition namedUnits : list string :=
  ["RPM"; "degrees C"; "Ampers"; "Volts"; "Watts"; "discrete"].

(** ** Records, line by line *)

(** The loop state a step leaves. *)
Definition after {T : Type} (c : step (list T * error) (list T * error)) : list T * error :=
  match c with
  | Next s | Break s | Return s => s
  end.

(** What one line adds to the result: what the body appends to an empty
    result. *)
Definition emits {T : Type}
           (body : list T * error -> string -> go (step (list T * error) (list T * error)))
           (line : string) : list T :=
  match body ([], None) line with
  | Ret c => fst (after c)
  | Fault _ => []
  end.

(** The results with which a loop ended, by its end, a [break] or a
    [return]. *)
Definition outcome {T : Type} (r : (list T * error) + (list T * error)) : list T * error :=
  match r with
  | inl st | inr st => st
  end.


(** A parser on which an empty line leaves no trace. *)
Definition skipsEmptyLines {T : Type} (parse : string -> go (list T * error)) : Prop :=
  forall (output output' : string) (pre post : list string),
    bufio.Lines output = (pre ++ "" :: post)%list ->
    bufio.Lines output' = (pre ++ post)%list ->
    parse output = parse output'.

(** A parser whose records are what its lines add, in the order of the
    lines, each line adding at most one record. *)
Definition inLineOrder {T : Type}
           (body : list T * error -> string -> go (step (list T * error) (list T * error)))
           (parse : string -> go (list T * error)) : Prop :=
  (forall line, (List.length (emits body line) <= 1)%nat)
  /\ forall (output : string) (recs : list T) (err : error),
      parse output = Ret (recs, err) ->
      exists n, recs = flat_map (emits body) (firstn n (bufio.Lines output)).

(** ** The fields of a sensor line and of a firmware line *)

Definition sensorFields (line : string) : list string :=
  strings.Split (strings.ReplaceAll line " " "") "|".

Definition valueField (line : string) : string := nth 1 (sensorFields line) "".

Definition fwumFields (line : string) : list string :=
  strings.Split (strings.ReplaceAll line " " "") ":".

(** The texts ParseFloat reads as not-a-number: "nan" in any letter case. *)
Definition spellsNaN (s : string) : bool :=
  (len s =? 3) && (commonPrefixLenIgnoreCase s "nan" =? 3).


(** A firmware line with a colon whose second field is not a float. *)
Definition fwumConversionError (line : string) : bool :=
  match FindStringSubmatch colonRegex (strings.ReplaceAll line " " "") with
  | Some _ => negb (isNil (snd (ParseFloat64 (nth 1 (fwumFields line) ""))))
  | None => false
  end.

(** ** Hexadecimal literals, as the spec reads them *)

(** A hexadecimal digit, in either case. *)
Definition isHexDigit (c : ascii) : bool :=
  between "0" c "9" || between "a" (lower c) "f".

Fixpoint hexDigits (ds : string) : bool :=
  match ds with
  | EmptyString => true
  | String c ds' => isHexDigit c && hexDigits ds'
  end.

Definition hexDigitValue (c : ascii) : Z :=
  if between "0" c "9" then byte c - byte "0" else byte (lower c) - byte "a" + 10.

(** The unsigned integer a string of hexadecimal digits denotes, most
    significant digit first, continuing from [acc]. *)
Fixpoint hexValue (ds : string) (acc : Z) : Z :=
  match ds with
  | EmptyString => acc
  | String c ds' => hexValue ds' (acc * 16 + hexDigitValue c)
  end.

(** An integer with at most 53 significant bits: below 2^53, or a multiple
    of 2^(n - 53) where n is its length in bits. *)
Definition fits53 (u : Z) : bool :=
  u mod 2 ^ Z.max 0 (Z.log2 u - 52) =? 0.

(** ** Matches of the patterns *)

(** The line after its leading white space. *)
Fixpoint skipSpace (s : string) : string :=
  match s with
  | String c s' => if space c then skipSpace s' else s
  | EmptyString => s
  end.

(** Whether a pattern matches a line. *)
Definition matched (r : Regexp) (line : string) : bool :=
  match FindStringSubmatch r line with Some _ => true | None => false end.


(** What one of the four blocks of splitDcmiPowerOutput adds for a line. *)
Definition dcmiAdded (re : Regexp) (label : string) (line : string) : list dcmiPowerData :=
  match FindStringSubmatch re line with
  | Some m =>
      let '(value, err) := ParseFloat64 (nth 1 m "") in
      if isNil err then [mkDcmiPowerData label value] else []
  | None => []
  end.

Definition dcmiLineRecords (line : string) : list dcmiPowerData :=
  if 0 <? len line then
    (dcmiAdded dcmiAvgPowerRegex "Avg power consumption" line
     ++ dcmiAdded dcmiMinPowerRegex "Min power consumption" line
     ++ dcmiAdded dcmiMaxPowerRegex "Max power consumption" line
     ++ dcmiAdded dcmiInstaPowerRegex "Instantaneous power consumption" line)%list
  else [].

(** How many of the four DCMI patterns match a line. *)
Definition dcmiMatches (line : string) : nat :=
  (Nat.b2n (matched dcmiAvgPowerRegex line) + Nat.b2n (matched dcmiMinPowerRegex line)
   + Nat.b2n (matched dcmiMaxPowerRegex line) + Nat.b2n (matched dcmiInstaPowerRegex line))%nat.

(** A line of getChassisPowerState on which the loop goes on: it is empty,
    or the pattern matches it with a value other than "on". *)
Definition powerLineNotOn (line : string) : Prop :=
  line = ""
  \/ exists m, FindStringSubmatch ipmiCurrentPowerRegex line = Some m /\ nth 1 m "" <> "on".

(** ** Lines on which a parser goes on *)

(** A sensor line that reaches ParseFloat: it is not empty, has a value
    field that is not "na", and ParseUint rejects that field. *)
Definition sensorFloatLine (line : string) : bool :=
  (0 <? len line)
  && (2 <=? Z.of_nat (List.length (sensorFields line)))
  && negb (String.eqb (valueField line) "na")
  && negb (isNil (snd (ParseUint (valueField line) 0 64))).


(** A FRU line past which the loop of splitFruOutput goes: an empty line,
    a line the board-date pattern matches, or a line with a colon. *)
Definition fruLineReturns (line : string) : bool :=
  negb (0 <? len line)
  || matched fruBoardDateRegex line
  || (2 <=? Z.of_nat (List.length (fwumFields line))).

(** The error splitSensorOutput is left with after these lines: that of
    the last call of ParseFloat. *)
Fixpoint lastFloatError (lines : list string) (err : error) : error :=
  match lines with
  | [] => err
  | line :: rest =>
      lastFloatError rest
        (if sensorFloatLine line then snd (ParseFloat64 (valueField line)) else err)
  end.

(** A line that reports the chassis power as on. *)
Definition powerLineOn (line : string) : Prop :=
  exists m, FindStringSubmatch ipmiCurrentPowerRegex line = Some m /\ nth 1 m "" = "on".

(** ** Loops that stop at a line *)

(** The lines up to the first one at which the loop stops, that one
    included. *)
Fixpoint upTo (stop : string -> bool) (lines : list string) : list string :=
  match lines with
  | [] => []
  | line :: rest => if stop line then [line] else line :: upTo stop rest
  end.

(** The record a line of "bmc info" gives: that of the first of the three
    patterns that matches it. *)
Definition bmcLineRecords (line : string) : list bmcData :=
  match FindStringSubmatch firmwareRevRegex line with
  | Some m => [mkBmcData "FirmwareRevision" (nth 1 m "")]
  | None =>
  match FindStringSubmatch ipmiVersionRegex line with
  | Some m => [mkBmcData "IPMIVersion" (nth 1 m "")]
  | None =>
  match FindStringSubmatch manufacturerRegex line with
  | Some m => [mkBmcData "Manufacturer" (nth 1 m "")]
  | None => []
  end end end.


(** The record a line of "fwum info" gives when the loop goes past it. *)
Definition fwumLineRecord (line : string) : fwumData :=
  match FindStringSubmatch colonRegex (strings.ReplaceAll line " " "") with
  | Some _ =>
      mkFwumData (nth 0 (fwumFields line) "") (fst (ParseFloat64 (nth 1 (fwumFields line) "")))
  | None => mkFwumData "" (S754_zero false)
  end.

(** The lines before the first one that satisfies [stop]. *)
Fixpoint before (stop : string -> bool) (lines : list string) : list string :=
  match lines with
  | [] => []
  | line :: rest => if stop line then [] else line :: before stop rest
  end.

(** The error of the first line that satisfies [fwumConversionError]. *)
Fixpoint firstFwumError (lines : list string) : error :=
  match lines with
  | [] => None
  | line :: rest =>
      if fwumConversionError line then snd (ParseFloat64 (nth 1 (fwumFields line) ""))
      else firstFwumError rest
  end.

(** ** Fields, byte by byte *)

(** The pieces of [s] between the occurrences of the byte [c]. *)
Fixpoint splitChar (c : ascii) (s : string) : list string :=
  match s with
  | EmptyString => [EmptyString]
  | String x s' =>
      if Ascii.eqb x c then EmptyString :: splitChar c s'
      else match splitChar c s' with
           | p :: ps => String x p :: ps
           | [] => [String x EmptyString]
           end
  end.

(** [s] without the byte [c]. *)
Fixpoint without (c : ascii) (s : string) : string :=
  match s with
  | EmptyString => EmptyString
  | String x s' => if Ascii.eqb x c then without c s' else String x (without c s')
  end.

(** Whether the byte [c] occurs in [s]. *)
Fixpoint has (c : ascii) (s : string) : bool :=
  match s with
  | EmptyString => false
  | String x s' => Ascii.eqb x c || has c s'
  end.

(** The metrics a call sent, none if it faulted. *)
Definition sentBy {E : Type} (c : go (collected E)) : list Metric :=
  match c with
  | Ret r => sent r
  | Fault _ => []
  end.

(** ** Octal literals *)

Fixpoint octalDigits (ds : string) : bool :=
  match ds with
  | EmptyString => true
  | String c ds' => between "0" c "7" && octalDigits ds'
  end.

(** The unsigned integer a string of octal digits denotes, most
    significant digit first, continuing from [acc]. *)
Fixpoint octalValue (ds : string) (acc : Z) : Z :=
  match ds with
  | EmptyString => acc
  | String c ds' => octalValue ds' (acc * 8 + (byte c - byte "0"))
  end.

(** ** The trace of a scrape *)

(** The names Collect has a collector for. *)
Definition knownCollectors : list string :=
  ["sensor"; "fru"; "lan"; "bmc"; "fwum"; "dcmi-power"].

Definition isUp (s : sample) : bool :=
  match sampleDesc s with inr upDesc => true | _ => false end.

Definition isDuration (s : sample) : bool :=
  match sampleDesc s with inr durationDesc => true | _ => false end.

(** The samples of the "up" descriptor in a trace, in order. *)
Definition upsOf (t : list event) : list sample :=
  flat_map (fun e => match e with
                     | Send s => if isUp s then [s] else []
                     | _ => []
                     end) t.

(** An event of the collectors proper: not a sample of "up", not one of
    the scrape duration. *)
Definition ofCollector (e : event) : Prop :=
  match e with
  | Send s => isUp s = false /\ isDuration s = false
  | _ => True
  end.

(** A sample with as many label values as its descriptor has names. *)
Definition arityOK (s : sample) : bool :=
  Nat.eqb (List.length (sampleLabels s)) (List.length (variableLabels (sampleDesc s))).

(** The "up" sample of a collector: its name as label, 0 or 1 as value,
    0 when Collect has no collector of that name. *)
Definition upFor (name : string) (s : sample) : Prop :=
  sampleDesc s = inr upDesc
  /\ sampleLabels s = [name]
  /\ (sampleValue s = float64_of_uint64 0 \/ sampleValue s = float64_of_uint64 1)
  /\ (~ In name knownCollectors -> sampleValue s = float64_of_uint64 0).

(** What a computation does from every trace: it extends the trace by
    events that satisfy [Q], and ends with a result that satisfies [R] or a
    panic that satisfies [C]. *)
Definition does {A : Type} (c : io A) (Q : event -> Prop) (R : A -> Prop) (C : crash -> Prop)
  : Prop :=
  forall t, exists new,
    fst (c t) = (t ++ new)%list
    /\ Forall Q new
    /\ match snd (c t) with
       | inl a => R a
       | inr p => C p
       end.

(** A panic that does not come from the number of label values: a panic
    of a parser, or [MustNewConstMetric] on a label value that is not
    valid. *)
Definition notByArity (validLabel : string -> bool) (p : crash) : Prop :=
  match p with
  | Panic _ => True
  | MustPanic s => arityOK s = true /\ forallb validLabel (sampleLabels s) = false
  end.

(** The result of a collector: 1 and no error, or 0 and an error. *)
Definition upOrError {E : Type} (r : Z * option (collectError E)) : Prop :=
  (fst r = 1 /\ snd r = None) \/ (fst r = 0 /\ snd r <> None).

(** An event other than the sample of the scrape duration. *)
Definition notDuration (e : event) : Prop :=
  match e with
  | Send s => isDuration s = false
  | _ => True
  end.

(** The samples of a trace, its lines logged as errors and the commands
    it ran, in order. *)
Definition sendsOf (t : list event) : list sample :=
  flat_map (fun e => match e with Send s => [s] | _ => [] end) t.

Definition errorsOf (t : list event) : list logLine :=
  flat_map (fun e => match e with Log (AtError l) => [l] | _ => [] end) t.

Definition execsOf (t : list event) : list (list string) :=
  flat_map (fun e => match e with Exec args => [args] | _ => [] end) t.

(** ** A scrape on an example *)

(** A host that answers "bmc info" and "power status" and fails on every
    other command with exit status 1. *)
Definition exampleRun (t : list event) (args : list string) : string * option Z :=
  if existsb (String.eqb "bmc") args
  then (unlines ["Firmware Revision         : 3.76";
                 "IPMI Version              : 2.0";
                 "Manufacturer Name         : Supermicro";
                 "Product Name              : unknown"], None)
  else if existsb (String.eqb "power") args then ("Chassis Power is on", None)
  else ("", Some 1).

Definition exampleConfig (target module : string) : IPMIConfig :=
  mkIPMIConfig "admin" "secret" "USER" "lanplus" 20 ["bmc"; "sel"; "fru"].

Definition exampleScrape : list event * (unit + crash) :=
  Exporter.Collect exampleRun (fun status => Some status) (fun _ => "exit status 1")
                   (String.concat " ") (fun _ => true) (fun _ => float64_of_uint64 2)
                   exampleConfig (Exporter.mkCollector "10.0.0.1" "default") [].

(** A host that answers every command with the sensor listing of the
    repository's tests. *)
Definition sensorRun (t : list event) (args : list string) : string * option Z :=
  (collSensorOutput, None).

Definition exampleTarget : ipmiTarget := mkIpmiTarget "10.0.0.1" (exampleConfig "" "").

(** ** Proof steps *)

(** Case analysis along the body of a loop. *)
Ltac along H :=
  repeat match type of H with
         | Ret _ = Ret _ => inversion H; subst; clear H
         | Fault _ = Ret _ => discriminate H
         | context [if ?b then _ else _] => destruct b eqn:?
         | context [match ?x with _ => _ end] => destruct x eqn:?
         | context [bind ?c _] =>
             lazymatch c with
             | context [bind _ _] => fail
             | _ => destruct c eqn:?; cbn [bind] in *
             end
         end.

(** What [Ret] equations in the context say. *)
Ltac returned :=
  repeat match goal with
         | E : Ret _ = Ret _ |- _ => inversion E; subst; clear E
         | E : Fault _ = Ret _ |- _ => discriminate E
         end.

(** * Examples and properties *)

(** ** The library models on examples *)

Example Lines_ex1 :
  bufio.Lines (String "a" (String "010" (String "013" (String "010" "b c"))))
  = ["a"; ""; "b c"].
Proof. reflexivity. Qed.

Example Split_ex1 : strings.Split "a|b||c" "|" = ["a"; "b"; ""; "c"].
Proof. reflexivity. Qed.

Example ReplaceAll_ex1 : strings.ReplaceAll " CPU1 Temp  | 31 " " " "" = "CPU1Temp|31".
Proof. reflexivity. Qed.

Example ParseUint_hex : strconv.ParseUint "0x0100" 0 64 = (256, None).
Proof. reflexivity. Qed.

Example ParseUint_na : snd (strconv.ParseUint "na" 0 64) = strconv.syntaxError "ParseUint" "na".
Proof. reflexivity. Qed.

Example ParseUint_decimal_point : snd (strconv.ParseUint "31.000" 0 64) = strconv.syntaxError "ParseUint" "31.000".
Proof. reflexivity. Qed.

Example ParseUint_range :
  strconv.ParseUint "0x10000000000000000" 0 64
  = (2 ^ 64 - 1, strconv.rangeError "ParseUint" "0x10000000000000000").
Proof. reflexivity. Qed.

Example ParseUint_max : strconv.ParseUint "0xffffffffffffffff" 0 64 = (2 ^ 64 - 1, None).
Proof. reflexivity. Qed.

Example ParseUint_underscore : strconv.ParseUint "0x_1f" 0 64 = (31, None).
Proof. reflexivity. Qed.

Example roundFloat64_one : float64_of_uint64 1 = S754_finite false (2 ^ 52) (-52).
Proof. reflexivity. Qed.

Example roundFloat64_agrees_with_SpecFloat :
  forallb (fun u => SFeqb (float64_of_uint64 u) (binary_normalize 53 1024 u 0 false)
                    && valid_binary 53 1024 (float64_of_uint64 u))
          [1; 2; 3; 31; 256; 10876; 2 ^ 53 - 1; 2 ^ 53; 2 ^ 53 + 1; 2 ^ 53 + 2; 2 ^ 53 + 3;
           2 ^ 63 + 1024; 2 ^ 63 + 1025; 2 ^ 64 - 1; 10 ^ 23; 10 ^ 308]
  = true.
Proof. vm_compute. reflexivity. Qed.

Example roundFloat64_tenth :
  roundFloat64 false 1 10 = (S754_finite false 7205759403792794 (-56), false).
Proof. vm_compute. reflexivity. Qed.

Example roundFloat64_subnormal :
  roundFloat64 false 1 (10 ^ 320) = (S754_finite false 2024 (-1074), false).
Proof. vm_compute. reflexivity. Qed.

Example roundFloat64_overflow : roundFloat64 true (10 ^ 309) 1 = (S754_infinity true, true).
Proof. vm_compute. reflexivity. Qed.

Example ParseFloat_31 : atof.ParseFloat64 "31.000" = (float64_of_uint64 31, None).
Proof. vm_compute. reflexivity. Qed.

Example ParseFloat_10876 : atof.ParseFloat64 "10876" = (float64_of_uint64 10876, None).
Proof. vm_compute. reflexivity. Qed.

Example ParseFloat_3_76 :
  atof.ParseFloat64 "3.76" = (S754_finite false 8466767299456532 (-51), None).
Proof. vm_compute. reflexivity. Qed.

Example ParseFloat_neg_exp :
  atof.ParseFloat64 "-1.5e-1" = (S754_finite true 5404319552844595 (-55), None).
Proof. vm_compute. reflexivity. Qed.

Example ParseFloat_hex : atof.ParseFloat64 "0x1p-2" = (fst (roundFloat64 false 1 4), None).
Proof. vm_compute. reflexivity. Qed.

Example ParseFloat_hex_needs_exponent :
  atof.ParseFloat64 "0x10" = (S754_zero false, strconv.syntaxError "ParseFloat" "0x10").
Proof. vm_compute. reflexivity. Qed.

Example ParseFloat_nan : atof.ParseFloat64 "NaN" = (math.NaN, None).
Proof. vm_compute. reflexivity. Qed.

Example ParseFloat_signed_nan :
  atof.ParseFloat64 "+nan" = (S754_zero false, strconv.syntaxError "ParseFloat" "+nan").
Proof. vm_compute. reflexivity. Qed.

Example ParseFloat_inf : atof.ParseFloat64 "-Infinity" = (S754_infinity true, None).
Proof. vm_compute. reflexivity. Qed.

Example ParseFloat_range :
  atof.ParseFloat64 "1e400" = (S754_infinity false, strconv.rangeError "ParseFloat" "1e400").
Proof. vm_compute. reflexivity. Qed.

Example ParseFloat_empty :
  atof.ParseFloat64 "" = (S754_zero false, strconv.syntaxError "ParseFloat" "").
Proof. vm_compute. reflexivity. Qed.

Example ParseFloat_word :
  atof.ParseFloat64 "discrete" = (S754_zero false, strconv.syntaxError "ParseFloat" "discrete").
Proof. vm_compute. reflexivity. Qed.

Example power_on :
  FindStringSubmatch ipmiCurrentPowerRegex "Chassis Power is on" = Some ["Chassis Power is on"; "on"].
Proof. reflexivity. Qed.

Example power_off :
  FindStringSubmatch ipmiCurrentPowerRegex "Chassis Power is offff." = Some ["Chassis Power is offff"; "offff"].
Proof. reflexivity. Qed.

Example power_none : FindStringSubmatch ipmiCurrentPowerRegex "Chassis Power Control: Up/On" = None.
Proof. reflexivity. Qed.

Example dcmi_insta :
  FindStringSubmatch dcmiInstaPowerRegex "    Instantaneous power reading:                   220 Watts"
  = Some ["    Instantaneous power reading:                   220 Watts"; "220"].
Proof. reflexivity. Qed.

Example dcmi_backtrack :
  FindStringSubmatch dcmiInstaPowerRegex "Instantaneous power reading:  Watts 5 Watts."
  = Some ["Instantaneous power reading:  Watts 5 Watts"; "Watts 5"].
Proof. reflexivity. Qed.

Example dcmi_empty_value :
  FindStringSubmatch dcmiInstaPowerRegex "Instantaneous power reading:  Watts"
  = Some ["Instantaneous power reading:  Watts"; ""].
Proof. reflexivity. Qed.

Example fru_board_date :
  FindStringSubmatch fruBoardDateRegex " Board Mfg Date        : Mon Jan  1 03:00:00 1996"
  = Some [" Board Mfg Date        : Mon Jan  1 03:00:00 1996"; "Mon Jan  1 03:00:00 1996"].
Proof. reflexivity. Qed.

Example ps_status : fst (MatchString psStatusPattern "xPS1Statu") = true.
Proof. reflexivity. Qed.

(** ** The counters of [Split] and of the scanner are large enough *)

Lemma drop_length (k : nat) (s : string) :
  String.length (strings.drop k s) = (String.length s - k)%nat.
Proof.
  revert s. induction k as [|k IH]; intros [|c s]; cbn [strings.drop String.length Nat.sub]; auto.
Qed.

Lemma Index_empty (sep : string) : sep <> "" -> strings.Index "" sep = None.
Proof.
  intros H. destruct sep as [|c sep]; [contradiction|]. reflexivity.
Qed.

(** More cuts than the string has bytes change nothing. *)
Lemma genSplit_enough (sep : string) :
  sep <> "" ->
  forall (n m : nat) (s : string),
    (String.length s <= n)%nat -> (String.length s <= m)%nat ->
    strings.genSplit n s sep = strings.genSplit m s sep.
Proof.
  intros Hsep.
  assert (Hl : (1 <= String.length sep)%nat)
    by (destruct sep; [contradiction|cbn [String.length]; lia]).
  induction n as [|n IH]; intros m s Hn Hm.
  - destruct s; [|cbn [String.length] in Hn; lia].
    destruct m; cbn [strings.genSplit]; [reflexivity|]. now rewrite Index_empty.
  - destruct m as [|m].
    + destruct s; [|cbn [String.length] in Hm; lia].
      cbn [strings.genSplit]. now rewrite Index_empty.
    + cbn [strings.genSplit]. destruct (strings.Index s sep) as [i|] eqn:E; [|reflexivity].
      f_equal. assert (s <> "") by (intros ->; rewrite Index_empty in E; congruence).
      assert (1 <= String.length s)%nat by (destruct s; [contradiction|cbn [String.length]; lia]).
      apply IH; rewrite drop_length; lia.
Qed.

Lemma Split_enough (s sep : string) (n : nat) :
  sep <> "" -> (String.length s <= n)%nat -> strings.genSplit n s sep = strings.Split s sep.
Proof. intros Hsep Hn. unfold strings.Split. apply genSplit_enough; auto. Qed.

(** More calls of [Scan] than the input has bytes give no more lines. *)
Lemma scan_enough :
  forall (n m : nat) (data : string),
    (String.length data < n)%nat -> (String.length data < m)%nat ->
    bufio.scan n data = bufio.scan m data.
Proof.
  induction n as [|n IH]; intros m data Hn Hm; [lia|].
  destruct m as [|m]; [lia|]. cbn [bufio.scan].
  destruct (strings.Index data bufio.newline) as [i|] eqn:E; [|reflexivity].
  destruct (Z.of_nat i <? bufio.MaxScanTokenSize); [|reflexivity].
  f_equal.
  assert (1 <= String.length data)%nat.
  { destruct data; [discriminate E|cbn [String.length]; lia]. }
  apply IH; rewrite drop_length; lia.
Qed.

Lemma Lines_enough (data : string) (n : nat) :
  (String.length data < n)%nat -> bufio.scan n data = bufio.Lines data.
Proof. intros Hn. unfold bufio.Lines. apply scan_enough; lia. Qed.

(** ** The repository's tests, and readings of the same kind *)

Example TestSplitSensorOutput :
  Gen2.splitSensorOutput collSensorOutput
  = Ret ([mkSensorData "CPU1Temp" (float64_of_uint64 31) "degreesC" "ok";
          mkSensorData "P1-DIMMA2Temp" math.NaN "" "na";
          mkSensorData "ChassisIntru" (S754_zero false) "discrete" "0x0000"], None).
Proof. vm_compute. reflexivity. Qed.

Example TestSplitFwumOutput :
  Gen2.splitFwumOutput collFwumOutput
  = Ret ([mkFwumData "" (S754_zero false);
          mkFwumData "" (S754_zero false);
          mkFwumData "" (S754_zero false);
          mkFwumData "" (S754_zero false);
          mkFwumData "ManufacturerId" (float64_of_uint64 10876);
          mkFwumData "BoardId" (float64_of_uint64 2130);
          mkFwumData "FirmwareRevision" (S754_finite false 8466767299456532 (-51))], None).
Proof. vm_compute. reflexivity. Qed.

Example TestSplitFruOutput :
  Gen2.splitFruOutput collFruOutput
  = Ret ([mkFruData "FRUDeviceDescription" "BuiltinFRUDevice(ID0)";
          mkFruData "ChassisType" "Other";
          mkFruData "BoardMfgDate" "MonJan103";
          mkFruData "BoardMfgDate" "Mon Jan  1 03:00:00 1996";
          mkFruData "ProductPartNumber" "SYS-7048GR-TR"], None).
Proof. vm_compute. reflexivity. Qed.

Example TestGetChassisPowerState :
  Gen2.getChassisPowerState "Chassis Power is off" = Ret (0, None).
Proof. vm_compute. reflexivity. Qed.

Example chassis_power_on : Gen2.getChassisPowerState "Chassis Power is on" = Ret (1, None).
Proof. vm_compute. reflexivity. Qed.

Example chassis_power_first_generation :
  Gen1.getChassisPowerState "Chassis Power is off" = Ret (1, None)
  /\ Gen1.getChassisPowerState "Chassis Power is on" = Ret (0, None).
Proof. split; vm_compute; reflexivity. Qed.

Example dcmi_power_reading :
  Gen2.splitDcmiPowerOutput
    (unlines ["";
              "    Instantaneous power reading:                   220 Watts";
              "    Minimum during sampling period:                 20 Watts";
              "    Maximum during sampling period:                600 Watts";
              "    Average power reading over sample period:      220 Watts";
              "    IPMI timestamp:                           Thu Jan  1 00:00:00 1970";
              "    Power reading state is:                   activated"])
  = Ret ([mkDcmiPowerData "Instantaneous power consumption" (float64_of_uint64 220);
          mkDcmiPowerData "Min power consumption" (float64_of_uint64 20);
          mkDcmiPowerData "Max power consumption" (float64_of_uint64 600);
          mkDcmiPowerData "Avg power consumption" (float64_of_uint64 220)], None).
Proof. vm_compute. reflexivity. Qed.

Example lan_print :
  Gen2.splitLANOutput
    (unlines ["Set in Progress         : Set Complete";
              "IP Address Source       : Static Address";
              "MAC Address             : 0c:c4:7a:00:00:01";
              "802.1q VLAN ID          : Disabled";
              "802.1q VLAN Priority    : 0";
              "RMCP+ Cipher Suites     : 1,2,3"])
  = Ret ([mkLanData "IPSource" "StaticAddress";
          mkLanData "MACAddress" "0c:c4:7a:00:00:01";
          mkLanData "VLANID" "Disabled";
          mkLanData "VLANPriority" "0"], None).
Proof. vm_compute. reflexivity. Qed.

Example bmc_info :
  Gen2.splitBmcOutput
    (unlines ["Device ID                 : 32";
              "Firmware Revision         : 3.76";
              "IPMI Version              : 2.0";
              "Manufacturer Name         : Supermicro";
              "Firmware Revision         : 9.99"])
  = Ret ([mkBmcData "FirmwareRevision" "3.76";
          mkBmcData "IPMIVersion" "2.0";
          mkBmcData "Manufacturer" "Supermicro"], None).
Proof. vm_compute. reflexivity. Qed.

(** ** The severity of a state code *)

Lemma sensorState_unknown (name type : string) (value : float64) (state : string) :
  ~ In state knownStates ->
  Gen2.sensorState (mkSensorData name value type state)
  = (math.NaN, [Errorf "Unknown sensor state: '%s'\n" [state]]).
Proof.
  intros Hnot. unfold Gen2.sensorState. cbn [State].
  repeat match goal with
         | |- context [String.eqb state ?k] =>
             destruct (String.eqb_spec state k) as [->|_];
             [exfalso; apply Hnot; unfold knownStates; cbn; tauto|]
         end.
  reflexivity.
Qed.

(** C5. The state-code lookup of collectSensorMonitoring is a function
    defined on every string: ok is 0, cr is 1, nr is 2, nc is 3, ns is 4,
    0x0000 is 0, 0x0100 is 1; na is not-a-number and logs nothing; every
    other string is not-a-number and is logged as unknown exactly once;
    and not-a-number is not the ordinal 4 of "ns".  The record's other
    fields play no part. *)
Theorem C5_state_lookup_total :
  forall (name type : string) (value : float64),
    let code (state : string) := Gen2.sensorState (mkSensorData name value type state) in
    code "ok" = (float64_of_uint64 0, [])
    /\ code "cr" = (float64_of_uint64 1, [])
    /\ code "nr" = (float64_of_uint64 2, [])
    /\ code "nc" = (float64_of_uint64 3, [])
    /\ code "ns" = (float64_of_uint64 4, [])
    /\ code "0x0000" = (float64_of_uint64 0, [])
    /\ code "0x0100" = (float64_of_uint64 1, [])
    /\ code "na" = (math.NaN, [])
    /\ (forall state, ~ In state knownStates ->
          code state = (math.NaN, [Errorf "Unknown sensor state: '%s'\n" [state]]))
    /\ math.IsNaN (fst (code "na")) = true
    /\ math.IsNaN (fst (code "ns")) = false
    /\ fst (code "na") <> fst (code "ns").
Proof.
  intros name type value code. unfold code.
  repeat split; try reflexivity.
  - intros state Hnot. apply sensorState_unknown, Hnot.
  - discriminate.
Qed.

Lemma C5_state_lookup_total_witness :
  Gen2.sensorState (mkSensorData "FAN1" (float64_of_uint64 4200) "RPM" "lnc")
  = (math.NaN, [Errorf "Unknown sensor state: '%s'\n" ["lnc"]]).
Proof.
  destruct (C5_state_lookup_total "FAN1" "RPM" (float64_of_uint64 4200))
    as (_ & _ & _ & _ & _ & _ & _ & _ & Hother & _).
  apply Hother. unfold knownStates. cbn. intros H.
  repeat (destruct H as [H|H]; [discriminate H|]). exact H.
Defined.

(** The first generation has the same lookup. *)
Lemma sensorState_generations (data : sensorData) :
  Gen1.sensorState data = Gen2.sensorState data.
Proof. reflexivity. Qed.

(** ** The category of a sensor record *)

Lemma sensorMetrics_generic (state : float64) (data : sensorData) :
  ~ In (Type_ data) namedUnits ->
  Gen2.sensorMetrics state data = Gen2.collectGenericSensor state data.
Proof.
  intros Hnot. unfold Gen2.sensorMetrics.
  repeat match goal with
         | |- context [String.eqb (Type_ data) ?k] =>
             destruct (String.eqb_spec (Type_ data) k) as [E|_];
             [exfalso; apply Hnot; rewrite E; unfold namedUnits; cbn; tauto|]
         end.
  reflexivity.
Qed.

Lemma sensorMetrics_discrete (state : float64) (data : sensorData) :
  Type_ data = "discrete" ->
  Gen2.sensorMetrics state data
  = if fst (MatchString chassisIntruPattern (Name data))
    then Gen2.collectTypedSensor chassisIntrusionDesc chassisIntrusionStateDesc state data
    else if fst (MatchString psStatusPattern (Name data))
         then Gen2.collectTypedSensor chassisPowerDeviceDesc chassisPowerDeviceStateDesc state data
         else [].
Proof.
  intros E. unfold Gen2.sensorMetrics. rewrite E. cbn [String.eqb Ascii.eqb Bool.eqb].
  unfold MatchString. cbn [fst snd isNil negb].
  destruct (FindStringSubmatch chassisIntruPattern (Name data)); [reflexivity|].
  destruct (FindStringSubmatch psStatusPattern (Name data)); reflexivity.
Qed.

(** C6, as the code has it.  For a record whose unit is exactly
    "discrete", in the second generation: a name in which the pattern
    ChassisIntru matches is sent as ChassisIntrusion, whatever the state;
    otherwise a name in which PS<digit>Statu matches is sent as
    ChassisPowerDevice; every other "discrete" record is sent nowhere (no
    metric at all, it is not Generic).  A record whose unit is none of the
    named units is sent as Generic. *)
Theorem C6_discrete_classification :
  (forall (state : float64) (data : sensorData),
      Type_ data = "discrete" ->
      (fst (MatchString chassisIntruPattern (Name data)) = true ->
       Gen2.sensorMetrics state data
       = [mkMetric chassisIntrusionDesc (Value data) [Name data];
          mkMetric chassisIntrusionStateDesc state [Name data]])
      /\ (fst (MatchString chassisIntruPattern (Name data)) = false ->
          fst (MatchString psStatusPattern (Name data)) = true ->
          Gen2.sensorMetrics state data
          = [mkMetric chassisPowerDeviceDesc (Value data) [Name data];
             mkMetric chassisPowerDeviceStateDesc state [Name data]])
      /\ (fst (MatchString chassisIntruPattern (Name data)) = false ->
          fst (MatchString psStatusPattern (Name data)) = false ->
          Gen2.sensorMetrics state data = []))
  /\ (forall (state : float64) (data : sensorData),
         ~ In (Type_ data) namedUnits ->
         Gen2.sensorMetrics state data
         = [mkMetric sensorValueDesc (Value data) [Name data; Type_ data];
            mkMetric sensorStateDesc state [Name data; Type_ data]]).
Proof.
  split.
  - intros state data E. rewrite (sensorMetrics_discrete state data E).
    repeat split.
    + intros ->. reflexivity.
    + intros -> ->. reflexivity.
    + intros -> ->. reflexivity.
  - intros state data Hnot. rewrite (sensorMetrics_generic state data Hnot). reflexivity.
Qed.

Lemma C6_discrete_classification_witness :
  let intru := mkSensorData "ChassisIntru" (S754_zero false) "discrete" "0x0000" in
  let ps := mkSensorData "PS1Status" (float64_of_uint64 1) "discrete" "0x0100" in
  let other := mkSensorData "Watchdog" (S754_zero false) "discrete" "0x0000" in
  let unit := mkSensorData "CPU1Temp" (float64_of_uint64 31) "degreesC" "ok" in
  Gen2.sensorMetrics (float64_of_uint64 0) intru
  = [mkMetric chassisIntrusionDesc (Value intru) [Name intru];
     mkMetric chassisIntrusionStateDesc (float64_of_uint64 0) [Name intru]]
  /\ Gen2.sensorMetrics (float64_of_uint64 1) ps
     = [mkMetric chassisPowerDeviceDesc (Value ps) [Name ps];
        mkMetric chassisPowerDeviceStateDesc (float64_of_uint64 1) [Name ps]]
  /\ Gen2.sensorMetrics (float64_of_uint64 0) other = []
  /\ Gen2.sensorMetrics (float64_of_uint64 0) unit
     = [mkMetric sensorValueDesc (Value unit) [Name unit; Type_ unit];
        mkMetric sensorStateDesc (float64_of_uint64 0) [Name unit; Type_ unit]].
Proof.
  intros intru ps other unit.
  destruct C6_discrete_classification as [Hd Hg].
  split; [|split; [|split]].
  - apply (Hd (float64_of_uint64 0) intru); reflexivity.
  - apply (Hd (float64_of_uint64 1) ps); reflexivity.
  - apply (Hd (float64_of_uint64 0) other); reflexivity.
  - apply (Hg (float64_of_uint64 0) unit).
    unfold namedUnits. cbn. intros H.
    repeat (destruct H as [H|H]; [discriminate H|]). exact H.
Defined.

(** C6 as the spec states it fails: a "discrete" record whose name matches
    neither pattern is not sent as Generic, it is sent nowhere. *)
Lemma C6_other_discrete_is_not_generic :
  let data := mkSensorData "Watchdog" (S754_zero false) "discrete" "0x0000" in
  Type_ data = "discrete"
  /\ fst (MatchString chassisIntruPattern (Name data)) = false
  /\ fst (MatchString psStatusPattern (Name data)) = false
  /\ Gen2.sensorMetrics (float64_of_uint64 0) data = []
  /\ Gen2.sensorMetrics (float64_of_uint64 0) data
     <> Gen2.collectGenericSensor (float64_of_uint64 0) data.
Proof.
  cbv zeta. repeat split; try reflexivity. discriminate.
Qed.

(** In the first generation a "discrete" record is never sent: the send is
    guarded by an error of MatchString that a match excludes. *)
Lemma sensorMetrics_discrete_first_generation (state : float64) (data : sensorData) :
  Type_ data = "discrete" -> Gen1.sensorMetrics state data = [].
Proof.
  intros E. unfold Gen1.sensorMetrics. rewrite E. cbn [String.eqb Ascii.eqb Bool.eqb].
  unfold MatchString. cbn [fst snd isNil negb].
  destruct (FindStringSubmatch chassisIntruPattern (Name data)); [reflexivity|].
  destruct (FindStringSubmatch psStatusPattern (Name data)); reflexivity.
Qed.

(** ** The two generations of splitSensorOutput *)

Lemma splitSensorLine_generations (st : list sensorData * error) (line : string) :
  Gen1.splitSensorLine st line = Gen2.splitSensorLine st line.
Proof. reflexivity. Qed.

Lemma forScan_ext {S R : Type} (body body' : S -> string -> go (step S R)) :
  (forall s line, body s line = body' s line) ->
  forall lines s, forScan body lines s = forScan body' lines s.
Proof.
  intros Hext lines. induction lines as [|line rest IH]; intros s.
  - reflexivity.
  - cbn [forScan]. rewrite Hext.
    destruct (body' s line) as [[s'|s'|r]|p]; auto.
Qed.

(** C10. The two generations of splitSensorOutput give, on every input, the
    same outcome: the same records and the same error, or the same fault. *)
Theorem C10_sensor_generations_equal :
  forall impitoolOutput : string,
    Gen1.splitSensorOutput impitoolOutput = Gen2.splitSensorOutput impitoolOutput.
Proof.
  intros impitoolOutput. unfold Gen1.splitSensorOutput, Gen2.splitSensorOutput, scanAll.
  rewrite (forScan_ext Gen1.splitSensorLine Gen2.splitSensorLine splitSensorLine_generations).
  reflexivity.
Qed.

(** ** Records come line by line *)

Section LineOrder.

Context {T : Type}.
Variable body : list T * error -> string -> go (step (list T * error) (list T * error)).

Lemma scanAll_outcome (output : string) :
  scanAll body output
  = r <- forScan body (bufio.Lines output) ([], None) ;; Ret (outcome r).
Proof.
  unfold scanAll. destruct (forScan body (bufio.Lines output) ([], None)) as [[st|st]|p]; reflexivity.
Qed.

(** A line the body passes over leaves no trace. *)
Lemma forScan_skip (line : string) :
  (forall st, body st line = Ret (Next st)) ->
  forall pre post st,
    forScan body (pre ++ line :: post) st = forScan body (pre ++ post) st.
Proof.
  intros Hskip pre post. induction pre as [|l pre IH]; intros st; cbn [forScan List.app].
  - rewrite Hskip. reflexivity.
  - destruct (body st l) as [[s'|s'|r]|p]; auto.
Qed.

Lemma scanAll_skip (line : string) :
  (forall st, body st line = Ret (Next st)) ->
  forall output output' pre post,
    bufio.Lines output = (pre ++ line :: post)%list ->
    bufio.Lines output' = (pre ++ post)%list ->
    scanAll body output = scanAll body output'.
Proof.
  intros Hskip output output' pre post E E'. unfold scanAll.
  rewrite E, E', (forScan_skip line Hskip). reflexivity.
Qed.

Section Appends.

Hypothesis appends :
  forall result err line c,
    body (result, err) line = Ret c -> fst (after c) = (result ++ emits body line)%list.

Lemma forScan_in_order (lines : list string) :
  forall result err r,
    forScan body lines (result, err) = Ret r ->
    exists n, fst (outcome r) = (result ++ flat_map (emits body) (firstn n lines))%list.
Proof.
  induction lines as [|line rest IH]; intros result err r H; cbn [forScan] in H.
  - exists O. inversion H. cbn. now rewrite app_nil_r.
  - destruct (body (result, err) line) as [c|p] eqn:Hb; [|discriminate H].
    pose proof (appends _ _ _ _ Hb) as Ha.
    destruct c as [[result' err']|s|s]; cbn [after fst] in Ha.
    + destruct (IH _ _ _ H) as [n Hn]. exists (S n).
      rewrite Hn, Ha. cbn [firstn flat_map]. now rewrite <- app_assoc.
    + exists 1%nat. inversion H. cbn [outcome firstn flat_map].
      rewrite Ha. now rewrite app_nil_r.
    + exists 1%nat. inversion H. cbn [outcome firstn flat_map].
      rewrite Ha. now rewrite app_nil_r.
Qed.

(** The records of a parser are what its lines add, in the order of the
    lines, up to the line at which the loop was left. *)
Lemma scanAll_in_order (output : string) (recs : list T) (err : error) :
  scanAll body output = Ret (recs, err) ->
  exists n, recs = flat_map (emits body) (firstn n (bufio.Lines output)).
Proof.
  rewrite scanAll_outcome. intros H.
  destruct (forScan body (bufio.Lines output) ([], None)) as [r|p] eqn:Hf; [|discriminate H].
  cbn [bind] in H. destruct (forScan_in_order _ _ _ _ Hf) as [n Hn].
  exists n. inversion H as [Hr]. rewrite Hr in Hn. exact Hn.
Qed.

Hypothesis goes_on :
  forall st line c, body st line = Ret c -> exists st', c = Next st'.

Lemma forScan_all_lines (lines : list string) :
  forall result err r,
    forScan body lines (result, err) = Ret r ->
    fst (outcome r) = (result ++ flat_map (emits body) lines)%list.
Proof.
  induction lines as [|line rest IH]; intros result err r H; cbn [forScan] in H.
  - inversion H. cbn. now rewrite app_nil_r.
  - destruct (body (result, err) line) as [c|p] eqn:Hb; [|discriminate H].
    pose proof (appends _ _ _ _ Hb) as Ha.
    destruct (goes_on _ _ _ Hb) as [[result' err'] ->]. cbn [after fst] in Ha.
    rewrite (IH _ _ _ H), Ha. cbn [flat_map]. now rewrite <- app_assoc.
Qed.

(** Without [break] and [return], every line takes part. *)
Lemma scanAll_all_lines (output : string) (recs : list T) (err : error) :
  scanAll body output = Ret (recs, err) ->
  recs = flat_map (emits body) (bufio.Lines output).
Proof.
  rewrite scanAll_outcome. intros H.
  destruct (forScan body (bufio.Lines output) ([], None)) as [r|p] eqn:Hf; [|discriminate H].
  cbn [bind] in H. pose proof (forScan_all_lines _ _ _ _ Hf) as Hn.
  inversion H as [Hr]. rewrite Hr in Hn. exact Hn.
Qed.

End Appends.

End LineOrder.

Lemma splitSensorLine_appends :
  forall result err line c,
    Gen2.splitSensorLine (result, err) line = Ret c ->
    fst (after c) = (result ++ emits Gen2.splitSensorLine line)%list.
Proof.
  intros result err line c H. unfold emits, Gen2.splitSensorLine in *.
  along H; cbn [after fst append List.app]; try reflexivity; try (now rewrite app_nil_r).
Qed.

(** ** When a parsed value is not-a-number *)

Lemma roundFloat64_not_nan (neg : bool) (num den : Z) :
  math.IsNaN (fst (roundFloat64 neg num den)) = false.
Proof.
  unfold roundFloat64.
  repeat match goal with
         | |- context [if ?b then _ else _] => destruct b
         | |- context [match ?x with _ => _ end] => destruct x
         end; reflexivity.
Qed.

Lemma toLowerAZ_n (c : ascii) :
  Ascii.eqb (toLowerAZ c) "n" = true -> c = "n"%char \/ c = "N"%char.
Proof.
  destruct c as [[] [] [] [] [] [] [] []]; vm_compute; intros H;
    try discriminate H; auto.
Qed.

Lemma toLowerAZ_a (c : ascii) :
  Ascii.eqb (toLowerAZ c) "a" = true -> c = "a"%char \/ c = "A"%char.
Proof.
  destruct c as [[] [] [] [] [] [] [] []]; vm_compute; intros H;
    try discriminate H; auto.
Qed.

Lemma commonPrefixLen_bounds (s pre : string) :
  0 <= commonPrefixLenIgnoreCase s pre <= Z.of_nat (String.length pre).
Proof.
  revert pre. induction s as [|c s IH]; intros [|p pre]; cbn [commonPrefixLenIgnoreCase String.length];
    try lia.
  destruct (Ascii.eqb (toLowerAZ c) p); [specialize (IH pre)|]; lia.
Qed.

(** The eight spellings. *)
Lemma spellsNaN_inv (s : string) :
  spellsNaN s = true ->
  exists c1 c2 c3,
    s = String c1 (String c2 (String c3 ""))
    /\ (c1 = "n" \/ c1 = "N")%char /\ (c2 = "a" \/ c2 = "A")%char /\ (c3 = "n" \/ c3 = "N")%char.
Proof.
  unfold spellsNaN, len. intros H. apply andb_prop in H as [Hl Hc].
  apply Z.eqb_eq in Hl. apply Z.eqb_eq in Hc.
  destruct s as [|c1 [|c2 [|c3 [|c4 s]]]]; cbn [String.length] in Hl; try lia.
  cbn [commonPrefixLenIgnoreCase] in Hc.
  destruct (Ascii.eqb (toLowerAZ c1) "n") eqn:E1; [|lia].
  destruct (Ascii.eqb (toLowerAZ c2) "a") eqn:E2; [|lia].
  destruct (Ascii.eqb (toLowerAZ c3) "n") eqn:E3; [|lia].
  exists c1, c2, c3. auto using toLowerAZ_n, toLowerAZ_a.
Qed.

Lemma spellsNaN_special (s : string) :
  spellsNaN s = true -> special s = Some (math.NaN, 3).
Proof.
  intros H. destruct (spellsNaN_inv s H) as (c1 & c2 & c3 & -> & [-> | ->] & [-> | ->] & [-> | ->]);
    reflexivity.
Qed.

Lemma spellsNaN_not_uint (s : string) :
  spellsNaN s = true -> isNil (snd (ParseUint s 0 64)) = false.
Proof.
  intros H. destruct (spellsNaN_inv s H) as (c1 & c2 & c3 & -> & [-> | ->] & [-> | ->] & [-> | ->]);
    reflexivity.
Qed.

Lemma spellsNaN_not_na (s : string) : spellsNaN s = true -> String.eqb s "na" = false.
Proof.
  intros H. destruct (spellsNaN_inv s H) as (c1 & c2 & c3 & -> & _). 
  cbn. destruct (Ascii.eqb c1 "n"); [|reflexivity]. destruct (Ascii.eqb c2 "a"); reflexivity.
Qed.

(** What [special] recognises is not-a-number exactly for those texts. *)
Lemma special_nan (s : string) (f : float64) (n : Z) :
  special s = Some (f, n) ->
  (math.IsNaN f = true /\ n = 3 /\ commonPrefixLenIgnoreCase s "nan" = 3)
  \/ (math.IsNaN f = false /\ commonPrefixLenIgnoreCase s "nan" <> 3).
Proof.
  unfold special. destruct s as [|c s']; [discriminate|].
  assert (Hinf : forall sign nsign t,
             (let n := commonPrefixLenIgnoreCase t "infinity" in
              let n := if (3 <? n) && (n <? 8) then 3 else n in
              if (n =? 3) || (n =? 8) then Some (math.Inf sign, nsign + n) else None)
             = Some (f, n) -> math.IsNaN f = false).
  { intros sign nsign t. cbv zeta.
    destruct ((_ =? 3) || (_ =? 8)); [|discriminate].
    intros H. inversion H. reflexivity. }
  assert (Hlow : forall x : ascii,
             Ascii.eqb (toLowerAZ x) "n" = false ->
             commonPrefixLenIgnoreCase (String x s') "nan" <> 3).
  { intros x E. cbn [commonPrefixLenIgnoreCase]. rewrite E. lia. }
  destruct (Ascii.eqb_spec c "+") as [->|_].
  { intros H. right. split; [eapply Hinf, H | apply Hlow; reflexivity]. }
  destruct (Ascii.eqb_spec c "-") as [->|_].
  { intros H. right. split; [eapply Hinf, H | apply Hlow; reflexivity]. }
  destruct (Ascii.eqb_spec c "i") as [->|_].
  { cbn [orb]. intros H. right. split; [eapply Hinf, H | apply Hlow; reflexivity]. }
  destruct (Ascii.eqb_spec c "I") as [->|_].
  { cbn [orb]. intros H. right. split; [eapply Hinf, H | apply Hlow; reflexivity]. }
  cbn [orb].
  destruct (Ascii.eqb c "n" || Ascii.eqb c "N"); [|discriminate].
  destruct (commonPrefixLenIgnoreCase (String c s') "nan" =? 3) eqn:E; [|discriminate].
  intros H. inversion H. left. apply Z.eqb_eq in E. auto.
Qed.

Lemma ParseFloat64_nan (s : string) (f : float64) :
  ParseFloat64 s = (f, None) -> (math.IsNaN f = true <-> spellsNaN s = true).
Proof.
  unfold ParseFloat64, syntaxError, rangeError. destruct (special s) as [[g n]|] eqn:Hs.
  - destruct (n =? len s) eqn:Hn; [|discriminate].
    intros H. inversion H; subst g. apply Z.eqb_eq in Hn.
    destruct (special_nan _ _ _ Hs) as [(Hf & Hn3 & Hc) | (Hf & Hc)].
    + split; [intros _|auto]. unfold spellsNaN. rewrite <- Hn, Hn3, Hc. reflexivity.
    + rewrite Hf. split; [discriminate|]. unfold spellsNaN. intros H'.
      apply andb_prop in H' as [_ H']. apply Z.eqb_eq in H'. contradiction.
  - intros H.
    assert (Hnot : spellsNaN s = false).
    { destruct (spellsNaN s) eqn:E; [|reflexivity].
      rewrite (spellsNaN_special s E) in Hs. discriminate Hs. }
    rewrite Hnot.
    assert (Hf : math.IsNaN f = false).
    { destruct (readFloat s) as [sc|]; [|discriminate H].
      destruct (negb (String.eqb (sc_rest sc) "")); [discriminate H|].
      destruct (value sc) as [g ovf] eqn:Hv.
      assert (Hg : math.IsNaN g = false).
      { change g with (fst (g, ovf)). rewrite <- Hv. unfold value.
        destruct (0 <=? sc_exp sc); apply roundFloat64_not_nan. }
      destruct ovf; inversion H; subst; exact Hg. }
    rewrite Hf. split; discriminate.
Qed.

(** ** The value field of a sensor line *)

Lemma index_nth {A : Type} (l : list A) (i : nat) (a d : A) :
  index l i = Ret a -> nth i l d = a.
Proof.
  unfold index. destruct (nth_error l i) as [x|] eqn:E; [|discriminate].
  intros H. inversion H; subst. now apply nth_error_nth.
Qed.

(** The value of the record of a sensor line. *)
Lemma sensor_record_value (line : string) (d : sensorData) :
  In d (emits Gen2.splitSensorLine line) ->
  let valueS := valueField line in
  Value d
  = (if String.eqb valueS "na" then math.NaN
     else if isNil (snd (ParseUint valueS 0 64)) then float64_of_uint64 (fst (ParseUint valueS 0 64))
          else fst (ParseFloat64 valueS))
  /\ (String.eqb valueS "na" = false -> isNil (snd (ParseUint valueS 0 64)) = false ->
      snd (ParseFloat64 valueS) = None).
Proof.
  unfold emits, Gen2.splitSensorLine, valueField. fold (sensorFields line).
  destruct (0 <? len line); [|intros []].
  destruct (index (sensorFields line) 0) as [name|p]; [|intros []]. cbn [bind].
  destruct (index (sensorFields line) 1) as [valueS|p] eqn:E1; [|intros []]. cbn [bind].
  rewrite (index_nth _ _ _ "" E1).
  destruct (ParseUint valueS 0 64) as [convValueS convErr]. cbn [fst snd].
  destruct (String.eqb valueS "na"); cbn [negb andb].
  - destruct (index (sensorFields line) 2) as [type|p]; [|intros []]. cbn [bind].
    destruct (index (sensorFields line) 3) as [state|p]; [|intros []]. cbn [bind after fst append List.app In].
    intros [<-|[]]. split; [reflexivity|discriminate].
  - destruct (isNil convErr); cbn [negb].
    + destruct (index (sensorFields line) 2) as [type|p]; [|intros []]. cbn [bind].
      destruct (index (sensorFields line) 3) as [state|p]; [|intros []]. cbn [bind after fst append List.app In].
      intros [<-|[]]. split; [reflexivity|discriminate].
    + destruct (ParseFloat64 valueS) as [value err]. cbn [fst snd].
      destruct err as [e|]; cbn [isNil negb]; [intros []|].
      destruct (index (sensorFields line) 2) as [type|p]; [|intros []]. cbn [bind].
      destruct (index (sensorFields line) 3) as [state|p]; [|intros []]. cbn [bind after fst append List.app In].
      intros [<-|[]]. split; reflexivity.
Qed.

Lemma float64_of_uint64_not_nan (u : Z) : math.IsNaN (float64_of_uint64 u) = false.
Proof. apply roundFloat64_not_nan. Qed.

Lemma sensor_value_nan (line : string) (d : sensorData) :
  In d (emits Gen2.splitSensorLine line) ->
  (math.IsNaN (Value d) = true
   <-> valueField line = "na" \/ spellsNaN (valueField line) = true).
Proof.
  intros Hin. destruct (sensor_record_value line d Hin) as [Hv Herr]. rewrite Hv.
  destruct (String.eqb_spec (valueField line) "na") as [E|E].
  - split; auto.
  - destruct (isNil (snd (ParseUint (valueField line) 0 64))) eqn:Hu.
    + rewrite float64_of_uint64_not_nan. split; [discriminate|].
      intros [H|H]; [contradiction|]. apply spellsNaN_not_uint in H. congruence.
    + specialize (Herr eq_refl eq_refl).
      destruct (ParseFloat64 (valueField line)) as [f e] eqn:Hp. cbn [fst snd] in *. subst e.
      rewrite (ParseFloat64_nan _ _ Hp). split; [auto|]. intros [H|H]; [contradiction|exact H].
Qed.

Lemma splitSensorLine_goes_on :
  forall st line c, Gen2.splitSensorLine st line = Ret c -> exists st', c = Next st'.
Proof.
  intros [result err] line c H. unfold Gen2.splitSensorLine in H.
  along H; eauto.
Qed.

(** The records of splitSensorOutput are those of its lines, in order. *)
Lemma splitSensorOutput_by_line (output : string) (recs : list sensorData) (err : error) :
  Gen2.splitSensorOutput output = Ret (recs, err) ->
  recs = flat_map (emits Gen2.splitSensorLine) (bufio.Lines output).
Proof.
  apply scanAll_all_lines.
  - exact splitSensorLine_appends.
  - exact splitSensorLine_goes_on.
Qed.

(** C1, as the code has it.  Every record splitSensorOutput returns comes
    from a line of the input, and its value is not-a-number if and only if
    the value field of that line (the second field, blanks removed) is
    "na" or is "nan" in any letter case, which ParseFloat reads as
    not-a-number.  The name, unit and state fields play no part. *)
Theorem C1_value_nan_iff_na_or_nan :
  forall (output : string) (recs : list sensorData) (err : error),
    Gen2.splitSensorOutput output = Ret (recs, err) ->
    forall d, In d recs ->
      exists line,
        In line (bufio.Lines output)
        /\ In d (emits Gen2.splitSensorLine line)
        /\ (math.IsNaN (Value d) = true
            <-> valueField line = "na" \/ spellsNaN (valueField line) = true).
Proof.
  intros output recs err H d Hd.
  rewrite (splitSensorOutput_by_line _ _ _ H) in Hd.
  apply in_flat_map in Hd as [line [Hl He]].
  exists line. split; [exact Hl|]. split; [exact He|].
  apply sensor_value_nan, He.
Qed.

Lemma C1_value_nan_iff_na_or_nan_witness :
  exists line,
    In line (bufio.Lines (unlines ["P1-DIMMA2 Temp   | na         |            | na    | na";
                                   "CPU1 Temp        | 31.000     | degrees C  | ok    | 0.000"]))
    /\ In (mkSensorData "P1-DIMMA2Temp" math.NaN "" "na") (emits Gen2.splitSensorLine line)
    /\ (math.IsNaN (Value (mkSensorData "P1-DIMMA2Temp" math.NaN "" "na")) = true
        <-> valueField line = "na" \/ spellsNaN (valueField line) = true).
Proof.
  apply (C1_value_nan_iff_na_or_nan
           (unlines ["P1-DIMMA2 Temp   | na         |            | na    | na";
                     "CPU1 Temp        | 31.000     | degrees C  | ok    | 0.000"])
           [mkSensorData "P1-DIMMA2Temp" math.NaN "" "na";
            mkSensorData "CPU1Temp" (float64_of_uint64 31) "degreesC" "ok"]
           None).
  - vm_compute. reflexivity.
  - left. reflexivity.
Defined.

(** C1 as the spec states it fails from right to left: the value field
    "nan" is not the token "na", and the record's value is not-a-number. *)
Lemma C1_nan_text_is_not_na :
  Gen2.splitSensorOutput "Fan1 | nan | RPM | ok"
  = Ret ([mkSensorData "Fan1" math.NaN "RPM" "ok"], None)
  /\ valueField "Fan1 | nan | RPM | ok" = "nan"
  /\ valueField "Fan1 | nan | RPM | ok" <> "na"
  /\ math.IsNaN (Value (mkSensorData "Fan1" math.NaN "RPM" "ok")) = true.
Proof.
  repeat split; try (vm_compute; reflexivity). vm_compute. discriminate.
Qed.

(** ** Hexadecimal value fields *)

Lemma roundFloat64_small (neg : bool) (u : Z) :
  0 < u < 2 ^ 53 ->
  roundFloat64 neg u 1
  = (S754_finite neg (Z.to_pos (u * 2 ^ (52 - Z.log2 u))) (Z.log2 u - 52), false).
Proof.
  intros Hu. unfold roundFloat64.
  assert (Hl := Z.log2_spec u ltac:(lia)).
  assert (Hl0 := Z.log2_nonneg u).
  assert (Hl52 : Z.log2 u < 53) by (apply Z.log2_lt_pow2; lia).
  change (Z.log2 1) with 0. rewrite Z.sub_0_r.
  set (l := Z.log2 u) in *.
  replace (u <=? 0) with false by (symmetry; apply Z.leb_gt; lia).
  replace (0 <=? l) with true by (symmetry; apply Z.leb_le; lia).
  replace (1 * 2 ^ l <=? u) with true by (symmetry; apply Z.leb_le; lia).
  rewrite Z.max_l by lia.
  assert (Hn : 0 < u * 2 ^ (52 - l) < 2 ^ 53).
  { assert (0 < 2 ^ (52 - l)) by (apply Z.pow_pos_nonneg; lia).
    split; [nia|].
    replace (2 ^ 53) with (2 ^ (Z.succ l) * 2 ^ (52 - l))
      by (rewrite <- Z.pow_add_r by lia; f_equal; lia).
    apply Z.mul_lt_mono_pos_r; lia. }
  assert (Hq : (if 0 <=? l - 52 then u else u * 2 ^ (- (l - 52))) = u * 2 ^ (52 - l)).
  { destruct (Z.leb_spec 0 (l - 52)).
    - replace (52 - l) with 0 by lia. lia.
    - f_equal. f_equal. lia. }
  assert (Hd : (if 0 <=? l - 52 then 1 * 2 ^ (l - 52) else 1) = 1).
  { destruct (Z.leb_spec 0 (l - 52)); [|reflexivity].
    replace (l - 52) with 0 by lia. reflexivity. }
  rewrite Hq, Hd. rewrite Z.div_1_r, Z.mod_1_r. cbn [Z.mul Z.compare].
  replace (u * 2 ^ (52 - l) =? 2 ^ 53) with false by (symmetry; apply Z.eqb_neq; lia).
  destruct (u * 2 ^ (52 - l)) as [|p|p] eqn:E; try lia.
  replace (l - 52 <=? 971) with true by (symmetry; apply Z.leb_le; lia).
  reflexivity.
Qed.

Lemma float64_of_uint64_exact (u : Z) :
  0 <= u < 2 ^ 53 -> integerOf (float64_of_uint64 u) = Some u.
Proof.
  intros Hu. destruct (Z.eq_dec u 0) as [->|Hne]; [reflexivity|].
  unfold float64_of_uint64. rewrite roundFloat64_small by lia. cbn [fst integerOf].
  assert (Hl := Z.log2_spec u ltac:(lia)).
  assert (Hl52 : Z.log2 u < 53) by (apply Z.log2_lt_pow2; lia).
  assert (Hl0 := Z.log2_nonneg u).
  set (l := Z.log2 u) in *.
  assert (Hp : 0 < 2 ^ (52 - l)) by (apply Z.pow_pos_nonneg; lia).
  rewrite Z2Pos.id by nia.
  destruct (Z.leb_spec 0 (l - 52)).
  - replace (l - 52) with 0 by lia. replace (52 - l) with 0 by lia.
    f_equal. lia.
  - replace (- (l - 52)) with (52 - l) by lia.
    rewrite Z.mod_mul by lia. cbn [Z.eqb]. rewrite Z.div_mul by lia. reflexivity.
Qed.

Lemma fits53_small (u : Z) : 0 <= u < 2 ^ 53 -> fits53 u = true.
Proof.
  intros Hu. unfold fits53.
  assert (Hl : Z.log2 u < 53).
  { destruct (Z.eq_dec u 0) as [->|]; [reflexivity|]. apply Z.log2_lt_pow2; lia. }
  rewrite Z.max_l by lia. cbn [Z.pow]. rewrite Z.mod_1_r. reflexivity.
Qed.

(** Above 2^53 the mantissa is the quotient by 2^(n - 53), rounded on the
    remainder. *)
Lemma roundFloat64_large (u : Z) :
  2 ^ 53 <= u < 2 ^ 64 ->
  let e := Z.log2 u - 52 in
  let q := u / 2 ^ e in
  let r := u mod 2 ^ e in
  exists m e',
    float64_of_uint64 u = S754_finite false m e'
    /\ 0 <= e'
    /\ (r = 0 -> Zpos m * 2 ^ e' = u)
    /\ (Zpos m * 2 ^ e' = q * 2 ^ e \/ Zpos m * 2 ^ e' = (q + 1) * 2 ^ e).
Proof.
  intros Hu e q r.
  assert (Hl := Z.log2_spec u ltac:(lia)).
  assert (Hl53 : 53 <= Z.log2 u) by (apply Z.log2_le_pow2; lia).
  assert (Hl64 : Z.log2 u < 64) by (apply Z.log2_lt_pow2; lia).
  assert (He : 1 <= e <= 11) by (unfold e; lia).
  assert (Hp : 0 < 2 ^ e) by (apply Z.pow_pos_nonneg; lia).
  assert (Hdiv : u = 2 ^ e * q + r) by (apply Z.div_mod; lia).
  assert (Hr : 0 <= r < 2 ^ e) by (apply Z.mod_pos_bound; lia).
  assert (Hq : 2 ^ 52 <= q < 2 ^ 53).
  { assert (E1 : 2 ^ Z.log2 u = 2 ^ 52 * 2 ^ e)
      by (rewrite <- Z.pow_add_r by lia; f_equal; unfold e; lia).
    assert (E2 : 2 ^ Z.succ (Z.log2 u) = 2 ^ 53 * 2 ^ e)
      by (rewrite <- Z.pow_add_r by lia; f_equal; unfold e; lia).
    split.
    - apply Z.div_le_lower_bound; lia.
    - apply Z.div_lt_upper_bound; lia. }
  unfold float64_of_uint64, roundFloat64.
  change (Z.log2 1) with 0. rewrite Z.sub_0_r.
  replace (u <=? 0) with false by (symmetry; apply Z.leb_gt; lia).
  replace (0 <=? Z.log2 u) with true by (symmetry; apply Z.leb_le; lia).
  replace (1 * 2 ^ Z.log2 u <=? u) with true by (symmetry; apply Z.leb_le; lia).
  fold e. rewrite Z.max_l by lia.
  replace (0 <=? e) with true by (symmetry; apply Z.leb_le; lia).
  rewrite Z.mul_1_l. fold q. fold r.
  set (q' := match 2 * r ?= 2 ^ e with
             | Eq => if Z.even q then q else q + 1
             | Lt => q
             | Gt => q + 1
             end).
  assert (Hq' : (q' = q \/ q' = q + 1) /\ (r = 0 -> q' = q)).
  { unfold q'. destruct (Z.compare_spec (2 * r) (2 ^ e)) as [E|E|E].
    - destruct (Z.even q); split; auto; intros ->; lia.
    - split; auto.
    - split; auto. intros ->. lia. }
  destruct Hq' as [Hq1 Hq0].
  destruct (Z.eqb_spec q' (2 ^ 53)) as [E53|N53].
  - (* the mantissa carries into the next binade *)
    replace (e + 1 <=? 971) with true by (symmetry; apply Z.leb_le; lia).
    exists (Z.to_pos (2 ^ 52)), (e + 1). cbn [fst].
    split; [reflexivity|]. split; [lia|].
    rewrite Z2Pos.id by lia.
    assert (Ecarry : 2 ^ 52 * 2 ^ (e + 1) = (q + 1) * 2 ^ e).
    { rewrite Z.pow_add_r by lia. change (2 ^ 1) with 2.
      replace (q + 1) with (2 ^ 53) by lia. change (2 ^ 53) with (2 ^ 52 * 2). ring. }
    split; [|right; exact Ecarry].
    intros Hr0. specialize (Hq0 Hr0). lia.
  - destruct q' as [|p|p] eqn:Ep; try lia.
    replace (e <=? 971) with true by (symmetry; apply Z.leb_le; lia).
    exists p, e. cbn [fst]. split; [reflexivity|]. split; [lia|].
    split.
    + intros Hr0. rewrite (Hq0 Hr0). lia.
    + destruct Hq1 as [->| ->]; auto.
Qed.

(** The conversion of a uint64 is exact precisely on the integers of at
    most 53 significant bits. *)
Lemma float64_of_uint64_exact_iff (u : Z) :
  0 <= u < 2 ^ 64 ->
  (integerOf (float64_of_uint64 u) = Some u <-> fits53 u = true).
Proof.
  intros Hu. destruct (Z.lt_ge_cases u (2 ^ 53)) as [Hs|Hb].
  - split; intros _; [apply fits53_small | apply float64_of_uint64_exact]; lia.
  - destruct (roundFloat64_large u ltac:(lia)) as (m & e' & E & He' & Hexact & Hmult).
    rewrite E. cbn [integerOf].
    replace (0 <=? e') with true by (symmetry; apply Z.leb_le; lia).
    assert (Hl53 : 53 <= Z.log2 u) by (apply Z.log2_le_pow2; lia).
    unfold fits53. rewrite Z.max_r by lia.
    set (e := Z.log2 u - 52) in *.
    assert (Hp : 0 < 2 ^ e) by (apply Z.pow_pos_nonneg; lia).
    split.
    + intros H. assert (Hv : Z.pos m * 2 ^ e' = u) by congruence.
      apply Z.eqb_eq.
      destruct Hmult as [Hm|Hm]; rewrite <- Hv, Hm; apply Z.mod_mul; lia.
    + intros H. apply Z.eqb_eq in H. f_equal. apply Hexact, H.
Qed.

Lemma isHexDigit_digitVal (c : ascii) :
  isHexDigit c = true ->
  Ascii.eqb c "_" = false
  /\ digitVal c = Some (hexDigitValue c)
  /\ 0 <= hexDigitValue c < 16.
Proof.
  destruct c as [[] [] [] [] [] [] [] []]; vm_compute; intros H;
    try discriminate H; repeat split; congruence.
Qed.

Lemma hexValue_mono (ds : string) :
  forall acc, hexDigits ds = true -> 0 <= acc -> acc <= hexValue ds acc.
Proof.
  induction ds as [|c ds IH]; intros acc Hd Hacc; cbn [hexValue hexDigits] in *.
  - lia.
  - apply andb_prop in Hd as [Hc Hd].
    destruct (isHexDigit_digitVal c Hc) as (_ & _ & Hv).
    specialize (IH (acc * 16 + hexDigitValue c) Hd). lia.
Qed.

Lemma uintLoop_hex (ds : string) :
  forall n,
    hexDigits ds = true -> 0 <= n -> hexValue ds n <= maxUint64 ->
    uintLoop 16 true (maxUint64 / 16 + 1) (2 ^ 64 - 1) ds n false = (hexValue ds n, None, false).
Proof.
  change (maxUint64 / 16 + 1) with (2 ^ 60). unfold maxUint64.
  induction ds as [|c ds IH]; intros n Hd Hn Hmax; cbn [hexValue hexDigits uintLoop] in *.
  - reflexivity.
  - apply andb_prop in Hd as [Hc Hd].
    destruct (isHexDigit_digitVal c Hc) as (Hu & Hv & Hr).
    rewrite Hu, Hv. cbn [andb].
    assert (Hm := hexValue_mono ds (n * 16 + hexDigitValue c) Hd ltac:(lia)).
    replace (16 <=? hexDigitValue c) with false by (symmetry; apply Z.leb_gt; lia).
    replace (2 ^ 60 <=? n) with false by (symmetry; apply Z.leb_gt; lia).
    rewrite Z.mod_small by lia.
    replace (n * 16 + hexDigitValue c <? n * 16) with false by (symmetry; apply Z.ltb_ge; lia).
    replace (2 ^ 64 - 1 <? n * 16 + hexDigitValue c) with false by (symmetry; apply Z.ltb_ge; lia).
    cbn [orb]. apply IH; [exact Hd | lia | exact Hmax].
Qed.

Lemma basePrefix_0x (c : ascii) (ds : string) :
  basePrefix ("0x" ++ String c ds) = (16, String c ds).
Proof.
  unfold basePrefix.
  replace (3 <=? len ("0x" ++ String c ds)) with true
    by (symmetry; apply Z.leb_le; unfold len; cbn [String.append String.length]; lia).
  reflexivity.
Qed.

(** ParseUint on "0x" and hexadecimal digits that fit 64 bits. *)
Lemma ParseUint_hex_literal (ds : string) :
  ds <> "" -> hexDigits ds = true -> hexValue ds 0 <= maxUint64 ->
  ParseUint ("0x" ++ ds) 0 64 = (hexValue ds 0, None).
Proof.
  intros Hne Hd Hmax. destruct ds as [|c ds]; [contradiction|].
  unfold ParseUint. change (String.eqb ("0x" ++ String c ds) "") with false.
  cbn [Z.eqb Z.leb Z.ltb Z.compare andb orb]. rewrite basePrefix_0x.
  rewrite (uintLoop_hex (String c ds) 0 Hd ltac:(lia) Hmax). reflexivity.
Qed.

Lemma sensorFields_nonempty_line (line : string) (a b : string) (l : list string) :
  sensorFields line = a :: b :: l -> (0 <? len line) = true.
Proof.
  destruct line as [|c line]; [discriminate|]. intros _.
  apply Z.ltb_lt. unfold len. cbn [String.length]. lia.
Qed.

(** C7, as the code has it.  A sensor line whose value field is "0x"
    followed by hexadecimal digits that fit 64 bits adds one record, whose
    value is the float64 nearest to the unsigned integer the digits denote.
    That float64 is the integer itself, with no rounding, if and only if
    the integer has at most 53 significant bits; it is so in particular
    below 2^53. *)
Theorem C7_hex_value_exact_on_53_bits :
  forall (line name ds type state : string) (more : list string)
         (result : list sensorData) (err : error),
    sensorFields line = name :: ("0x" ++ ds) :: type :: state :: more ->
    ds <> "" -> hexDigits ds = true -> hexValue ds 0 <= maxUint64 ->
    Gen2.splitSensorLine (result, err) line
    = Ret (Next (append result
                        (mkSensorData name (float64_of_uint64 (hexValue ds 0)) type state),
                 err))
    /\ (integerOf (float64_of_uint64 (hexValue ds 0)) = Some (hexValue ds 0)
        <-> fits53 (hexValue ds 0) = true)
    /\ (hexValue ds 0 < 2 ^ 53 ->
        integerOf (float64_of_uint64 (hexValue ds 0)) = Some (hexValue ds 0)).
Proof.
  intros line name ds type state more result err Hf Hne Hd Hmax.
  assert (H0 : 0 <= hexValue ds 0) by (apply (hexValue_mono ds 0 Hd); lia).
  split; [|split].
  - unfold Gen2.splitSensorLine. fold (sensorFields line).
    rewrite (sensorFields_nonempty_line _ _ _ _ Hf), Hf.
    cbn [index nth_error bind].
    rewrite (ParseUint_hex_literal ds Hne Hd Hmax).
    change (String.eqb ("0x" ++ ds) "na") with false.
    reflexivity.
  - apply float64_of_uint64_exact_iff. unfold maxUint64 in Hmax. lia.
  - intros Hlt. apply float64_of_uint64_exact. lia.
Qed.

Lemma C7_hex_value_exact_on_53_bits_witness :
  Gen2.splitSensorLine ([], None) "Chassis Intru    | 0x1f       | discrete   | 0x0000| na"
  = Ret (Next ([mkSensorData "ChassisIntru" (float64_of_uint64 31) "discrete" "0x0000"], None))
  /\ (integerOf (float64_of_uint64 31) = Some 31 <-> fits53 31 = true)
  /\ (31 < 2 ^ 53 -> integerOf (float64_of_uint64 31) = Some 31).
Proof.
  apply (C7_hex_value_exact_on_53_bits
           "Chassis Intru    | 0x1f       | discrete   | 0x0000| na"
           "ChassisIntru" "1f" "discrete" "0x0000" ["na"] [] None).
  - reflexivity.
  - discriminate.
  - reflexivity.
  - vm_compute. discriminate.
Defined.

(** C7 as the spec states it fails above 2^53: the literal
    0x20000000000001 denotes 2^53 + 1, and the record's value is the
    float64 2^53. *)
Lemma C7_hex_literal_is_rounded :
  hexDigits "20000000000001" = true
  /\ hexValue "20000000000001" 0 = 2 ^ 53 + 1
  /\ Gen2.splitSensorOutput "PS1 Status | 0x20000000000001 | discrete | 0x0100"
     = Ret ([mkSensorData "PS1Status" (S754_finite false 4503599627370496 1) "discrete" "0x0100"],
            None)
  /\ integerOf (S754_finite false 4503599627370496 1) = Some (2 ^ 53)
  /\ integerOf (S754_finite false 4503599627370496 1) <> Some (hexValue "20000000000001" 0)
  /\ fits53 (hexValue "20000000000001" 0) = false.
Proof.
  repeat split; try (vm_compute; reflexivity). vm_compute. discriminate.
Qed.

(** A literal of 2^64 or more is neither an unsigned integer nor a
    float (a hexadecimal float needs a "p" exponent): no record. *)
Example hex_literal_too_long :
  Gen2.splitSensorOutput "PS1 Status | 0x10000000000000000 | discrete | 0x0100"
  = Ret ([], syntaxError "ParseFloat" "0x10000000000000000").
Proof. vm_compute. reflexivity. Qed.

(** ** Conversion errors: the sensor listing skips *)

Lemma nth_index {A : Type} (l : list A) (i : nat) (d : A) :
  (i < List.length l)%nat -> index l i = Ret (nth i l d).
Proof.
  intros H. unfold index. rewrite (nth_error_nth' l d H). reflexivity.
Qed.





(** ** Conversion errors: the firmware listing aborts *)

Lemma HasPrefix_colon (s : string) :
  strings.HasPrefix s ":" = match s with String c _ => Ascii.eqb c ":" | EmptyString => false end.
Proof.
  unfold strings.HasPrefix. destruct s as [|c s]; [reflexivity|].
  cbn [String.prefix].
  destruct (ascii_dec ":" c) as [<-|Hne]; [destruct s; reflexivity|].
  symmetry. apply Ascii.eqb_neq. congruence.
Qed.

(** The pattern ":" is found where [strings.Index] finds a colon. *)
Lemma colonRegex_Index (s : string) :
  FindStringSubmatch colonRegex s <> None -> strings.Index s ":" <> None.
Proof.
  unfold FindStringSubmatch. cbn [anchored colonRegex].
  induction s as [|c s IH]; cbn [search strings.Index]; rewrite HasPrefix_colon.
  - intros H. exfalso. apply H. reflexivity.
  - unfold matchHere. cbn [expr colonRegex chr run].
    rewrite (Ascii.eqb_sym ":" c).
    destruct (Ascii.eqb c ":"); [discriminate|].
    intros H. specialize (IH H). destruct (strings.Index s ":"); [discriminate|contradiction].
Qed.

Lemma Split_two (s sep : string) :
  strings.Index s sep <> None -> s <> "" ->
  (2 <= List.length (strings.Split s sep))%nat.
Proof.
  unfold strings.Split. intros Hi Hs.
  destruct s as [|c s]; [contradiction|]. cbn [String.length strings.genSplit].
  destruct (strings.Index (String c s) sep) as [m|]; [|contradiction].
  cbn [List.length]. destruct (String.length s); cbn [strings.genSplit]; [cbn; lia|].
  destruct (strings.Index _ sep); cbn [List.length]; lia.
Qed.

Lemma colonRegex_fields (line : string) :
  FindStringSubmatch colonRegex (strings.ReplaceAll line " " "") <> None ->
  (2 <= List.length (fwumFields line))%nat.
Proof.
  intros H. unfold fwumFields. apply Split_two.
  - apply colonRegex_Index, H.
  - intros E. rewrite E in H. apply H. reflexivity.
Qed.

(** What a firmware line does: it never faults. *)
Lemma splitFwumLine_cases (line : string) (result : list fwumData) (err : error) :
  Gen2.splitFwumLine (result, err) line
  = match FindStringSubmatch colonRegex (strings.ReplaceAll line " " "") with
    | Some _ =>
        let '(value, e) := ParseFloat64 (nth 1 (fwumFields line) "") in
        if negb (isNil e) then Ret (Return (result, e))
        else Ret (Next (append result (mkFwumData (nth 0 (fwumFields line) "") value), e))
    | None => Ret (Next (append result (mkFwumData "" (S754_zero false)), err))
    end.
Proof.
  unfold Gen2.splitFwumLine. fold (fwumFields line).
  destruct (FindStringSubmatch colonRegex (strings.ReplaceAll line " " "")) as [m|] eqn:E;
    [|reflexivity].
  assert (H2 : (2 <= List.length (fwumFields line))%nat)
    by (apply colonRegex_fields; rewrite E; discriminate).
  rewrite (nth_index _ 0 "") by lia. cbn [bind].
  rewrite (nth_index _ 1 "") by lia. cbn [bind]. reflexivity.
Qed.



(** ** What a successful match tells *)

Lemma append_assoc (u v w : string) : (u ++ v) ++ w = u ++ (v ++ w).
Proof. induction u as [|c u IH]; cbn [String.append]; [reflexivity|now rewrite IH]. Qed.

Lemma setNth_length (i : nat) (v : string) (l : list string) :
  List.length (setNth i v l) = List.length l.
Proof.
  revert i. induction l as [|x l IH]; intros [|i]; cbn [setNth List.length]; auto.
Qed.

Section Soundness.

Context {A : Type}.

Lemma starLoop_sound (p : ascii -> bool) (s : string) (k : string -> option A) (x : A) :
  starLoop p s k = Some x ->
  exists u s', s = u ++ s' /\ Matches (Star p) u /\ k s' = Some x.
Proof.
  induction s as [|c s IH]; cbn [starLoop]; intros H.
  - exists "", "". repeat split; [constructor|exact H].
  - destruct (p c) eqn:Hp.
    + destruct (starLoop p s k) as [y|] eqn:Hs.
      * inversion H; subst y. destruct (IH eq_refl) as (u & s' & -> & Hm & Hk).
        exists (String c u), s'. repeat split; [now constructor|exact Hk].
      * exists "", (String c s). repeat split; [constructor|exact H].
    + exists "", (String c s). repeat split; [constructor|exact H].
Qed.

(** A run that succeeds splits the text into what the pattern matches
    and the rest, on which the continuation succeeds, with as many
    groups as it was given. *)
Lemma run_sound (r : re) :
  forall (s : string) (caps : list string) (k : string -> list string -> option A) (x : A),
    run r s caps k = Some x ->
    exists u s' caps',
      s = u ++ s' /\ Matches r u /\ List.length caps' = List.length caps
      /\ k s' caps' = Some x.
Proof.
  induction r as [|p|a IHa b IHb|a IHa b IHb|p|i name a IHa]; intros s caps k x H;
    cbn [run] in H.
  - exists "", s, caps. repeat split; [constructor|exact H].
  - destruct s as [|c s]; [discriminate|]. destruct (p c) eqn:Hp; [|discriminate].
    exists (String c ""), s, caps. repeat split; [now constructor|exact H].
  - destruct (IHa _ _ _ _ H) as (u & s1 & caps1 & -> & Hu & Hl1 & H1).
    destruct (IHb _ _ _ _ H1) as (v & s2 & caps2 & -> & Hv & Hl2 & H2).
    exists (u ++ v), s2, caps2. rewrite append_assoc.
    repeat split; [now constructor|congruence|exact H2].
  - destruct (run a s caps k) as [y|] eqn:Ha.
    + inversion H; subst y. destruct (IHa _ _ _ _ Ha) as (u & s' & caps' & E & Hu & Hl & Hk).
      exists u, s', caps'. repeat split; auto using MAltL.
    + destruct (IHb _ _ _ _ H) as (u & s' & caps' & E & Hu & Hl & Hk).
      exists u, s', caps'. repeat split; auto using MAltR.
  - destruct (starLoop_sound _ _ _ _ H) as (u & s' & E & Hu & Hk).
    exists u, s', caps. repeat split; auto.
  - destruct (IHa _ _ _ _ H) as (u & s' & caps' & E & Hu & Hl & Hk).
    exists u, s', (setNth i (consumed s s') caps').
    repeat split; [exact E|now constructor|now rewrite setNth_length|exact Hk].
Qed.

End Soundness.

Lemma matchHere_sound (r : Regexp) (s : string) (m : list string) :
  matchHere r s = Some m ->
  List.length m = List.length (SubexpNames r)
  /\ exists u s', s = u ++ s' /\ Matches (expr r) u.
Proof.
  unfold matchHere. intros H.
  destruct (run_sound _ _ _ _ _ H) as (u & s' & caps' & E & Hu & Hl & Hk).
  assert (Hm : m = setNth 0 (consumed s s') caps') by (cbv beta in Hk; congruence).
  split.
  - rewrite Hm, setNth_length, Hl. apply length_map.
  - eauto.
Qed.

Lemma search_length (r : Regexp) (s : string) (m : list string) :
  search r s = Some m -> List.length m = List.length (SubexpNames r).
Proof.
  induction s as [|c s IH]; cbn [search]; destruct (matchHere r _) as [m'|] eqn:E; intros H;
    try (inversion H; subst m'; apply (matchHere_sound _ _ _ E)); auto; discriminate.
Qed.

(** [FindStringSubmatch] gives the match and one text per group. *)
Lemma FindStringSubmatch_length (r : Regexp) (s : string) (m : list string) :
  FindStringSubmatch r s = Some m -> List.length m = List.length (SubexpNames r).
Proof.
  unfold FindStringSubmatch. destruct (anchored r).
  - intros H. apply (matchHere_sound _ _ _ H).
  - apply search_length.
Qed.

Lemma anchored_sound (r : Regexp) (s : string) (m : list string) :
  anchored r = true -> FindStringSubmatch r s = Some m ->
  exists u s', s = u ++ s' /\ Matches (expr r) u.
Proof.
  unfold FindStringSubmatch. intros ->. intros H. apply (matchHere_sound _ _ _ H).
Qed.

(** *** Leading white space *)

Lemma skipSpace_star (u : string) (c : ascii) (t : string) :
  Matches (Star space) u -> space c = false -> skipSpace (u ++ String c t) = String c t.
Proof.
  intros Hu Hc. remember (Star space) as r eqn:Er.
  induction Hu; try discriminate Er; inversion Er; subst; cbn [String.append skipSpace].
  - now rewrite Hc.
  - rewrite H. auto.
Qed.

Lemma lit_matches (w : string) : forall u, Matches (lit w) u -> u = w.
Proof.
  induction w as [|c w IH]; intros u H.
  - cbn [lit] in H. now inversion H.
  - destruct w as [|c' w].
    + cbn [lit] in H. unfold chr in H. inversion H as [|p x Hx| | | | | |]; subst.
      apply Ascii.eqb_eq in Hx. now subst.
    + change (lit (String c (String c' w))) with (Cat (chr c) (lit (String c' w))) in H.
      inversion H as [| |a b u1 u2 H1 H2| | | | |]; subst.
      unfold chr in H1. inversion H1 as [|p x Hx| | | | | |]; subst.
      apply Ascii.eqb_eq in Hx. subst x. rewrite (IH _ H2). reflexivity.
Qed.

(** A pattern that is "^", white space, a word and more matches only a
    line that, after its leading white space, starts with the word. *)
Lemma leading_word (c : ascii) (w : string) (rest : re) (s : string) (m : list string) :
  space c = false ->
  FindStringSubmatch (mkRegexp true (Cat (Star space) (Cat (lit (String c w)) rest))) s = Some m ->
  exists t, skipSpace s = String c w ++ t.
Proof.
  intros Hc H. apply anchored_sound in H; [|reflexivity].
  destruct H as (u & s' & -> & Hu).
  cbn [expr] in Hu. inversion Hu as [| |a b u1 u2 H1 H2| | | | |]; subst.
  inversion H2 as [| |a b v1 v2 H3 H4| | | | |]; subst.
  rewrite (lit_matches (String c w) v1 H3).
  exists (v2 ++ s'). rewrite !append_assoc. cbn [String.append].
  apply skipSpace_star; assumption.
Qed.

Lemma dcmiAvg_leading (line : string) (m : list string) :
  FindStringSubmatch dcmiAvgPowerRegex line = Some m -> exists t, skipSpace line = "Average" ++ t.
Proof. intros H. eapply (leading_word "A" "verage"); [reflexivity|exact H]. Qed.

Lemma dcmiInsta_leading (line : string) (m : list string) :
  FindStringSubmatch dcmiInstaPowerRegex line = Some m ->
  exists t, skipSpace line = "Instantaneous" ++ t.
Proof. intros H. eapply (leading_word "I" "nstantaneous"); [reflexivity|exact H]. Qed.

Lemma dcmiMin_leading (line : string) (m : list string) :
  FindStringSubmatch dcmiMinPowerRegex line = Some m -> exists t, skipSpace line = "Minimum" ++ t.
Proof. intros H. eapply (leading_word "M" "inimum"); [reflexivity|exact H]. Qed.

Lemma dcmiMax_leading (line : string) (m : list string) :
  FindStringSubmatch dcmiMaxPowerRegex line = Some m -> exists t, skipSpace line = "Maximum" ++ t.
Proof. intros H. eapply (leading_word "M" "aximum"); [reflexivity|exact H]. Qed.

(** The four DCMI patterns exclude one another. *)
Lemma dcmi_patterns_exclusive (line : string) :
  (Nat.b2n (matched dcmiAvgPowerRegex line) + Nat.b2n (matched dcmiMinPowerRegex line)
   + Nat.b2n (matched dcmiMaxPowerRegex line) + Nat.b2n (matched dcmiInstaPowerRegex line)
   <= 1)%nat.
Proof.
  unfold matched.
  destruct (FindStringSubmatch dcmiAvgPowerRegex line) as [m1|] eqn:H1;
    destruct (FindStringSubmatch dcmiMinPowerRegex line) as [m2|] eqn:H2;
    destruct (FindStringSubmatch dcmiMaxPowerRegex line) as [m3|] eqn:H3;
    destruct (FindStringSubmatch dcmiInstaPowerRegex line) as [m4|] eqn:H4;
    cbn [Nat.b2n Nat.add]; try lia; exfalso;
    try (apply dcmiAvg_leading in H1 as [t1 H1]);
    try (apply dcmiMin_leading in H2 as [t2 H2]);
    try (apply dcmiMax_leading in H3 as [t3 H3]);
    try (apply dcmiInsta_leading in H4 as [t4 H4]);
    cbn [String.append] in *; congruence.
Qed.

(** ** The DCMI power readings *)

Lemma dcmiBlock_adds (re : Regexp) (label line : string) (st : list dcmiPowerData * error) :
  SubexpNames re = [""; "value"] ->
  exists err,
    Gen2.dcmiBlock re label line st = Ret ((fst st ++ dcmiAdded re label line)%list, err).
Proof.
  intros Hn. unfold Gen2.dcmiBlock, dcmiAdded.
  destruct (FindStringSubmatch re line) as [m|] eqn:E.
  - pose proof (FindStringSubmatch_length _ _ _ E) as Hl. rewrite Hn in *.
    destruct m as [|whole [|v [|x m]]]; try discriminate Hl.
    cbn [Gen2.dcmiValues String.eqb Ascii.eqb Bool.eqb negb index nth_error bind nth].
    destruct (ParseFloat64 v) as [value [e|]]; cbn [isNil negb Gen2.dcmiValues].
    + exists (Some e). now rewrite app_nil_r.
    + exists None. reflexivity.
  - exists (snd st). rewrite app_nil_r. now destruct st.
Qed.

(** A line of splitDcmiPowerOutput never faults and never leaves the
    loop. *)
Lemma splitDcmiPowerLine_adds (line : string) (st : list dcmiPowerData * error) :
  exists err,
    Gen2.splitDcmiPowerLine st line = Ret (Next ((fst st ++ dcmiLineRecords line)%list, err)).
Proof.
  unfold Gen2.splitDcmiPowerLine, dcmiLineRecords. destruct (0 <? len line).
  - destruct (dcmiBlock_adds dcmiAvgPowerRegex "Avg power consumption" line st eq_refl)
      as [e1 ->]. cbn [bind].
    destruct (dcmiBlock_adds dcmiMinPowerRegex "Min power consumption" line
                (fst st ++ dcmiAdded dcmiAvgPowerRegex "Avg power consumption" line, e1)%list
                eq_refl) as [e2 ->]. cbn [bind fst].
    match goal with
    | |- context [Gen2.dcmiBlock dcmiMaxPowerRegex ?l line ?s] =>
        destruct (dcmiBlock_adds dcmiMaxPowerRegex l line s eq_refl) as [e3 ->]
    end. cbn [bind fst].
    match goal with
    | |- context [Gen2.dcmiBlock dcmiInstaPowerRegex ?l line ?s] =>
        destruct (dcmiBlock_adds dcmiInstaPowerRegex l line s eq_refl) as [e4 ->]
    end. cbn [bind fst].
    exists e4. now rewrite <- !app_assoc.
  - exists (snd st). rewrite app_nil_r. now destruct st.
Qed.

Lemma dcmi_emits (line : string) : emits Gen2.splitDcmiPowerLine line = dcmiLineRecords line.
Proof.
  unfold emits. destruct (splitDcmiPowerLine_adds line ([], None)) as [e ->]. reflexivity.
Qed.

Lemma splitDcmiPowerLine_appends :
  forall result err line c,
    Gen2.splitDcmiPowerLine (result, err) line = Ret c ->
    fst (after c) = (result ++ emits Gen2.splitDcmiPowerLine line)%list.
Proof.
  intros result err line c H. rewrite dcmi_emits.
  destruct (splitDcmiPowerLine_adds line (result, err)) as [e E]. rewrite E in H.
  inversion H. reflexivity.
Qed.

Lemma splitDcmiPowerLine_goes_on :
  forall st line c, Gen2.splitDcmiPowerLine st line = Ret c -> exists st', c = Next st'.
Proof.
  intros st line c H. destruct (splitDcmiPowerLine_adds line st) as [e E]. rewrite E in H.
  inversion H. eauto.
Qed.

Lemma dcmi_forScan_returns (lines : list string) :
  forall st, exists st', forScan Gen2.splitDcmiPowerLine lines st = Ret (inl st').
Proof.
  induction lines as [|line rest IH]; intros st; cbn [forScan].
  - eauto.
  - destruct (splitDcmiPowerLine_adds line st) as [e ->]. apply IH.
Qed.

(** splitDcmiPowerOutput returns on every input: the records its lines
    add, in the order of the lines. *)
Lemma splitDcmiPowerOutput_returns (output : string) :
  exists err,
    Gen2.splitDcmiPowerOutput output
    = Ret (flat_map (emits Gen2.splitDcmiPowerLine) (bufio.Lines output), err).
Proof.
  unfold Gen2.splitDcmiPowerOutput.
  destruct (dcmi_forScan_returns (bufio.Lines output) ([], None)) as [[recs err] H].
  assert (E : scanAll Gen2.splitDcmiPowerLine output = Ret (recs, err))
    by (unfold scanAll; rewrite H; reflexivity).
  exists err. rewrite E. f_equal. f_equal.
  apply (scanAll_all_lines _ splitDcmiPowerLine_appends splitDcmiPowerLine_goes_on _ _ _ E).
Qed.

Lemma dcmiAdded_length (re : Regexp) (label line : string) :
  (List.length (dcmiAdded re label line) <= Nat.b2n (matched re line))%nat.
Proof.
  unfold dcmiAdded, matched. destruct (FindStringSubmatch re line); [|cbn; lia].
  destruct (ParseFloat64 _) as [v e]. destruct (isNil e); cbn; lia.
Qed.

Lemma dcmi_line_length (line : string) :
  (List.length (emits Gen2.splitDcmiPowerLine line) <= dcmiMatches line)%nat.
Proof.
  rewrite dcmi_emits. unfold dcmiLineRecords, dcmiMatches.
  destruct (0 <? len line); [|cbn; lia].
  rewrite !length_app.
  pose proof (dcmiAdded_length dcmiAvgPowerRegex "Avg power consumption" line).
  pose proof (dcmiAdded_length dcmiMinPowerRegex "Min power consumption" line).
  pose proof (dcmiAdded_length dcmiMaxPowerRegex "Max power consumption" line).
  pose proof (dcmiAdded_length dcmiInstaPowerRegex "Instantaneous power consumption" line).
  lia.
Qed.


(** ** The other listings, line by line *)

Lemma splitFwumLine_appends :
  forall result err line c,
    Gen2.splitFwumLine (result, err) line = Ret c ->
    fst (after c) = (result ++ emits Gen2.splitFwumLine line)%list.
Proof.
  intros result err line c H. unfold emits. rewrite splitFwumLine_cases in *.
  along H; returned; cbn [after fst append List.app]; try reflexivity; now rewrite app_nil_r.
Qed.

Lemma splitBmcLine_appends :
  forall result err line c,
    Gen2.splitBmcLine (result, err) line = Ret c ->
    fst (after c) = (result ++ emits Gen2.splitBmcLine line)%list.
Proof.
  intros result err line c H. unfold emits, Gen2.splitBmcLine, Gen2.captured in *.
  along H; returned; cbn [after fst append List.app]; try reflexivity; now rewrite app_nil_r.
Qed.

Lemma splitFruLine_appends :
  forall result err line c,
    Gen2.splitFruLine (result, err) line = Ret c ->
    fst (after c) = (result ++ emits Gen2.splitFruLine line)%list.
Proof.
  intros result err line c H. unfold emits, Gen2.splitFruLine, Gen2.captured in *.
  along H; returned; cbn [after fst append List.app]; try reflexivity; now rewrite app_nil_r.
Qed.

Lemma splitLANLine_appends :
  forall result err line c,
    Gen2.splitLANLine (result, err) line = Ret c ->
    fst (after c) = (result ++ emits Gen2.splitLANLine line)%list.
Proof.
  intros result err line c H. unfold emits, Gen2.splitLANLine, Gen2.captured in *.
  along H; returned; cbn [after fst append List.app]; try reflexivity; now rewrite app_nil_r.
Qed.

(** Each line adds at most one record. *)
Lemma sensor_line_length (line : string) :
  (List.length (emits Gen2.splitSensorLine line) <= 1)%nat.
Proof.
  unfold emits. destruct (Gen2.splitSensorLine ([], None) line) as [c|p] eqn:H; [|cbn; lia].
  unfold Gen2.splitSensorLine in H. along H; returned; cbn; lia.
Qed.

Lemma fwum_line_length (line : string) :
  (List.length (emits Gen2.splitFwumLine line) <= 1)%nat.
Proof.
  unfold emits. destruct (Gen2.splitFwumLine ([], None) line) as [c|p] eqn:H; [|cbn; lia].
  rewrite splitFwumLine_cases in H. along H; returned; cbn; lia.
Qed.

Lemma bmc_line_length (line : string) :
  (List.length (emits Gen2.splitBmcLine line) <= 1)%nat.
Proof.
  unfold emits. destruct (Gen2.splitBmcLine ([], None) line) as [c|p] eqn:H; [|cbn; lia].
  unfold Gen2.splitBmcLine, Gen2.captured in H. along H; returned; cbn; lia.
Qed.

Lemma fru_line_length (line : string) :
  (List.length (emits Gen2.splitFruLine line) <= 1)%nat.
Proof.
  unfold emits. destruct (Gen2.splitFruLine ([], None) line) as [c|p] eqn:H; [|cbn; lia].
  unfold Gen2.splitFruLine, Gen2.captured in H. along H; returned; cbn; lia.
Qed.

Lemma lan_line_length (line : string) :
  (List.length (emits Gen2.splitLANLine line) <= 1)%nat.
Proof.
  unfold emits. destruct (Gen2.splitLANLine ([], None) line) as [c|p] eqn:H; [|cbn; lia].
  unfold Gen2.splitLANLine, Gen2.captured in H. along H; returned; cbn; lia.
Qed.

Lemma dcmi_line_at_most_one (line : string) :
  (List.length (emits Gen2.splitDcmiPowerLine line) <= 1)%nat.
Proof.
  pose proof (dcmi_line_length line). pose proof (dcmi_patterns_exclusive line).
  unfold dcmiMatches in *. lia.
Qed.

(** *** Empty lines *)

Lemma sensor_skips_empty : skipsEmptyLines Gen2.splitSensorOutput.
Proof.
  intros output output' pre post. apply scanAll_skip. intros [result err]. reflexivity.
Qed.

Lemma dcmi_skips_empty : skipsEmptyLines Gen2.splitDcmiPowerOutput.
Proof.
  intros output output' pre post. apply scanAll_skip. intros st. reflexivity.
Qed.

Lemma bmc_skips_empty : skipsEmptyLines Gen2.splitBmcOutput.
Proof.
  intros output output' pre post. apply scanAll_skip. intros [result err]. reflexivity.
Qed.

Lemma fru_skips_empty : skipsEmptyLines Gen2.splitFruOutput.
Proof.
  intros output output' pre post. apply scanAll_skip. intros [result err]. reflexivity.
Qed.

Lemma lan_skips_empty : skipsEmptyLines Gen2.splitLANOutput.
Proof.
  intros output output' pre post. apply scanAll_skip. intros [result err]. reflexivity.
Qed.

(** splitFwumOutput has no test for an empty line: it adds a record with
    an empty name and the value 0, as for every line without a colon. *)
Lemma fwum_empty_line (result : list fwumData) (err : error) :
  Gen2.splitFwumLine (result, err) ""
  = Ret (Next (append result (mkFwumData "" (S754_zero false)), err)).
Proof. reflexivity. Qed.

Lemma fwum_no_colon (line : string) (result : list fwumData) (err : error) :
  FindStringSubmatch colonRegex (strings.ReplaceAll line " " "") = None ->
  Gen2.splitFwumLine (result, err) line
  = Ret (Next (append result (mkFwumData "" (S754_zero false)), err)).
Proof. intros H. rewrite splitFwumLine_cases, H. reflexivity. Qed.

(** ** The claims on whole calls *)



Lemma line_order {T : Type}
      (body : list T * error -> string -> go (step (list T * error) (list T * error))) :
  (forall line, (List.length (emits body line) <= 1)%nat) ->
  (forall result err line c,
      body (result, err) line = Ret c -> fst (after c) = (result ++ emits body line)%list) ->
  inLineOrder body (scanAll body).
Proof.
  intros Hone Happ. split; [exact Hone|].
  intros output recs err. apply scanAll_in_order, Happ.
Qed.

(** C8, as the code has it.  splitSensorOutput, splitFruOutput,
    splitBmcOutput, splitLANOutput and splitDcmiPowerOutput pass over an
    empty line: the outcome is that of the input without it.
    splitFwumOutput does not: an empty line, like every line without a
    colon, adds a record with an empty name and the value 0.  In all six
    the records returned are what the lines add, at most one record a line,
    in the order of the lines, up to the line at which the loop was left. *)
Theorem C8_empty_lines_and_line_order :
  (skipsEmptyLines Gen2.splitSensorOutput
   /\ skipsEmptyLines Gen2.splitFruOutput
   /\ skipsEmptyLines Gen2.splitBmcOutput
   /\ skipsEmptyLines Gen2.splitLANOutput
   /\ skipsEmptyLines Gen2.splitDcmiPowerOutput)
  /\ (forall (result : list fwumData) (err : error),
         Gen2.splitFwumLine (result, err) ""
         = Ret (Next (append result (mkFwumData "" (S754_zero false)), err)))
  /\ (inLineOrder Gen2.splitSensorLine Gen2.splitSensorOutput
      /\ inLineOrder Gen2.splitFwumLine Gen2.splitFwumOutput
      /\ inLineOrder Gen2.splitFruLine Gen2.splitFruOutput
      /\ inLineOrder Gen2.splitBmcLine Gen2.splitBmcOutput
      /\ inLineOrder Gen2.splitLANLine Gen2.splitLANOutput
      /\ inLineOrder Gen2.splitDcmiPowerLine Gen2.splitDcmiPowerOutput).
Proof.
  split; [|split].
  - auto using sensor_skips_empty, fru_skips_empty, bmc_skips_empty, lan_skips_empty,
      dcmi_skips_empty.
  - exact fwum_empty_line.
  - refine (conj _ (conj _ (conj _ (conj _ (conj _ _))))).
    + apply line_order; [exact sensor_line_length | exact splitSensorLine_appends].
    + apply line_order; [exact fwum_line_length | exact splitFwumLine_appends].
    + apply line_order; [exact fru_line_length | exact splitFruLine_appends].
    + apply line_order; [exact bmc_line_length | exact splitBmcLine_appends].
    + apply line_order; [exact lan_line_length | exact splitLANLine_appends].
    + apply line_order; [exact dcmi_line_at_most_one | exact splitDcmiPowerLine_appends].
Qed.

Lemma C8_empty_lines_and_line_order_witness :
  Gen2.splitSensorOutput (unlines ["CPU1 Temp | 31.000 | degrees C | ok"; "";
                                   "FAN2 | 4200 | RPM | ok"])
  = Gen2.splitSensorOutput (unlines ["CPU1 Temp | 31.000 | degrees C | ok";
                                     "FAN2 | 4200 | RPM | ok"])
  /\ exists n,
      [mkBmcData "FirmwareRevision" "3.76"; mkBmcData "Manufacturer" "Supermicro"]
      = flat_map (emits Gen2.splitBmcLine)
                 (firstn n (bufio.Lines (unlines ["Firmware Revision         : 3.76";
                                                  "Manufacturer Name         : Supermicro";
                                                  "IPMI Version              : 2.0"]))).
Proof.
  destruct C8_empty_lines_and_line_order
    as [[Hsensor _] [_ [_ [_ [_ [[_ Hbmc] _]]]]]].
  split.
  - apply (Hsensor _ _ ["CPU1 Temp | 31.000 | degrees C | ok"] ["FAN2 | 4200 | RPM | ok"]);
      vm_compute; reflexivity.
  - apply (Hbmc _ _ None). vm_compute. reflexivity.
Defined.

(** C8 as the spec states it fails for splitFwumOutput: the empty second
    line of this input adds a record. *)
Lemma C8_fwum_keeps_empty_lines :
  bufio.Lines (unlines ["Board Id : 2130"; ""; "Firmware Revision : 3.76"])
  = ["Board Id : 2130"; ""; "Firmware Revision : 3.76"]
  /\ Gen2.splitFwumOutput (unlines ["Board Id : 2130"; ""; "Firmware Revision : 3.76"])
     = Ret ([mkFwumData "BoardId" (float64_of_uint64 2130);
             mkFwumData "" (S754_zero false);
             mkFwumData "FirmwareRevision" (S754_finite false 8466767299456532 (-51))], None)
  /\ Gen2.splitFwumOutput (unlines ["Board Id : 2130"; ""; "Firmware Revision : 3.76"])
     <> Gen2.splitFwumOutput (unlines ["Board Id : 2130"; "Firmware Revision : 3.76"]).
Proof.
  repeat split; try (vm_compute; reflexivity). vm_compute. discriminate.
Qed.




(** ** Lines the parsers index without a check *)

Lemma chassisPowerLine_not_on (line : string) (err : error) :
  powerLineNotOn line -> Gen2.chassisPowerLine err line = Ret (Next err).
Proof.
  intros [->|(m & Hm & Hv)]; [reflexivity|].
  unfold Gen2.chassisPowerLine. destruct (0 <? len line); [|reflexivity].
  rewrite Hm. pose proof (FindStringSubmatch_length _ _ _ Hm) as Hl.
  destruct m as [|whole [|v [|x m]]]; try discriminate Hl.
  cbn [at_ index nth_error bind nth] in *.
  destruct (String.eqb_spec v "on"); [contradiction|reflexivity].
Qed.

(** What C2 gets right: when every line is empty or matches with a value
    other than "on", the answer is 0 and a nil error. *)
Lemma getChassisPowerState_default (output : string) :
  Forall powerLineNotOn (bufio.Lines output) ->
  Gen2.getChassisPowerState output = Ret (0, None).
Proof.
  unfold Gen2.getChassisPowerState. intros H.
  induction H as [|line rest Hl _ IH]; cbn [forScan bind].
  - reflexivity.
  - rewrite (chassisPowerLine_not_on _ _ Hl). exact IH.
Qed.

(** A line that is not empty and that the pattern does not match: the
    submatch slice is nil and its element 1 is read. *)
Lemma chassisPowerLine_unmatched (line : string) (err : error) :
  (0 <? len line) = true ->
  FindStringSubmatch ipmiCurrentPowerRegex line = None ->
  Gen2.chassisPowerLine err line = Fault (IndexOutOfRange 1 0).
Proof.
  intros Hlen Hm. unfold Gen2.chassisPowerLine. rewrite Hlen, Hm. reflexivity.
Qed.

Lemma getChassisPowerState_faults (output : string) (pre post : list string) (line : string) :
  bufio.Lines output = (pre ++ line :: post)%list ->
  Forall powerLineNotOn pre ->
  (0 <? len line) = true ->
  FindStringSubmatch ipmiCurrentPowerRegex line = None ->
  Gen2.getChassisPowerState output = Fault (IndexOutOfRange 1 0).
Proof.
  unfold Gen2.getChassisPowerState. intros -> Hpre Hlen Hm.
  induction Hpre as [|l pre Hl _ IH]; cbn [forScan bind List.app].
  - rewrite (chassisPowerLine_unmatched _ _ Hlen Hm). reflexivity.
  - rewrite (chassisPowerLine_not_on _ _ Hl). exact IH.
Qed.

(** C2 fails on the code.  The inputs have a line the pattern does not
    match (a message of ipmitool, alone or in front of the status line);
    both generations of getChassisPowerState fault on it with an index out
    of range, instead of returning the default 0 with a nil error. *)
Theorem C2_unmatched_line_faults :
  FindStringSubmatch ipmiCurrentPowerRegex "Unable to get Chassis Power Status" = None
  /\ Gen2.getChassisPowerState "Unable to get Chassis Power Status"
     = Fault (IndexOutOfRange 1 0)
  /\ Gen1.getChassisPowerState "Unable to get Chassis Power Status"
     = Fault (IndexOutOfRange 1 0)
  /\ Gen2.getChassisPowerState "Unable to get Chassis Power Status" <> Ret (0, None)
  /\ Gen2.getChassisPowerState
       (unlines ["Get Auth Capabilities error"; "Chassis Power is off"])
     = Fault (IndexOutOfRange 1 0).
Proof.
  repeat split; try (vm_compute; reflexivity). vm_compute. discriminate.
Qed.

Lemma Split_one (s sep : string) : strings.Index s sep = None -> strings.Split s sep = [s].
Proof.
  unfold strings.Split. intros H. destruct (String.length s); cbn [strings.genSplit];
    [reflexivity|]. rewrite H. reflexivity.
Qed.

(** A sensor line without "|" has one field; the value field is read at
    index 1. *)
Lemma splitSensorLine_one_field (line : string) (st : list sensorData * error) :
  (0 <? len line) = true ->
  strings.Index (strings.ReplaceAll line " " "") "|" = None ->
  Gen2.splitSensorLine st line = Fault (IndexOutOfRange 1 1).
Proof.
  intros Hlen Hi. destruct st as [result err]. unfold Gen2.splitSensorLine.
  rewrite Hlen, (Split_one _ _ Hi). reflexivity.
Qed.

(** A FRU line without ":" has one field; the value is read at index 1. *)
Lemma splitFruLine_one_field (line : string) (st : list fruData * error) :
  (0 <? len line) = true ->
  FindStringSubmatch fruBoardDateRegex line = None ->
  strings.Index (strings.ReplaceAll line " " "") ":" = None ->
  Gen2.splitFruLine st line = Fault (IndexOutOfRange 1 1).
Proof.
  intros Hlen Hm Hi. destruct st as [result err]. unfold Gen2.splitFruLine.
  rewrite Hlen, Hm, (Split_one _ _ Hi). reflexivity.
Qed.

(** C4 fails on the code.  Neither parser checks the number of fields: a
    sensor line of one, two or three fields and a FRU line without a colon
    end the call with an index out of range, in both generations; no
    error value is returned and the records read so far are lost. *)
Theorem C4_short_line_faults :
  Gen2.splitSensorOutput "Get Device ID command failed" = Fault (IndexOutOfRange 1 1)
  /\ Gen2.splitSensorOutput "FAN1 | 4200" = Fault (IndexOutOfRange 2 2)
  /\ Gen2.splitSensorOutput "FAN1 | 4200 | RPM" = Fault (IndexOutOfRange 3 3)
  /\ Gen2.splitSensorOutput (unlines ["CPU1 Temp | 31.000 | degrees C | ok"; "FAN1 | 4200 | RPM"])
     = Fault (IndexOutOfRange 3 3)
  /\ Gen2.splitFruOutput "Device not present (Requested sensor, data, or record not found)"
     = Fault (IndexOutOfRange 1 1)
  /\ Gen1.splitSensorOutput "FAN1 | 4200 | RPM" = Fault (IndexOutOfRange 3 3)
  /\ Gen1.splitFruOutput "Device not present (Requested sensor, data, or record not found)"
     = Fault (IndexOutOfRange 1 1).
Proof.
  repeat split; vm_compute; reflexivity.
Qed.

(** A short sensor line whose value does not convert is left by
    [continue] before the missing fields are read. *)
Example short_line_skipped :
  Gen2.splitSensorOutput "FAN1 | n/a" = Ret ([], syntaxError "ParseFloat" "n/a").
Proof. vm_compute. reflexivity. Qed.

(** * Further properties of the parsers *)

(** ** When splitSensorOutput and splitFruOutput return *)

Lemma index_fault {A : Type} (l : list A) (i : nat) :
  (List.length l <= i)%nat -> index l i = Fault (IndexOutOfRange i (List.length l)).
Proof.
  intros H. unfold index. apply nth_error_None in H. rewrite H. reflexivity.
Qed.

Lemma forScan_returns_iff {S R : Type} (body : S -> string -> go (step S R))
      (ok : string -> bool) :
  (forall s line, (exists s', body s line = Ret (Next s')) <-> ok line = true) ->
  (forall s line, ok line = false -> exists p, body s line = Fault p) ->
  forall lines s,
    (exists r, forScan body lines s = Ret r) <-> Forall (fun l => ok l = true) lines.
Proof.
  intros Hok Hbad lines. induction lines as [|line rest IH]; intros s; cbn [forScan].
  - split; [constructor|eauto].
  - destruct (ok line) eqn:E.
    + destruct (proj2 (Hok s line) E) as [s' ->]. rewrite IH.
      split; [now constructor|now inversion 1].
    + destruct (Hbad s line E) as [p ->].
      split; [intros [r H]; discriminate H|].
      inversion 1; congruence.
Qed.



Lemma captured_returns {T : Type} (mk : string -> T) (re : Regexp) (line : string)
      (m : list string) (result : list T) :
  SubexpNames re = [""; "value"] ->
  FindStringSubmatch re line = Some m ->
  Gen2.captured mk re m result = Ret (append result (mk (nth 1 m ""))).
Proof.
  intros Hn Hm. pose proof (FindStringSubmatch_length _ _ _ Hm) as Hl. rewrite Hn in *.
  destruct m as [|whole [|v [|x m]]]; try discriminate Hl.
  unfold Gen2.captured. rewrite Hn. reflexivity.
Qed.

Lemma splitFruLine_returns (st : list fruData * error) (line : string) :
  if fruLineReturns line
  then exists result', Gen2.splitFruLine st line = Ret (Next (result', snd st))
  else exists p, Gen2.splitFruLine st line = Fault p.
Proof.
  destruct st as [result err].
  unfold fruLineReturns, matched, Gen2.splitFruLine. fold (fwumFields line).
  destruct (0 <? len line); cbn [negb orb snd]; [|eauto].
  destruct (FindStringSubmatch fruBoardDateRegex line) as [m|] eqn:Hm; cbn [orb].
  - rewrite (captured_returns _ fruBoardDateRegex _ _ _ eq_refl Hm). cbn [bind]. eauto.
  - assert (H0 : (1 <= List.length (fwumFields line))%nat).
    { unfold fwumFields, strings.Split.
      destruct (String.length _); cbn [strings.genSplit]; [cbn; lia|].
      destruct (strings.Index _ _); cbn; lia. }
    rewrite (nth_index _ 0 "") by lia. cbn [bind].
    destruct (Z.leb_spec 2 (Z.of_nat (List.length (fwumFields line)))) as [H2|H2].
    + rewrite (nth_index _ 1 "") by lia. cbn [bind]. eauto.
    + rewrite (index_fault _ 1) by lia. cbn [bind]. eauto.
Qed.

Lemma fru_forScan_error (lines : list string) :
  forall (result : list fruData) (err : error) r,
    forScan Gen2.splitFruLine lines (result, err) = Ret r -> snd (outcome r) = err.
Proof.
  induction lines as [|line rest IH]; intros result err r; cbn [forScan].
  - intros H. inversion H. reflexivity.
  - pose proof (splitFruLine_returns (result, err) line) as Hl.
    destruct (fruLineReturns line).
    + destruct Hl as [result' ->]. apply IH.
    + destruct Hl as [p ->]. discriminate.
Qed.

Lemma splitFruOutput_error_nil (output : string) (recs : list fruData) (err : error) :
  Gen2.splitFruOutput output = Ret (recs, err) -> err = None.
Proof.
  unfold Gen2.splitFruOutput. rewrite scanAll_outcome.
  destruct (forScan _ _ _) as [r|p] eqn:Hf; [|discriminate].
  cbn [bind]. intros H. inversion H as [Ho].
  pose proof (fru_forScan_error _ _ _ _ Hf) as He. rewrite Ho in He. exact He.
Qed.

(** X2.  splitFruOutput returns exactly when every line of the input is
    empty, or is matched by the board-date pattern, or has a colon (two
    fields or more once its blanks are removed); and when it returns its
    error is nil. *)
Theorem X2_fru_returns_iff :
  forall output : string,
    ((exists recs err, Gen2.splitFruOutput output = Ret (recs, err))
     <-> Forall (fun line => fruLineReturns line = true) (bufio.Lines output))
    /\ (forall recs err, Gen2.splitFruOutput output = Ret (recs, err) -> err = None).
Proof.
  intros output. split.
  - rewrite <- (forScan_returns_iff Gen2.splitFruLine fruLineReturns) with (s := ([], None)).
    + unfold Gen2.splitFruOutput. rewrite scanAll_outcome.
      split.
      * intros (recs & err & H).
        destruct (forScan _ _ _) as [r|p]; [eauto|discriminate H].
      * intros [r H]. rewrite H. cbn [bind]. destruct (outcome r) as [recs err]. eauto.
    + intros s line. pose proof (splitFruLine_returns s line) as H.
      destruct (fruLineReturns line).
      * destruct H as [result' H]. split; eauto.
      * destruct H as [p H]. split; [|discriminate]. intros [s' H']. congruence.
    + intros s line E. pose proof (splitFruLine_returns s line) as H. rewrite E in H. exact H.
  - apply splitFruOutput_error_nil.
Qed.

(** ** Loops that stop at a line *)

Lemma forScan_upTo {T : Type}
      (body : list T * error -> string -> go (step (list T * error) (list T * error)))
      (stop : string -> bool) (records : string -> list T) :
  (forall result err line,
      body (result, err) line
      = Ret ((if stop line then Break else Next) ((result ++ records line)%list, err))) ->
  forall lines result err,
    r <- forScan body lines (result, err) ;; Ret (outcome r)
    = Ret ((result ++ flat_map records (upTo stop lines))%list, err).
Proof.
  intros Hb lines. induction lines as [|line rest IH]; intros result err; cbn [forScan upTo].
  - cbn. now rewrite app_nil_r.
  - rewrite Hb. destruct (stop line).
    + cbn. now rewrite app_nil_r.
    + rewrite IH. cbn [flat_map]. now rewrite app_assoc.
Qed.

Lemma len_zero (line : string) : (0 <? len line) = false -> line = "".
Proof.
  destruct line; [reflexivity|]. intros H. apply Z.ltb_ge in H.
  unfold len in H. cbn [String.length] in H. lia.
Qed.

(** ** Patterns that start with a word *)

Lemma Matches_Cat (a b : re) (u : string) :
  Matches (Cat a b) u -> exists u1 u2, u = u1 ++ u2 /\ Matches a u1 /\ Matches b u2.
Proof. inversion 1; subst; eauto. Qed.


Lemma anchored_word (c : ascii) (w : string) (rest : re) (s : string) (m : list string) :
  FindStringSubmatch (mkRegexp true (Cat (lit (String c w)) rest)) s = Some m ->
  exists t, s = String c w ++ t.
Proof.
  intros H. apply anchored_sound in H; [|reflexivity].
  destruct H as (u & s' & -> & Hu). cbn [expr] in Hu.
  apply Matches_Cat in Hu as (u1 & u2 & -> & H1 & H2).
  rewrite (lit_matches _ _ H1). exists (u2 ++ s'). now rewrite append_assoc.
Qed.

Lemma manufacturer_word (line : string) (m : list string) :
  FindStringSubmatch manufacturerRegex line = Some m -> exists t, line = "Manufacturer" ++ t.
Proof. intros H. eapply (anchored_word "M" "anufacturer"). exact H. Qed.




(** ** splitBmcOutput and splitLANOutput *)

(** A line the last pattern of a parser matches is matched by none of
    the patterns tried before it. *)
Lemma manufacturer_only (line : string) (m : list string) :
  FindStringSubmatch manufacturerRegex line = Some m ->
  FindStringSubmatch firmwareRevRegex line = None
  /\ FindStringSubmatch ipmiVersionRegex line = None.
Proof.
  intros H. apply manufacturer_word in H as [t ->]. split; reflexivity.
Qed.


Lemma splitBmcLine_step (result : list bmcData) (err : error) (line : string) :
  Gen2.splitBmcLine (result, err) line
  = Ret ((if matched manufacturerRegex line then Break else Next)
           ((result ++ bmcLineRecords line)%list, err)).
Proof.
  unfold Gen2.splitBmcLine, bmcLineRecords, matched.
  destruct (0 <? len line) eqn:E0.
  - destruct (FindStringSubmatch firmwareRevRegex line) as [m1|] eqn:H1.
    { rewrite (captured_returns _ firmwareRevRegex _ _ _ eq_refl H1). cbn [bind].
      destruct (FindStringSubmatch manufacturerRegex line) as [m3|] eqn:H3;
        [destruct (manufacturer_only _ _ H3); congruence|].
      reflexivity. }
    destruct (FindStringSubmatch ipmiVersionRegex line) as [m2|] eqn:H2.
    { rewrite (captured_returns _ ipmiVersionRegex _ _ _ eq_refl H2). cbn [bind].
      destruct (FindStringSubmatch manufacturerRegex line) as [m3|] eqn:H3;
        [destruct (manufacturer_only _ _ H3); congruence|].
      reflexivity. }
    destruct (FindStringSubmatch manufacturerRegex line) as [m3|] eqn:H3.
    { rewrite (captured_returns _ manufacturerRegex _ _ _ eq_refl H3). reflexivity. }
    now rewrite app_nil_r.
  - apply len_zero in E0 as ->. cbn. now rewrite app_nil_r.
Qed.



(** X3.  splitBmcOutput never faults and never returns an error: its
    records are those of the lines up to the first one the
    "Manufacturer Name" pattern matches, that line included, one record for
    each line that one of the three patterns matches, in the order of the
    lines; what follows that line is not read. *)
Theorem X3_bmc_output :
  forall output : string,
    Gen2.splitBmcOutput output
    = Ret (flat_map bmcLineRecords (upTo (matched manufacturerRegex) (bufio.Lines output)),
           None).
Proof.
  intros output. unfold Gen2.splitBmcOutput. rewrite scanAll_outcome.
  apply (forScan_upTo Gen2.splitBmcLine (matched manufacturerRegex) bmcLineRecords
                      splitBmcLine_step (bufio.Lines output) [] None).
Qed.



(** ** splitFwumOutput *)

Lemma splitFwumLine_step (result : list fwumData) (err : error) (line : string) :
  Gen2.splitFwumLine (result, err) line
  = if fwumConversionError line
    then Ret (Return (result, snd (ParseFloat64 (nth 1 (fwumFields line) ""))))
    else Ret (Next (append result (fwumLineRecord line),
                    match FindStringSubmatch colonRegex (strings.ReplaceAll line " " "") with
                    | Some _ => None
                    | None => err
                    end)).
Proof.
  rewrite splitFwumLine_cases. unfold fwumConversionError, fwumLineRecord.
  destruct (FindStringSubmatch colonRegex _); [|reflexivity].
  destruct (ParseFloat64 _) as [value [e|]]; reflexivity.
Qed.

Lemma fwum_forScan (lines : list string) :
  forall result : list fwumData,
    r <- forScan Gen2.splitFwumLine lines (result, None) ;; Ret (outcome r)
    = Ret ((result ++ map fwumLineRecord (before fwumConversionError lines))%list,
           firstFwumError lines).
Proof.
  induction lines as [|line rest IH]; intros result; cbn [forScan before firstFwumError map].
  - cbn. now rewrite app_nil_r.
  - rewrite splitFwumLine_step. destruct (fwumConversionError line).
    + cbn. now rewrite app_nil_r.
    + assert (E : match FindStringSubmatch colonRegex (strings.ReplaceAll line " " "") with
                  | Some _ => None
                  | None => @None NumError
                  end = None) by (destruct (FindStringSubmatch _ _); reflexivity).
      rewrite E. unfold append. rewrite IH. now rewrite <- app_assoc.
Qed.

Lemma firstFwumError_nil (lines : list string) :
  firstFwumError lines = None <-> Forall (fun l => fwumConversionError l = false) lines.
Proof.
  induction lines as [|line rest IH]; cbn [firstFwumError].
  - split; [constructor|reflexivity].
  - destruct (fwumConversionError line) eqn:E.
    + split.
      * intros H. unfold fwumConversionError in E.
        destruct (FindStringSubmatch _ _); [|discriminate E].
        rewrite H in E. discriminate E.
      * inversion 1. congruence.
    + rewrite IH. split; [now constructor|now inversion 1].
Qed.

Lemma before_all (stop : string -> bool) (lines : list string) :
  Forall (fun l => stop l = false) lines -> before stop lines = lines.
Proof.
  induction 1 as [|l ls Hl _ IH]; cbn [before]; [reflexivity|]. now rewrite Hl, IH.
Qed.

(** X5.  splitFwumOutput never faults.  It returns one record for every
    line before the first line with a colon whose second field ParseFloat
    rejects, and the error of that line; its error is nil exactly when
    there is no such line, and then there are as many records as lines,
    empty lines and lines without a colon included. *)
Theorem X5_fwum_output :
  forall output : string,
    Gen2.splitFwumOutput output
    = Ret (map fwumLineRecord (before fwumConversionError (bufio.Lines output)),
           firstFwumError (bufio.Lines output))
    /\ (firstFwumError (bufio.Lines output) = None
        <-> Forall (fun l => fwumConversionError l = false) (bufio.Lines output))
    /\ (firstFwumError (bufio.Lines output) = None ->
        List.length (map fwumLineRecord (before fwumConversionError (bufio.Lines output)))
        = List.length (bufio.Lines output)).
Proof.
  intros output. split; [|split].
  - unfold Gen2.splitFwumOutput. rewrite scanAll_outcome. apply (fwum_forScan _ []).
  - apply firstFwumError_nil.
  - intros H. apply firstFwumError_nil in H. rewrite length_map, before_all; auto.
Qed.

(** ** The chassis power state *)

Lemma power_line_cases (line : string) (err : error) (c : step error (Z * error)) :
  Gen2.chassisPowerLine err line = Ret c ->
  (c = Next err /\ powerLineNotOn line) \/ (c = Return (1, err) /\ powerLineOn line).
Proof.
  unfold Gen2.chassisPowerLine, powerLineNotOn, powerLineOn.
  destruct (0 <? len line) eqn:E0.
  - destruct (FindStringSubmatch ipmiCurrentPowerRegex line) as [m|] eqn:Hm; cbn [at_].
    + pose proof (FindStringSubmatch_length _ _ _ Hm) as Hl.
      destruct m as [|whole [|v [|x m]]]; try discriminate Hl.
      cbn [index nth_error bind nth].
      destruct (String.eqb v "on") eqn:Ev; intros H; inversion H; subst.
      * right. split; [reflexivity|]. apply String.eqb_eq in Ev. eauto.
      * left. split; [reflexivity|]. right. apply String.eqb_neq in Ev. eauto.
    + discriminate.
  - intros H. inversion H. apply len_zero in E0. auto.
Qed.

Lemma power_forScan (lines : list string) :
  forall (err : error) (r : error + Z * error),
    forScan Gen2.chassisPowerLine lines err = Ret r ->
    match r with
    | inl e => e = err /\ Forall powerLineNotOn lines
    | inr (v, e) => v = 1 /\ e = err /\ Exists powerLineOn lines
    end.
Proof.
  induction lines as [|line rest IH]; intros err r; cbn [forScan].
  - intros H. inversion H. auto.
  - destruct (Gen2.chassisPowerLine err line) as [c|p] eqn:Hc; [|discriminate].
    destruct (power_line_cases _ _ _ Hc) as [[-> Hn]|[-> Ho]].
    + intros H. apply IH in H. destruct r as [e|[v e]].
      * destruct H as [-> H]. auto.
      * destruct H as (-> & -> & H). auto.
    + intros H. inversion H. auto.
Qed.


(** X6.  When getChassisPowerState returns, its error is nil and its value
    is 1 or 0: 1 when some line gives the value "on" to the pattern, 0 when
    every line is empty or gives it another value. *)
Theorem X6_power_state_value :
  forall (output : string) (v : Z) (err : error),
    Gen2.getChassisPowerState output = Ret (v, err) ->
    err = None
    /\ ((v = 1 /\ Exists powerLineOn (bufio.Lines output))
        \/ (v = 0 /\ Forall powerLineNotOn (bufio.Lines output))).
Proof.
  intros output v err. unfold Gen2.getChassisPowerState.
  destruct (forScan Gen2.chassisPowerLine (bufio.Lines output) None) as [r|p] eqn:Hf;
    [|discriminate].
  apply power_forScan in Hf. cbn [bind]. destruct r as [e|[v' e]]; intros H; inversion H; subst.
  - destruct Hf as [-> Hf]. auto.
  - destruct Hf as (-> & -> & Hf). auto.
Qed.

Lemma X6_power_state_value_witness :
  Gen2.getChassisPowerState (unlines [""; "Chassis Power is on"; "no more"]) = Ret (1, None)
  /\ Exists powerLineOn (bufio.Lines (unlines [""; "Chassis Power is on"; "no more"])).
Proof.
  assert (H : Gen2.getChassisPowerState (unlines [""; "Chassis Power is on"; "no more"])
              = Ret (1, None)) by reflexivity.
  split; [exact H|].
  destruct (X6_power_state_value _ _ _ H) as [_ [[_ Ho]|[Hv _]]]; [exact Ho|discriminate Hv].
Defined.

Lemma power_line_generations (line : string) (err : error) :
  Gen1.chassisPowerLine err line
  = c <- Gen2.chassisPowerLine err line ;;
    Ret (match c with
         | Return (v, e) => Return (1 - v, e)
         | Next e => Next e
         | Break e => Break e
         end).
Proof.
  unfold Gen1.chassisPowerLine, Gen2.chassisPowerLine.
  destruct (0 <? len line); [|reflexivity].
  destruct (at_ _ 1) as [value|p]; [|reflexivity]. cbn [bind].
  destruct (String.eqb value "on"); reflexivity.
Qed.

Lemma power_forScan_generations (lines : list string) :
  forall err : error,
    forScan Gen1.chassisPowerLine lines err
    = r <- forScan Gen2.chassisPowerLine lines err ;;
      Ret (match r with
           | inl e => inl e
           | inr (v, e) => inr (1 - v, e)
           end).
Proof.
  induction lines as [|line rest IH]; intros err; cbn [forScan]; [reflexivity|].
  rewrite power_line_generations.
  destruct (Gen2.chassisPowerLine err line) as [[e|e|[v e]]|p]; cbn [bind]; auto.
Qed.

(** X7.  The two generations of getChassisPowerState fault on the same
    inputs, return the same error, and return opposite values: the first
    generation gives 0 where the second gives 1, and 1 where it gives 0. *)
Theorem X7_power_state_generations :
  forall output : string,
    Gen1.getChassisPowerState output
    = r <- Gen2.getChassisPowerState output ;; Ret (1 - fst r, snd r).
Proof.
  intros output. unfold Gen1.getChassisPowerState, Gen2.getChassisPowerState.
  rewrite power_forScan_generations.
  destruct (forScan Gen2.chassisPowerLine (bufio.Lines output) None) as [[e|[v e]]|p];
    reflexivity.
Qed.

(** ** The two generations of splitFruOutput *)

Lemma forScan_ext_on {S R : Type} (body body' : S -> string -> go (step S R))
      (P : string -> Prop) :
  (forall s line, P line -> body s line = body' s line) ->
  forall lines s, Forall P lines -> forScan body lines s = forScan body' lines s.
Proof.
  intros Hext lines. induction lines as [|line rest IH]; intros s Hl.
  - reflexivity.
  - inversion Hl; subst. cbn [forScan]. rewrite Hext by assumption.
    destruct (body' s line) as [[s'|s'|r]|p]; auto.
Qed.

(** X8.  On an output none of whose lines the board-date pattern matches,
    the two generations of splitFruOutput give the same outcome. *)
Theorem X8_fru_generations :
  forall output : string,
    Forall (fun line => matched fruBoardDateRegex line = false) (bufio.Lines output) ->
    Gen1.splitFruOutput output = Gen2.splitFruOutput output.
Proof.
  intros output H. unfold Gen1.splitFruOutput, Gen2.splitFruOutput, scanAll.
  rewrite (forScan_ext_on Gen1.splitFruLine Gen2.splitFruLine
             (fun line => matched fruBoardDateRegex line = false)); [reflexivity| |exact H].
  intros [result err] line Hm. unfold Gen1.splitFruLine, Gen2.splitFruLine, matched in *.
  destruct (FindStringSubmatch fruBoardDateRegex line); [discriminate Hm|reflexivity].
Qed.

Lemma X8_fru_generations_witness :
  Gen1.splitFruOutput (unlines ["Chassis Type : Other"; ""; "Product Serial : 12"])
  = Gen2.splitFruOutput (unlines ["Chassis Type : Other"; ""; "Product Serial : 12"])
  /\ Gen2.splitFruOutput (unlines ["Chassis Type : Other"; ""; "Product Serial : 12"])
     = Ret ([mkFruData "ChassisType" "Other"; mkFruData "ProductSerial" "12"], None).
Proof.
  split; [|reflexivity].
  apply X8_fru_generations. repeat constructor.
Defined.

(** ** The error of splitSensorOutput *)

Lemma splitSensorLine_error (result : list sensorData) (err : error) (line : string)
      (c : step (list sensorData * error) (list sensorData * error)) :
  Gen2.splitSensorLine (result, err) line = Ret c ->
  exists result',
    c = Next (result',
              if sensorFloatLine line then snd (ParseFloat64 (valueField line)) else err).
Proof.
  unfold Gen2.splitSensorLine, sensorFloatLine, valueField. fold (sensorFields line).
  destruct (0 <? len line); cbn [andb]; [|intros H; inversion H; eauto].
  destruct (index (sensorFields line) 0) as [name|p]; [|discriminate]. cbn [bind].
  destruct (index (sensorFields line) 1) as [valueS|p] eqn:E1; [|discriminate]. cbn [bind].
  assert (H2 : (2 <=? Z.of_nat (List.length (sensorFields line))) = true).
  { apply Z.leb_le. unfold index in E1.
    destruct (nth_error (sensorFields line) 1) eqn:En; [|discriminate E1].
    assert (1 < List.length (sensorFields line))%nat; [|lia].
    apply nth_error_Some. congruence. }
  rewrite H2, (index_nth _ _ _ "" E1). cbn [andb].
  destruct (ParseUint valueS 0 64) as [u e]. cbn [snd].
  destruct (String.eqb valueS "na"); cbn [negb andb].
  - destruct (index (sensorFields line) 2); [|discriminate]. cbn [bind].
    destruct (index (sensorFields line) 3); [|discriminate]. cbn [bind].
    intros H; inversion H; eauto.
  - destruct (isNil e); cbn [negb].
    + destruct (index (sensorFields line) 2); [|discriminate]. cbn [bind].
      destruct (index (sensorFields line) 3); [|discriminate]. cbn [bind].
      intros H; inversion H; eauto.
    + destruct (ParseFloat64 valueS) as [value e']. cbn [snd].
      destruct (isNil e'); cbn [negb]; [|intros H; inversion H; eauto].
      destruct (index (sensorFields line) 2); [|discriminate]. cbn [bind].
      destruct (index (sensorFields line) 3); [|discriminate]. cbn [bind].
      intros H; inversion H; eauto.
Qed.

Lemma sensor_forScan_error (lines : list string) :
  forall (result : list sensorData) (err : error) r,
    forScan Gen2.splitSensorLine lines (result, err) = Ret r ->
    snd (outcome r) = lastFloatError lines err.
Proof.
  induction lines as [|line rest IH]; intros result err r; cbn [forScan lastFloatError].
  - intros H. inversion H. reflexivity.
  - destruct (Gen2.splitSensorLine (result, err) line) as [c|p] eqn:Hc; [|discriminate].
    destruct (splitSensorLine_error _ _ _ _ Hc) as [result' ->]. apply IH.
Qed.

(** X9.  The error splitSensorOutput returns is that of the last line
    whose value field went to ParseFloat, nil if there is none: a value
    ParseFloat rejects is reported only if no later line has a value that
    goes to ParseFloat. *)
Theorem X9_sensor_error_is_last :
  forall (output : string) (recs : list sensorData) (err : error),
    Gen2.splitSensorOutput output = Ret (recs, err) ->
    err = lastFloatError (bufio.Lines output) None.
Proof.
  intros output recs err. unfold Gen2.splitSensorOutput. rewrite scanAll_outcome.
  destruct (forScan _ _ _) as [r|p] eqn:Hf; [|discriminate]. cbn [bind].
  intros H. apply sensor_forScan_error in Hf. inversion H as [Ho]. rewrite Ho in Hf. exact Hf.
Qed.

Lemma X9_sensor_error_is_last_witness :
  Gen2.splitSensorOutput (unlines ["FAN1 | 12x | RPM | ok"; "FAN2 | 4.5 | RPM | ok"])
  = Ret ([mkSensorData "FAN2" (fst (ParseFloat64 "4.5")) "RPM" "ok"], None)
  /\ None = lastFloatError
              (bufio.Lines (unlines ["FAN1 | 12x | RPM | ok"; "FAN2 | 4.5 | RPM | ok"])) None.
Proof.
  assert (H : Gen2.splitSensorOutput (unlines ["FAN1 | 12x | RPM | ok"; "FAN2 | 4.5 | RPM | ok"])
              = Ret ([mkSensorData "FAN2" (fst (ParseFloat64 "4.5")) "RPM" "ok"], None))
    by (vm_compute; reflexivity).
  split; [exact H|]. exact (X9_sensor_error_is_last _ _ _ H).
Defined.

(** ** Fields, byte by byte *)

Lemma HasPrefix_char (c x : ascii) (s : string) :
  strings.HasPrefix (String x s) (String c "") = Ascii.eqb x c.
Proof.
  unfold strings.HasPrefix. cbn [String.prefix].
  destruct (ascii_dec c x) as [->|Hn].
  - rewrite Ascii.eqb_refl. now destruct s.
  - symmetry. apply Ascii.eqb_neq. congruence.
Qed.

Lemma splitChar_not_nil (c : ascii) (s : string) : splitChar c s <> [].
Proof.
  destruct s as [|x s]; cbn [splitChar]; [discriminate|].
  destruct (Ascii.eqb x c); [discriminate|]. destruct (splitChar c s); discriminate.
Qed.

Lemma genSplit_S (n : nat) (s sep : string) :
  strings.genSplit (S n) s sep
  = match strings.Index s sep with
    | None => [s]
    | Some m => strings.take m s :: strings.genSplit n (strings.drop (m + String.length sep) s) sep
    end.
Proof. reflexivity. Qed.

Lemma Index_cons (x : ascii) (s sep : string) :
  strings.Index (String x s) sep
  = if strings.HasPrefix (String x s) sep then Some O
    else option_map S (strings.Index s sep).
Proof. reflexivity. Qed.

Lemma genSplit_char (c : ascii) (s : string) :
  forall n : nat, (String.length s <= n)%nat ->
    strings.genSplit (S n) s (String c "") = splitChar c s.
Proof.
  induction s as [|x s IH]; intros n Hn.
  - reflexivity.
  - cbn [String.length] in Hn. destruct n as [|n]; [lia|].
    specialize (IH n ltac:(lia)).
    rewrite genSplit_S, Index_cons, HasPrefix_char. cbn [splitChar].
    destruct (Ascii.eqb x c).
    + cbn [strings.take Nat.add strings.drop String.length]. now rewrite IH.
    + rewrite <- IH, genSplit_S.
      destruct (strings.Index s (String c "")) as [m|] eqn:Em; cbn [option_map].
      * cbn [strings.take Nat.add strings.drop String.length]. f_equal.
        apply (genSplit_enough (String c "")); [discriminate| |];
          rewrite drop_length; lia.
      * reflexivity.
Qed.

(** [strings.Split] with a separator of one byte. *)
Lemma Split_char (c : ascii) (s : string) : strings.Split s (String c "") = splitChar c s.
Proof.
  unfold strings.Split.
  rewrite (genSplit_enough (String c "") ltac:(discriminate)
             (String.length s) (S (String.length s)) s) by lia.
  apply genSplit_char. lia.
Qed.

Lemma concat_splitChar (c : ascii) (s : string) :
  String.concat "" (splitChar c s) = without c s.
Proof.
  induction s as [|x s IH]; [reflexivity|]. cbn [splitChar without].
  pose proof (splitChar_not_nil c s) as Hn.
  destruct (Ascii.eqb x c).
  - destruct (splitChar c s) as [|p ps]; [congruence|]. exact IH.
  - destruct (splitChar c s) as [|p [|q ps]]; [congruence| |];
      cbn [String.concat String.append] in *; now rewrite IH.
Qed.

(** [strings.ReplaceAll(s, " ", "")] removes the blanks of [s]. *)
Lemma ReplaceAll_blank (s : string) : strings.ReplaceAll s " " "" = without " " s.
Proof. unfold strings.ReplaceAll. rewrite Split_char. apply concat_splitChar. Qed.

Lemma has_without (c : ascii) (s : string) : has c (without c s) = false.
Proof.
  induction s as [|x s IH]; [reflexivity|]. cbn [without].
  destruct (Ascii.eqb x c) eqn:E; [exact IH|]. cbn [has]. now rewrite E, IH.
Qed.

Lemma has_splitChar (c d : ascii) (s : string) :
  forall p, In p (splitChar c s) ->
       has c p = false /\ (has d s = false -> has d p = false).
Proof.
  induction s as [|x s IH]; cbn [splitChar].
  - intros p [<-|[]]. auto.
  - pose proof (splitChar_not_nil c s) as Hn. cbn [has].
    destruct (Ascii.eqb x c) eqn:E.
    + intros p [<-|Hp]; [auto|]. destruct (IH p Hp) as [H1 H2]. split; [exact H1|].
      intros H. apply orb_false_elim in H as [_ H]. auto.
    + destruct (splitChar c s) as [|q qs]; [congruence|].
      intros p [<-|Hp].
      * destruct (IH q (or_introl eq_refl)) as [H1 H2]. cbn [has]. rewrite E, H1.
        split; [reflexivity|]. intros H. apply orb_false_elim in H as [-> H]. auto.
      * destruct (IH p (or_intror Hp)) as [H1 H2]. split; [exact H1|].
        intros H. apply orb_false_elim in H as [_ H]. auto.
Qed.

Lemma join_splitChar (c : ascii) (s : string) :
  String.concat (String c "") (splitChar c s) = s.
Proof.
  induction s as [|x s IH]; [reflexivity|]. cbn [splitChar].
  pose proof (splitChar_not_nil c s) as Hn.
  destruct (Ascii.eqb x c) eqn:E.
  - apply Ascii.eqb_eq in E as ->.
    destruct (splitChar c s) as [|p ps]; [congruence|].
    cbn [String.concat String.append] in *. now rewrite IH.
  - destruct (splitChar c s) as [|p [|q ps]]; [congruence| |];
      cbn [String.concat String.append] in *; now rewrite IH.
Qed.

Lemma sensorFields_no_blank (line : string) :
  Forall (fun f => has " " f = false) (sensorFields line).
Proof.
  unfold sensorFields. rewrite ReplaceAll_blank, Split_char.
  apply Forall_forall. intros f Hf.
  apply (has_splitChar "|" " " _ f Hf), has_without.
Qed.

(** X10.  The fields of a sensor line are the pieces of the line, without
    its blanks, between its vertical bars: no field has a blank or a bar,
    and the fields joined by bars give back the line without its blanks. *)
Theorem X10_sensor_fields :
  forall line : string,
    sensorFields line = splitChar "|" (without " " line)
    /\ String.concat "|" (sensorFields line) = without " " line
    /\ Forall (fun f => has " " f = false /\ has "|" f = false) (sensorFields line).
Proof.
  intros line. unfold sensorFields. rewrite ReplaceAll_blank, Split_char.
  split; [reflexivity|split; [apply join_splitChar|]].
  apply Forall_forall. intros f Hf.
  destruct (has_splitChar "|" " " _ f Hf) as [H1 H2].
  split; [apply H2, has_without|exact H1].
Qed.

Lemma has_in (c : ascii) (s : string) :
  has c s = false -> forall u v, s <> u ++ String c v.
Proof.
  induction s as [|x s IH]; intros H u v E.
  - destruct u; discriminate E.
  - cbn [has] in H. apply orb_false_elim in H as [Hx Hs].
    destruct u as [|y u]; cbn [String.append] in E; inversion E; subst.
    + now rewrite Ascii.eqb_refl in Hx.
    + eapply IH; eauto.
Qed.

Lemma sensor_record_fields (line : string) (d : sensorData) :
  In d (emits Gen2.splitSensorLine line) ->
  In (Name d) (sensorFields line) /\ In (Type_ d) (sensorFields line)
  /\ In (State d) (sensorFields line).
Proof.
  unfold emits, Gen2.splitSensorLine. fold (sensorFields line).
  assert (Hin : forall i x, index (sensorFields line) i = Ret x -> In x (sensorFields line)).
  { intros i x H. unfold index in H.
    destruct (nth_error (sensorFields line) i) eqn:En; [|discriminate H].
    inversion H; subst. eapply nth_error_In; eauto. }
  destruct (0 <? len line); [|intros []].
  destruct (index (sensorFields line) 0) as [name|p] eqn:E0; [|intros []]. cbn [bind].
  destruct (index (sensorFields line) 1) as [valueS|p] eqn:E1; [|intros []]. cbn [bind].
  destruct (ParseUint valueS 0 64) as [u e].
  destruct (index (sensorFields line) 2) as [type|p] eqn:E2;
    destruct (index (sensorFields line) 3) as [state|p'] eqn:E3;
    repeat match goal with
           | |- context [if ?b then _ else _] => destruct b
           | |- context [let '(_, _) := ?x in _] => destruct x
           end;
    cbn [bind after fst append List.app In];
    intros Hd; cbn [In] in Hd; try contradiction;
    destruct Hd as [Hd|[]]; subst d; cbn [Name Type_ State];
    repeat split; eapply Hin; eassumption.
Qed.

Lemma sensor_record_type (output : string) (recs : list sensorData) (err : error)
      (d : sensorData) :
  Gen2.splitSensorOutput output = Ret (recs, err) -> In d recs -> Type_ d <> "degrees C".
Proof.
  intros H Hd. rewrite (splitSensorOutput_by_line _ _ _ H) in Hd.
  apply in_flat_map in Hd as (line & _ & Hd).
  destruct (sensor_record_fields _ _ Hd) as (_ & Ht & _).
  pose proof (sensorFields_no_blank line) as Hf. rewrite Forall_forall in Hf.
  intros E. apply (has_in " " _ (Hf _ Ht) "degrees" "C"). exact E.
Qed.

(** X11.  No record of splitSensorOutput has a blank in its name, its type
    or its state: the type is never "degrees C", the one unit with a blank
    that collectSensorMonitoring names. *)
Theorem X11_sensor_records_without_blanks :
  forall (output : string) (recs : list sensorData) (err : error) (d : sensorData),
    Gen2.splitSensorOutput output = Ret (recs, err) ->
    In d recs ->
    has " " (Name d) = false /\ has " " (Type_ d) = false /\ has " " (State d) = false
    /\ Type_ d <> "degrees C".
Proof.
  intros output recs err d H Hd.
  rewrite (splitSensorOutput_by_line _ _ _ H) in Hd.
  apply in_flat_map in Hd as (line & _ & Hd).
  destruct (sensor_record_fields _ _ Hd) as (Hn & Ht & Hs).
  pose proof (sensorFields_no_blank line) as Hf. rewrite Forall_forall in Hf.
  refine (conj (Hf _ Hn) (conj (Hf _ Ht) (conj (Hf _ Hs) _))).
  intros E. apply (has_in " " _ (Hf _ Ht) "degrees" "C"). exact E.
Qed.

Lemma X11_sensor_records_without_blanks_witness :
  Gen2.splitSensorOutput "CPU1 Temp | 31.000 | degrees C | ok"
  = Ret ([mkSensorData "CPU1Temp" (float64_of_uint64 31) "degreesC" "ok"], None)
  /\ Type_ (mkSensorData "CPU1Temp" (float64_of_uint64 31) "degreesC" "ok") <> "degrees C".
Proof.
  assert (H : Gen2.splitSensorOutput "CPU1 Temp | 31.000 | degrees C | ok"
              = Ret ([mkSensorData "CPU1Temp" (float64_of_uint64 31) "degreesC" "ok"], None))
    by (vm_compute; reflexivity).
  split; [exact H|].
  apply (X11_sensor_records_without_blanks _ _ _ _ H). left. reflexivity.
Defined.

(** ** What collectSensorMonitoring never sends *)

Lemma sensorMetrics_not_temperature (state : float64) (data : sensorData) (m : Metric) :
  Type_ data <> "degrees C" ->
  In m (Gen2.sensorMetrics state data) ->
  desc m <> temperatureDesc /\ desc m <> temperatureStateDesc.
Proof.
  intros Ht. unfold Gen2.sensorMetrics, Gen2.collectTypedSensor, Gen2.collectGenericSensor.
  destruct (String.eqb (Type_ data) "degrees C") eqn:E;
    [apply String.eqb_eq in E; contradiction|].
  repeat match goal with
         | |- context [if ?b then _ else _] => destruct b
         | |- context [let '(_, _) := ?x in _] => destruct x
         end;
    cbn [In]; intros Hm;
    repeat match goal with
           | H : _ \/ _ |- _ => destruct H as [H|H]
           | H : False |- _ => destruct H
           end;
    subst m; cbn [desc]; split; discriminate.
Qed.

Section NoTemperature.

Context {ipmiTarget execError : Type}.
Variable ipmitoolOutput : ipmiTarget -> string -> string * option execError.
Variable targetName : ipmiTarget -> string.
Variable errorText : collectError execError -> string.

Lemma collectSensors_sent (results : list sensorData) (m : Metric) :
  In m (fst (Gen2.collectSensors results)) ->
  exists data, In data results /\ In m (Gen2.sensorMetrics (fst (Gen2.sensorState data)) data).
Proof.
  induction results as [|data rest IH]; cbn [Gen2.collectSensors fst]; [intros []|].
  destruct (Gen2.sensorState data) as [state l] eqn:Es.
  destruct (Gen2.collectSensors rest) as [ms ls]. cbn [fst] in *.
  intros H. apply in_app_or in H as [H|H].
  - exists data. rewrite Es. split; [now left|exact H].
  - destruct (IH H) as (d & Hd & Hm). exists d. split; [now right|exact Hm].
Qed.

(** X12.  Whatever ipmitool prints, collectSensorMonitoring sends no
    sample of the temperature descriptors: the type of a parsed record has
    no blank, so the case "degrees C" of its switch is never taken. *)
Theorem X12_no_temperature_sample :
  forall target : ipmiTarget,
    Forall (fun m => desc m <> temperatureDesc /\ desc m <> temperatureStateDesc)
           (sentBy (Gen2.collectSensorMonitoring ipmitoolOutput targetName errorText target)).
Proof.
  intros target. unfold Gen2.collectSensorMonitoring.
  destruct (ipmitoolOutput target "sensor") as [output [err|]]; [constructor|].
  destruct (Gen2.splitSensorOutput output) as [[results [err|]]|p] eqn:Hs;
    cbn [bind sentBy sent]; try constructor.
  destruct (Gen2.collectSensors results) as [ms ls] eqn:Hc. cbn [sentBy sent].
  apply Forall_forall. intros m Hm.
  assert (Hm' : In m (fst (Gen2.collectSensors results))) by (rewrite Hc; exact Hm).
  apply collectSensors_sent in Hm' as (data & Hd & Hm').
  apply (sensorMetrics_not_temperature (fst (Gen2.sensorState data)) data); [|exact Hm'].
  apply (sensor_record_type _ _ _ _ Hs Hd).
Qed.

End NoTemperature.

(** ** A value with a leading zero *)

Lemma octalDigit_digitVal (c : ascii) :
  between "0" c "7" = true ->
  Ascii.eqb c "_" = false
  /\ digitVal c = Some (byte c - byte "0")
  /\ 0 <= byte c - byte "0" < 8
  /\ Ascii.eqb (lower c) "b" = false
  /\ Ascii.eqb (lower c) "o" = false
  /\ Ascii.eqb (lower c) "x" = false.
Proof.
  destruct c as [[] [] [] [] [] [] [] []]; vm_compute; intros H;
    try discriminate H; repeat split; congruence.
Qed.

Lemma octalValue_mono (ds : string) :
  forall acc, octalDigits ds = true -> 0 <= acc -> acc <= octalValue ds acc.
Proof.
  induction ds as [|c ds IH]; intros acc Hd Hacc; cbn [octalValue octalDigits] in *.
  - lia.
  - apply andb_prop in Hd as [Hc Hd].
    destruct (octalDigit_digitVal c Hc) as (_ & _ & Hv & _).
    specialize (IH (acc * 8 + (byte c - byte "0")) Hd). lia.
Qed.

Lemma uintLoop_octal (ds : string) :
  forall n,
    octalDigits ds = true -> 0 <= n -> octalValue ds n <= maxUint64 ->
    uintLoop 8 true (maxUint64 / 8 + 1) (2 ^ 64 - 1) ds n false = (octalValue ds n, None, false).
Proof.
  change (maxUint64 / 8 + 1) with (2 ^ 61). unfold maxUint64.
  induction ds as [|c ds IH]; intros n Hd Hn Hmax; cbn [octalValue octalDigits uintLoop] in *.
  - reflexivity.
  - apply andb_prop in Hd as [Hc Hd].
    destruct (octalDigit_digitVal c Hc) as (Hu & Hv & Hr & _).
    rewrite Hu, Hv. cbn [andb].
    assert (Hm := octalValue_mono ds (n * 8 + (byte c - byte "0")) Hd ltac:(lia)).
    replace (8 <=? byte c - byte "0") with false by (symmetry; apply Z.leb_gt; lia).
    replace (2 ^ 61 <=? n) with false by (symmetry; apply Z.leb_gt; lia).
    rewrite Z.mod_small by lia.
    replace (n * 8 + (byte c - byte "0") <? n * 8) with false
      by (symmetry; apply Z.ltb_ge; lia).
    replace (2 ^ 64 - 1 <? n * 8 + (byte c - byte "0")) with false
      by (symmetry; apply Z.ltb_ge; lia).
    cbn [orb]. apply IH; [exact Hd | lia | exact Hmax].
Qed.

Lemma basePrefix_0 (c : ascii) (ds : string) :
  between "0" c "7" = true -> basePrefix (String "0" (String c ds)) = (8, String c ds).
Proof.
  intros Hc. destruct (octalDigit_digitVal c Hc) as (_ & _ & _ & Hb & Ho & Hx).
  unfold basePrefix. cbn [nthByte strings.drop]. 
  change (Ascii.eqb (nthByte (String "0" (String c ds)) 0) "0") with true.
  change (nthByte (String "0" (String c ds)) 1) with c.
  rewrite Hb, Ho, Hx, !andb_false_r. reflexivity.
Qed.

Lemma ParseUint_octal_literal (ds : string) :
  ds <> "" -> octalDigits ds = true -> octalValue ds 0 <= maxUint64 ->
  ParseUint (String "0" ds) 0 64 = (octalValue ds 0, None).
Proof.
  intros Hne Hd Hmax. destruct ds as [|c ds]; [contradiction|].
  unfold ParseUint. change (String.eqb (String "0" (String c ds)) "") with false.
  cbn [Z.eqb Z.leb Z.ltb Z.compare andb orb].
  rewrite basePrefix_0 by (cbn [octalDigits] in Hd; now apply andb_prop in Hd as [Hc _]).
  rewrite (uintLoop_octal (String c ds) 0 Hd ltac:(lia) Hmax). reflexivity.
Qed.

(** X13.  A value field that is a zero followed by octal digits is read
    in base 8, ParseUint being called with base 0: the record has the
    value of the digits as an octal numeral, not as a decimal one. *)
Theorem X13_leading_zero_is_octal :
  forall (line name ds type state : string) (more : list string)
         (result : list sensorData) (err : error),
    sensorFields line = name :: String "0" ds :: type :: state :: more ->
    ds <> "" -> octalDigits ds = true -> octalValue ds 0 <= maxUint64 ->
    Gen2.splitSensorLine (result, err) line
    = Ret (Next (append result
                        (mkSensorData name (float64_of_uint64 (octalValue ds 0)) type state),
                 err)).
Proof.
  intros line name ds type state more result err Hf Hne Hd Hmax.
  unfold Gen2.splitSensorLine. fold (sensorFields line).
  rewrite (sensorFields_nonempty_line _ _ _ _ Hf), Hf.
  cbn [index nth_error bind].
  rewrite (ParseUint_octal_literal ds Hne Hd Hmax).
  replace (String.eqb (String "0" ds) "na") with false by reflexivity.
  reflexivity.
Qed.

Lemma X13_leading_zero_is_octal_witness :
  Gen2.splitSensorLine ([], None) "FAN1 | 0120 | RPM | ok"
  = Ret (Next ([mkSensorData "FAN1" (float64_of_uint64 80) "RPM" "ok"], None)).
Proof.
  apply (X13_leading_zero_is_octal "FAN1 | 0120 | RPM | ok" "FAN1" "120" "RPM" "ok" [] [] None).
  - reflexivity.
  - discriminate.
  - reflexivity.
  - vm_compute. discriminate.
Defined.

(** * Properties of the exporter *)

(** ** FormatInt on examples, FormatFloat on the values of the tests *)

Example FormatInt_ex :
  map (fun p => FormatInt (fst p) (snd p))
      [(0, 10); (7, 10); (20, 10); (20, 36); (36, 36); (-255, 16); (-9223372036854775808, 10)]
  = ["0"; "7"; "20"; "k"; "10"; "-ff"; "-9223372036854775808"].
Proof. vm_compute. reflexivity. Qed.

Example FormatFloat_ex :
  map (fun s => FormatFloat (fst (ParseFloat64 s)) 6)
      ["3.76"; "10876"; "0.0000015"; "0.0000025"; "-0.0000001"; "0.9999995"; "nan"; "-inf"]
  = ["3.760000"; "10876.000000"; "0.000002"; "0.000003"; "-0.000000"; "1.000000"; "NaN";
     "-Inf"].
Proof. vm_compute. reflexivity. Qed.

(** ** The timeout among the arguments *)

Lemma digits_digitVal (d : Z) :
  0 <= d < 36 ->
  digitVal (nthByte digits (Z.to_nat d)) = Some d
  /\ Ascii.eqb (nthByte digits (Z.to_nat d)) "_" = false.
Proof.
  intros H. rewrite <- (Z2Nat.id d) at 2 by lia.
  assert (Hn : (Z.to_nat d < 36)%nat) by lia.
  remember (Z.to_nat d) as n eqn:En. clear En H.
  do 36 (destruct n as [|n]; [vm_compute; auto|]). lia.
Qed.

Lemma formatBits_app (n : nat) :
  forall (u base : Z) (a : string),
    formatBits n u base a = formatBits n u base "" ++ a.
Proof.
  induction n as [|n IH]; intros u base a; cbn [formatBits]; [reflexivity|].
  destruct (base <=? u); [|reflexivity].
  rewrite IH, (IH _ _ (String _ "")), append_assoc. reflexivity.
Qed.

Lemma formatBits_not_empty (n : nat) (u base : Z) : formatBits (S n) u base "" <> "".
Proof.
  cbn [formatBits]. destruct (base <=? u); [|discriminate].
  rewrite formatBits_app. destruct (formatBits n (u / base) base ""); discriminate.
Qed.

(** Reading the digits [formatBits] wrote leads back to the number. *)
Lemma uintLoop_formatBits (base : Z) (n : nat) :
  2 <= base <= 36 ->
  forall (u : Z) (rest : string),
    0 <= u <= maxUint64 -> u < 2 ^ Z.of_nat n ->
    uintLoop base false (maxUint64 / base + 1) (2 ^ 64 - 1) (formatBits n u base "" ++ rest)
             0 false
    = uintLoop base false (maxUint64 / base + 1) (2 ^ 64 - 1) rest u false.
Proof.
  intros Hb. induction n as [|n IH]; intros u rest Hu Hn.
  - cbn in Hn. replace u with 0 by lia. reflexivity.
  - cbn [formatBits]. unfold maxUint64 in *.
    assert (Hc : 0 < (2 ^ 64 - 1) / base + 1)
      by (pose proof (Z.div_pos (2 ^ 64 - 1) base ltac:(lia) ltac:(lia)); lia).
    destruct (Z.leb_spec base u) as [Hge|Hlt].
    + rewrite formatBits_app, append_assoc. cbn [String.append].
      assert (Hq : 0 <= u / base) by (apply Z.div_pos; lia).
      assert (Hq' : u / base <= (2 ^ 64 - 1) / base) by (apply Z.div_le_mono; lia).
      assert (Hq2 : u / base < 2 ^ Z.of_nat n).
      { apply Z.div_lt_upper_bound; [lia|].
        rewrite Nat2Z.inj_succ, Z.pow_succ_r in Hn by lia.
        assert (0 <= 2 ^ Z.of_nat n) by (apply Z.pow_nonneg; lia). nia. }
      assert (Hq3 : u / base <= u) by (apply Z.div_le_upper_bound; nia).
      rewrite IH by lia.
      pose proof (Z.mod_pos_bound u base ltac:(lia)) as Hm.
      destruct (digits_digitVal (u mod base) ltac:(lia)) as [Hd Hu'].
      cbn [uintLoop]. rewrite Hu', Hd. cbn [andb].
      replace (base <=? u mod base) with false by (symmetry; apply Z.leb_gt; lia).
      replace ((2 ^ 64 - 1) / base + 1 <=? u / base) with false
        by (symmetry; apply Z.leb_gt; lia).
      assert (He : u / base * base + u mod base = u)
        by (rewrite (Z.div_mod u base) at 3 by lia; lia).
      rewrite He, Z.mod_small by lia.
      replace (u <? u / base * base) with false by (symmetry; apply Z.ltb_ge; lia).
      replace (2 ^ 64 - 1 <? u) with false by (symmetry; apply Z.ltb_ge; lia).
      reflexivity.
    + destruct (digits_digitVal u ltac:(lia)) as [Hd Hu'].
      cbn [String.append uintLoop]. rewrite Hu', Hd. cbn [andb].
      replace (base <=? u) with false by (symmetry; apply Z.leb_gt; lia).
      replace ((2 ^ 64 - 1) / base + 1 <=? 0) with false by (symmetry; apply Z.leb_gt; lia).
      cbn [Z.mul Z.add]. rewrite Z.mod_small by lia.
      replace (u <? 0) with false by (symmetry; apply Z.ltb_ge; lia).
      replace (2 ^ 64 - 1 <? u) with false by (symmetry; apply Z.ltb_ge; lia).
      reflexivity.
Qed.

Lemma log2_fuel (u : Z) : 0 <= u -> u < 2 ^ Z.of_nat (S (Z.to_nat (Z.log2 u))).
Proof.
  intros Hu. rewrite Nat2Z.inj_succ, Z2Nat.id by apply Z.log2_nonneg.
  destruct (Z.eq_dec u 0) as [->|Hn]; [reflexivity|].
  apply Z.log2_spec. lia.
Qed.

Lemma uintLoop_FormatInt (base t : Z) :
  2 <= base <= 36 -> 0 <= t <= maxUint64 ->
  uintLoop base false (maxUint64 / base + 1) (2 ^ 64 - 1) (FormatInt t base) 0 false
  = (t, None, false).
Proof.
  intros Hb Ht. unfold FormatInt.
  replace (t <? 0) with false by (symmetry; apply Z.ltb_ge; lia).
  rewrite Z.abs_eq by lia.
  pose proof (uintLoop_formatBits base (S (Z.to_nat (Z.log2 t))) Hb t "" Ht
                (log2_fuel t ltac:(lia))) as H.
  cbn [uintLoop] in H. rewrite <- H. f_equal.
  generalize (formatBits (S (Z.to_nat (Z.log2 t))) t base "").
  intros s. induction s; cbn [String.append]; congruence.
Qed.

Lemma FormatInt_not_empty (t base : Z) : String.eqb (FormatInt t base) "" = false.
Proof.
  apply String.eqb_neq. unfold FormatInt. destruct (t <? 0); [discriminate|].
  apply formatBits_not_empty.
Qed.

Lemma ParseUint_FormatInt_10 (t : Z) :
  0 <= t <= maxUint64 -> ParseUint (FormatInt t 10) 10 64 = (t, None).
Proof.
  intros Ht. unfold ParseUint. rewrite FormatInt_not_empty.
  cbn [Z.eqb Z.leb Z.ltb Z.compare Pos.compare Pos.compare_cont andb orb].
  rewrite (uintLoop_FormatInt 10 t ltac:(lia) Ht). reflexivity.
Qed.

Lemma ParseUint_FormatInt_36 (t : Z) :
  0 <= t <= maxUint64 -> ParseUint (FormatInt t 36) 36 64 = (t, None).
Proof.
  intros Ht. unfold ParseUint. rewrite FormatInt_not_empty.
  cbn [Z.eqb Z.leb Z.ltb Z.compare Pos.compare Pos.compare_cont andb orb].
  rewrite (uintLoop_FormatInt 36 t ltac:(lia) Ht). reflexivity.
Qed.

(** X14.  For a positive timeout, the arguments ipmitoolConfig builds end
    with "-N" and the decimal numeral of the timeout: read in base 10 it
    gives the timeout back. *)
Theorem X14_timeout_argument_is_decimal :
  forall config : IPMIConfig,
    0 < Timeout config < 2 ^ 63 ->
    exists (args : list string) (s : string),
      Exporter.ipmitoolConfig config = (args ++ ["-N"; s])%list
      /\ ParseUint s 10 64 = (Timeout config, None).
Proof.
  intros config Ht. unfold Exporter.ipmitoolConfig.
  replace (Timeout config =? 0) with false by (symmetry; apply Z.eqb_neq; lia).
  cbn [negb]. eexists. eexists. split; [reflexivity|].
  apply ParseUint_FormatInt_10. unfold maxUint64. lia.
Qed.

Lemma X14_timeout_argument_is_decimal_witness :
  exists (args : list string) (s : string),
    Exporter.ipmitoolConfig (mkIPMIConfig "admin" "" "USER" "lanplus" 20 ["sensor"])
    = (args ++ ["-N"; s])%list
    /\ ParseUint s 10 64 = (20, None).
Proof.
  apply (X14_timeout_argument_is_decimal
           (mkIPMIConfig "admin" "" "USER" "lanplus" 20 ["sensor"])).
  cbn [Timeout]. lia.
Defined.

Lemma digitVal_range (c : ascii) (d : Z) : digitVal c = Some d -> 0 <= d < 36.
Proof.
  destruct c as [[] [] [] [] [] [] [] []]; intros H; vm_compute in H;
    try discriminate H; inversion H; lia.
Qed.

(** One step of the loop of ParseUint that does not end it. *)
Lemma uintLoop_step (base cutoff : Z) (c : ascii) (s : string) (n v : Z) (u u' : bool) :
  0 < base -> 0 <= n ->
  uintLoop base false cutoff (2 ^ 64 - 1) (String c s) n u = (v, None, u') ->
  exists d, digitVal c = Some d /\ 0 <= d < base
       /\ uintLoop base false cutoff (2 ^ 64 - 1) s (n * base + d) u = (v, None, u').
Proof.
  intros Hb Hn. cbn [uintLoop]. rewrite andb_false_r.
  destruct (digitVal c) as [d|] eqn:Hd; [|discriminate].
  pose proof (digitVal_range c d Hd) as Hr.
  destruct (Z.leb_spec base d); [discriminate|].
  destruct (cutoff <=? n); [discriminate|].
  destruct (Z.ltb_spec ((n * base + d) mod 2 ^ 64) (n * base)) as [|Hlo]; [discriminate|].
  destruct (Z.ltb_spec (2 ^ 64 - 1) ((n * base + d) mod 2 ^ 64)); [discriminate|].
  cbn [orb]. intros Hl. exists d. split; [reflexivity|]. split; [lia|].
  assert (Hs : (n * base + d) mod 2 ^ 64 = n * base + d).
  { apply Z.mod_small. split; [nia|].
    destruct (Z.lt_ge_cases (n * base + d) (2 ^ 64)) as [|Hbig]; [assumption|exfalso].
    assert (Hw : (n * base + d) mod 2 ^ 64 = n * base + d - 2 ^ 64 * ((n * base + d) / 2 ^ 64))
      by (rewrite Z.mod_eq by lia; reflexivity).
    assert (1 <= (n * base + d) / 2 ^ 64) by (apply Z.div_le_lower_bound; lia).
    nia. }
  rewrite Hs in Hl. exact Hl.
Qed.

(** The same digits read in base 10 and in base 36. *)
Lemma uintLoop_10_36 (s : string) :
  forall (n10 n36 v10 v36 : Z) (u10 u36 : bool),
    0 <= n10 <= n36 ->
    uintLoop 10 false (maxUint64 / 10 + 1) (2 ^ 64 - 1) s n10 false = (v10, None, u10) ->
    uintLoop 36 false (maxUint64 / 36 + 1) (2 ^ 64 - 1) s n36 false = (v36, None, u36) ->
    v10 <= v36
    /\ (n10 < n36 -> v10 < v36)
    /\ (v10 = v36 -> s = "" \/ v10 < 10).
Proof.
  induction s as [|c s IH]; intros n10 n36 v10 v36 u10 u36 Hn H10 H36.
  - cbn [uintLoop] in *. inversion H10; inversion H36; subst. repeat split; auto; lia.
  - apply uintLoop_step in H10 as (d & Hc & Hd & H10); [|lia|lia].
    apply uintLoop_step in H36 as (d' & Hc' & Hd' & H36); [|lia|lia].
    assert (d' = d) by congruence. subst d'.
    destruct (IH (n10 * 10 + d) (n36 * 36 + d) v10 v36 u10 u36 ltac:(lia) H10 H36)
      as (Hle & Hlt & Heq).
    split; [exact Hle|]. split.
    + intros Hl. apply Hlt. lia.
    + intros E. right.
      destruct (Z.eq_dec n36 0) as [Hz|Hz].
      * assert (n10 = 0) by lia. subst.
        destruct (Heq eq_refl) as [->|]; [|assumption].
        cbn [uintLoop] in H10. inversion H10. lia.
      * assert (v10 < v36) by (apply Hlt; lia). lia.
Qed.

Lemma ParseUint_loop (s : string) (base v : Z) :
  2 <= base <= 36 ->
  ParseUint s base 64 = (v, None) ->
  exists u, uintLoop base false (maxUint64 / base + 1) (2 ^ 64 - 1) s 0 false = (v, None, u).
Proof.
  intros Hb. unfold ParseUint. destruct (String.eqb s ""); [discriminate|].
  replace ((2 <=? base) && (base <=? 36)) with true
    by (symmetry; apply andb_true_intro; split; apply Z.leb_le; lia).
  replace (base =? 0) with false by (symmetry; apply Z.eqb_neq; lia).
  cbn [Z.eqb Z.leb Z.ltb Z.compare Pos.compare Pos.compare_cont andb orb].
  destruct (uintLoop _ _ _ _ _ _ _) as [[n [k|]] u]; [discriminate|].
  destruct (u && _); [discriminate|]. intros H. inversion H. eauto.
Qed.

Lemma last_app_two {A : Type} (l : list A) (a b d : A) : last (l ++ [a; b]) d = b.
Proof. induction l as [|x [|y l] IH]; cbn [List.app last] in *; auto. Qed.

(** X15.  In the first generation ipmitoolConfig writes the timeout in
    base 36: from 10 on, the argument after "-N" read in base 10 is not
    the timeout (it is not a decimal numeral, or it is that of another
    number); only in base 36 does it give the timeout back. *)
Theorem X15_first_generation_timeout_in_base_36 :
  forall config : IPMIConfig,
    10 <= Timeout config < 2 ^ 63 ->
    let s := last (Gen1Tool.ipmitoolConfig config) "" in
    s = FormatInt (Timeout config) 36
    /\ ParseUint s 36 64 = (Timeout config, None)
    /\ ParseUint s 10 64 <> (Timeout config, None).
Proof.
  intros config Ht s.
  assert (Hs : s = FormatInt (Timeout config) 36).
  { unfold s, Gen1Tool.ipmitoolConfig.
    replace (Timeout config =? 0) with false by (symmetry; apply Z.eqb_neq; lia).
    cbn [negb]. apply last_app_two. }
  split; [exact Hs|]. rewrite Hs.
  assert (H36 := ParseUint_FormatInt_36 (Timeout config) ltac:(unfold maxUint64; lia)).
  split; [exact H36|]. intros H10.
  apply ParseUint_loop in H10 as [u10 H10]; [|lia].
  apply ParseUint_loop in H36 as [u36 H36]; [|lia].
  destruct (uintLoop_10_36 _ 0 0 _ _ _ _ ltac:(lia) H10 H36) as (_ & _ & He).
  destruct (He eq_refl) as [He'|He']; [|lia].
  apply String.eqb_eq in He'. rewrite FormatInt_not_empty in He'. discriminate.
Qed.

Lemma X15_first_generation_timeout_in_base_36_witness :
  last (Gen1Tool.ipmitoolConfig (mkIPMIConfig "admin" "" "USER" "" 20 ["sensor"])) "" = "k"
  /\ ParseUint "k" 10 64 <> (20, None).
Proof.
  destruct (X15_first_generation_timeout_in_base_36
              (mkIPMIConfig "admin" "" "USER" "" 20 ["sensor"])) as (H1 & _ & H3).
  - cbn [Timeout]. lia.
  - split; [reflexivity|exact H3].
Defined.

(** ** What a scrape does *)

Section Does.

Variable Q : event -> Prop.
Variable C : crash -> Prop.

Lemma does_ret {A : Type} (a : A) (R : A -> Prop) : R a -> does (ret a) Q R C.
Proof. intros H t. exists []. cbn. rewrite app_nil_r. auto. Qed.

Lemma does_emit (e : event) (R : unit -> Prop) : Q e -> R tt -> does (emit e) Q R C.
Proof. intros He H t. exists [e]. cbn. auto. Qed.

Lemma does_bind {A B : Type} (c : io A) (k : A -> io B) (R : A -> Prop) (R' : B -> Prop) :
  does c Q R C -> (forall a, R a -> does (k a) Q R' C) -> does (bindIO c k) Q R' C.
Proof.
  intros Hc Hk t. unfold bindIO. destruct (Hc t) as (n1 & E1 & Q1 & H1).
  destruct (c t) as [t1 [a|p]]; cbn [fst snd] in *; subst t1.
  - destruct (Hk a H1 (t ++ n1)%list) as (n2 & E2 & Q2 & H2).
    exists (n1 ++ n2)%list. rewrite E2, app_assoc.
    split; [reflexivity|]. split; [apply Forall_app; auto|exact H2].
  - exists n1. auto.
Qed.

Lemma does_weaken {A : Type} (c : io A) (R R' : A -> Prop) :
  does c Q R C -> (forall a, R a -> R' a) -> does c Q R' C.
Proof.
  intros Hc Hr t. destruct (Hc t) as (n & E & Hq & H). exists n.
  split; [exact E|]. split; [exact Hq|]. destruct (snd (c t)); auto.
Qed.

Lemma does_call {A : Type} (c : go A) (R : A -> Prop) :
  (forall a, c = Ret a -> R a) -> (forall p, c = Fault p -> C (Panic p)) ->
  does (call c) Q R C.
Proof.
  intros Hr Hp t. exists []. unfold call. rewrite app_nil_r.
  destruct c; cbn; auto.
Qed.

Lemma does_forEach {A : Type} (body : A -> io unit) (l : list A) :
  (forall a, In a l -> does (body a) Q (fun _ => True) C) ->
  does (forEach body l) Q (fun _ => True) C.
Proof.
  induction l as [|a l IH]; intros H; cbn [forEach].
  - now apply does_ret.
  - apply (does_bind (body a) _ (fun _ => True)).
    + apply H. now left.
    + intros _ _. apply IH. intros b Hb. apply H. now right.
Qed.

End Does.

Section ScrapeProperties.

Context {execError : Type}.
Variable cmdRun : list event -> list string -> string * option execError.
Variable exitStatus : execError -> option Z.
Variable errorText : collectError execError -> string.
Variable cmdText : list string -> string.
Variable validLabel : string -> bool.
Variable since : list event -> float64.
Variable ConfigForTarget : string -> string -> IPMIConfig.

Local Abbreviation send := (Exporter.send validLabel).
Local Abbreviation ipmitoolOutput := (Exporter.ipmitoolOutput cmdRun exitStatus cmdText).
Local Abbreviation collectInfo := (Exporter.collectInfo cmdRun exitStatus errorText cmdText).
Local Abbreviation collectSensorMonitoring :=
  (Exporter.collectSensorMonitoring cmdRun exitStatus errorText cmdText validLabel).
Local Abbreviation collectFRUInfo :=
  (Exporter.collectFRUInfo cmdRun exitStatus errorText cmdText validLabel).
Local Abbreviation collectLANInfo :=
  (Exporter.collectLANInfo cmdRun exitStatus errorText cmdText validLabel).
Local Abbreviation collectBmcInfo :=
  (Exporter.collectBmcInfo cmdRun exitStatus errorText cmdText validLabel).
Local Abbreviation collectDcmiPowerInfo :=
  (Exporter.collectDcmiPowerInfo cmdRun exitStatus errorText cmdText validLabel).
Local Abbreviation collectFwumInfo :=
  (Exporter.collectFwumInfo cmdRun exitStatus errorText cmdText validLabel).
Local Abbreviation collectPowerState :=
  (Exporter.collectPowerState cmdRun exitStatus errorText cmdText validLabel).
Local Abbreviation runCollector :=
  (Exporter.runCollector cmdRun exitStatus errorText cmdText validLabel).
Local Abbreviation collectAll :=
  (Exporter.collectAll cmdRun exitStatus errorText cmdText validLabel ConfigForTarget).
Local Abbreviation Collect :=
  (Exporter.Collect cmdRun exitStatus errorText cmdText validLabel since ConfigForTarget).
Local Abbreviation quietly c R := (does c ofCollector R (notByArity validLabel)).

Lemma does_send (desc : descriptor) (value : float64) (labelValues : list string)
      (R : unit -> Prop) :
  List.length labelValues = List.length (variableLabels desc) ->
  isUp (mkSample desc value labelValues) = false ->
  isDuration (mkSample desc value labelValues) = false ->
  R tt ->
  quietly (send desc value labelValues) R.
Proof.
  intros Hl Hu Hd Hr t. unfold Exporter.send.
  rewrite Hl, Nat.eqb_refl. cbn [andb].
  destruct (forallb validLabel labelValues) eqn:Hv.
  - exists [Send (mkSample desc value labelValues)]. cbn.
    split; [reflexivity|]. split; [|exact Hr]. constructor; [|constructor]. cbn. auto.
  - exists []. cbn. rewrite app_nil_r. split; [reflexivity|]. split; [constructor|].
    unfold arityOK. cbn [sampleLabels sampleDesc]. rewrite Hl, Nat.eqb_refl. auto.
Qed.

Lemma does_log (l : logEntry) (R : unit -> Prop) : R tt -> quietly (emit (Log l)) R.
Proof. intros H. apply does_emit; [exact I|exact H]. Qed.

Lemma ipmitoolOutput_does (Q : event -> Prop) (C : crash -> Prop)
      (target : ipmiTarget) (command : string) :
  (forall args, Q (Exec args)) -> (forall l, Q (Log l)) ->
  does (ipmitoolOutput target command) Q (fun _ => True) C.
Proof.
  intros Hx Hl. unfold Exporter.ipmitoolOutput.
  assert (Hlog : forall l, does (emit (Log l)) Q (fun _ => True) C)
    by (intros l; now apply does_emit).
  eapply does_bind with (R := fun _ => True).
  - repeat match goal with
           | |- context [if ?b then _ else _] => destruct b
           end; try (now apply does_ret).
    eapply does_bind with (R := fun _ => True); [apply Hlog|].
    intros _ _. now apply does_ret.
  - intros cmdCommand _.
    eapply does_bind with (R := fun _ => True).
    + intros t. eexists [_]. cbn. split; [reflexivity|]. split; [|exact I].
      constructor; [apply Hx|constructor].
    + intros r _. eapply does_bind with (R := fun _ => True); [|intros; now apply does_ret].
      destruct (snd r) as [err|]; [|now apply does_ret].
      destruct (String.eqb command "fwum").
      * destruct (exitStatus err); [apply Hlog|now apply does_ret].
      * apply Hlog.
Qed.

Lemma does_ipmitoolOutput (target : ipmiTarget) (command : string) :
  quietly (ipmitoolOutput target command) (fun _ => True).
Proof. apply ipmitoolOutput_does; intros; exact I. Qed.

(** ipmitoolOutput never panics. *)
Lemma ipmitoolOutput_returns (target : ipmiTarget) (command : string) (t : list event) :
  exists r, snd (ipmitoolOutput target command t) = inl r.
Proof.
  destruct (ipmitoolOutput_does (fun _ => True) (fun _ => False) target command
              (fun _ => I) (fun _ => I) t) as (new & _ & _ & H).
  destruct (snd (ipmitoolOutput target command t)) as [r|p]; [eauto|contradiction].
Qed.

Lemma sensorMetrics_arity (state : float64) (data : sensorData) (m : Metric) :
  In m (Gen2.sensorMetrics state data) ->
  List.length (labelValues m) = List.length (variableLabels (inl (desc m))).
Proof.
  unfold Gen2.sensorMetrics, Gen2.collectTypedSensor, Gen2.collectGenericSensor.
  repeat match goal with
         | |- context [if ?b then _ else _] => destruct b
         | |- context [let '(_, _) := ?x in _] => destruct x
         end;
    cbn [In]; intros Hm;
    repeat match goal with
           | H : _ \/ _ |- _ => destruct H as [H|H]
           | H : False |- _ => destruct H
           end;
    subst m; reflexivity.
Qed.

Lemma does_sendSensor (data : sensorData) :
  quietly (Exporter.sendSensor validLabel data) (fun _ => True).
Proof.
  unfold Exporter.sendSensor. destruct (Gen2.sensorState data) as [state l].
  eapply does_bind with (R := fun _ => True).
  - apply does_forEach. intros line _. now apply does_log.
  - intros _ _. apply does_forEach. intros m Hm.
    apply does_send; [now apply (sensorMetrics_arity state data)|reflexivity|reflexivity|exact I].
Qed.

Lemma does_collectSensorMonitoring (target : ipmiTarget) :
  quietly (collectSensorMonitoring target) upOrError.
Proof.
  unfold Exporter.collectSensorMonitoring.
  eapply does_bind; [apply does_ipmitoolOutput|]. intros r _.
  destruct (snd r) as [err|].
  - eapply does_bind with (R := fun _ => True); [now apply does_log|].
    intros _ _. apply does_ret. right. cbn. split; [reflexivity|discriminate].
  - eapply does_bind with (R := fun _ => True); [apply does_call; intros; exact I|].
    intros p _. destruct (snd p) as [err|].
    + eapply does_bind with (R := fun _ => True); [now apply does_log|].
      intros _ _. apply does_ret. right. cbn. split; [reflexivity|discriminate].
    + eapply does_bind with (R := fun _ => True).
      * apply does_forEach. intros data _. apply does_sendSensor.
      * intros _ _. apply does_ret. left. cbn. auto.
Qed.

Lemma does_collectInfo {T : Type} (command failed parseFailed : string)
      (parse : string -> go (list T * error)) (sendRecord : T -> io unit)
      (target : ipmiTarget) :
  (forall data, quietly (sendRecord data) (fun _ => True)) ->
  quietly (collectInfo command failed parseFailed parse sendRecord target) upOrError.
Proof.
  intros Hs. unfold Exporter.collectInfo.
  eapply does_bind; [apply does_ipmitoolOutput|]. intros r _.
  destruct (snd r) as [err|].
  - eapply does_bind with (R := fun _ => True); [now apply does_log|].
    intros _ _. apply does_ret. right. cbn. split; [reflexivity|discriminate].
  - eapply does_bind with (R := fun _ => True); [apply does_call; intros; exact I|].
    intros p _. destruct (snd p) as [err|].
    + eapply does_bind with (R := fun _ => True); [now apply does_log|].
      intros _ _. apply does_ret. right. cbn. split; [reflexivity|discriminate].
    + eapply does_bind with (R := fun _ => True).
      * apply does_forEach. intros data _. apply Hs.
      * intros _ _. apply does_ret. left. cbn. auto.
Qed.

Lemma does_collectFwumInfo (target : ipmiTarget) :
  quietly (collectFwumInfo target) upOrError.
Proof.
  unfold Exporter.collectFwumInfo.
  eapply does_bind; [apply does_ipmitoolOutput|]. intros r _.
  eapply does_bind with (R := fun _ => True); [apply does_call; intros; exact I|].
  intros p _. destruct (snd p) as [err|].
  - eapply does_bind with (R := fun _ => True); [now apply does_log|].
    intros _ _. apply does_ret. right. cbn. split; [reflexivity|discriminate].
  - destruct (Exporter.fwumLabels (fst p) "" "") as [firmwareRevision manufacturerID].
    eapply does_bind with (R := fun _ => True).
    + now apply does_send.
    + intros _ _. apply does_ret. left. cbn. auto.
Qed.

Lemma does_collectPowerState (target : ipmiTarget) :
  quietly (collectPowerState target) upOrError.
Proof.
  unfold Exporter.collectPowerState.
  eapply does_bind; [apply does_ipmitoolOutput|]. intros r _.
  destruct (snd r) as [err|].
  - eapply does_bind with (R := fun _ => True); [now apply does_log|].
    intros _ _. apply does_ret. right. cbn. split; [reflexivity|discriminate].
  - eapply does_bind with (R := fun _ => True); [apply does_call; intros; exact I|].
    intros p _. destruct (snd p) as [err|].
    + eapply does_bind with (R := fun _ => True); [now apply does_log|].
      intros _ _. apply does_ret. right. cbn. split; [reflexivity|discriminate].
    + eapply does_bind with (R := fun _ => True).
      * now apply does_send.
      * intros _ _. apply does_ret. left. cbn. auto.
Qed.

(** The collector a name selects, with what it reports as up. *)
Lemma does_selected (target : ipmiTarget) (name : string) :
  quietly
    (if String.eqb name "sensor" then r <~ collectSensorMonitoring target ;; ret (fst r)
     else if String.eqb name "fru" then r <~ collectFRUInfo target ;; ret (fst r)
     else if String.eqb name "lan" then r <~ collectLANInfo target ;; ret (fst r)
     else if String.eqb name "bmc" then r <~ collectBmcInfo target ;; ret (fst r)
     else if String.eqb name "fwum" then r <~ collectFwumInfo target ;; ret (fst r)
     else if String.eqb name "dcmi-power"
     then r <~ collectDcmiPowerInfo target ;; ret (fst r)
     else ret 0)
    (fun up => (up = 0 \/ up = 1) /\ (~ In name knownCollectors -> up = 0)).
Proof.
  assert (Hup : forall c : io (Z * option (collectError execError)),
             In name knownCollectors ->
             quietly c upOrError ->
             quietly (r <~ c ;; ret (fst r))
                     (fun up => (up = 0 \/ up = 1) /\ (~ In name knownCollectors -> up = 0))).
  { intros c Hk Hc. eapply does_bind; [exact Hc|]. intros r Hr. apply does_ret.
    split; [destruct Hr as [[-> _]|[-> _]]; auto|]. intros Hn. contradiction. }
  unfold knownCollectors in *.
  destruct (String.eqb name "sensor") eqn:E1.
  { apply String.eqb_eq in E1. apply Hup; [subst name; cbn; tauto|apply does_collectSensorMonitoring]. }
  destruct (String.eqb name "fru") eqn:E2.
  { apply String.eqb_eq in E2. apply Hup; [subst name; cbn; tauto|].
    apply does_collectInfo. intros data. now apply does_send. }
  destruct (String.eqb name "lan") eqn:E3.
  { apply String.eqb_eq in E3. apply Hup; [subst name; cbn; tauto|].
    apply does_collectInfo. intros data. now apply does_send. }
  destruct (String.eqb name "bmc") eqn:E4.
  { apply String.eqb_eq in E4. apply Hup; [subst name; cbn; tauto|].
    apply does_collectInfo. intros data. now apply does_send. }
  destruct (String.eqb name "fwum") eqn:E5.
  { apply String.eqb_eq in E5. apply Hup; [subst name; cbn; tauto|apply does_collectFwumInfo]. }
  destruct (String.eqb name "dcmi-power") eqn:E6.
  { apply String.eqb_eq in E6. apply Hup; [subst name; cbn; tauto|].
    apply does_collectInfo. intros data. now apply does_send. }
  apply does_ret. auto.
Qed.

Lemma upsOf_app (t t' : list event) : upsOf (t ++ t') = (upsOf t ++ upsOf t')%list.
Proof. unfold upsOf. apply flat_map_app. Qed.

Lemma upsOf_quiet (t : list event) : Forall ofCollector t -> upsOf t = [].
Proof.
  induction 1 as [|e t He _ IH]; [reflexivity|].
  unfold upsOf in *. cbn [flat_map]. rewrite IH.
  destruct e as [args|l|s]; try reflexivity. destruct He as [-> _]. reflexivity.
Qed.

Lemma bindIO_eq {A B : Type} (c : io A) (k : A -> io B) (t : list event) :
  bindIO c k t
  = match c t with
    | (t', inl a) => k a t'
    | (t', inr p) => (t', inr p)
    end.
Proof. reflexivity. Qed.

(** One turn of the loop of Collect: the events of the collector, then
    its "up" sample, unless a panic ends it. *)
Lemma runCollector_spec (target : ipmiTarget) (name : string) (t t' : list event)
      (r : unit + crash) :
  runCollector target name t = (t', r) ->
  exists new,
    t' = (t ++ new)%list
    /\ Forall notDuration new
    /\ match r with
       | inl _ => exists s, upsOf new = [s] /\ upFor name s
       | inr p => upsOf new = [] /\ notByArity validLabel p
       end.
Proof.
  intros E. unfold Exporter.runCollector in E.
  rewrite bindIO_eq in E. unfold logDebugf, emit in E. cbv beta iota in E.
  rewrite bindIO_eq in E.
  destruct (does_selected target name (t ++ [Log (Debugf "Running collector: %s" [name])])%list)
    as (n1 & E1 & Q1 & H1).
  match type of E1 with
  | fst ?x = _ => destruct x as [t1 [up|p]]
  end; cbn [fst snd] in *; subst t1.
  - destruct H1 as [H01 Hk]. unfold Exporter.markCollectorUp, Exporter.send in E.
    cbn [List.length variableLabels Nat.eqb andb forallb] in E.
    assert (Hq : Forall notDuration
                        (Log (Debugf "Running collector: %s" [name]) :: n1)).
    { constructor; [exact I|]. eapply Forall_impl; [|exact Q1].
      intros [a|l|s]; cbn; tauto. }
    destruct (validLabel name) eqn:Hv; cbn [andb] in E; unfold emit in E;
      inversion E; subst; clear E.
    + exists ((Log (Debugf "Running collector: %s" [name]) :: n1)
              ++ [Send (mkSample (inr upDesc) (float64_of_uint64 up) [name])])%list.
      split; [now rewrite <- !app_assoc|].
      split; [apply Forall_app; split; [exact Hq|repeat constructor]|].
      exists (mkSample (inr upDesc) (float64_of_uint64 up) [name]).
      split.
      * rewrite upsOf_app. change (upsOf (Log (Debugf "Running collector: %s" [name]) :: n1))
          with (upsOf n1).
        rewrite (upsOf_quiet n1 Q1). reflexivity.
      * unfold upFor. cbn [sampleDesc sampleLabels sampleValue].
        repeat split; [destruct H01 as [->| ->]; auto|].
        intros Hn. now rewrite (Hk Hn).
    + exists (Log (Debugf "Running collector: %s" [name]) :: n1).
      split; [now rewrite <- app_assoc|]. split; [exact Hq|].
      split; [change (upsOf (Log (Debugf "Running collector: %s" [name]) :: n1))
                with (upsOf n1); now apply upsOf_quiet|].
      cbn. rewrite Hv. auto.
  - inversion E; subst; clear E.
    exists (Log (Debugf "Running collector: %s" [name]) :: n1).
    split; [now rewrite <- app_assoc|]. split.
    + constructor; [exact I|]. eapply Forall_impl; [|exact Q1]. intros [a|l|s]; cbn; tauto.
    + split; [change (upsOf (Log (Debugf "Running collector: %s" [name]) :: n1))
                with (upsOf n1); now apply upsOf_quiet|exact H1].
Qed.

Lemma loop_spec (target : ipmiTarget) (names : list string) :
  forall (t t' : list event) (r : unit + crash),
    forEach (runCollector target) names t = (t', r) ->
    exists new n,
      t' = (t ++ new)%list
      /\ Forall notDuration new
      /\ Forall2 upFor (firstn n names) (upsOf new)
      /\ match r with
         | inl _ => n = List.length names
         | inr p => notByArity validLabel p
         end.
Proof.
  induction names as [|name names IH]; intros t t' r E; cbn [forEach] in E.
  - inversion E; subst. exists [], O. rewrite app_nil_r.
    split; [reflexivity|]. split; [constructor|]. split; [constructor|reflexivity].
  - rewrite bindIO_eq in E.
    destruct (runCollector target name t) as [t1 r1] eqn:E1.
    apply runCollector_spec in E1 as (n1 & -> & Q1 & H1).
    destruct r1 as [[]|p].
    + destruct H1 as (s & Hs & Hup).
      apply IH in E as (n2 & n & -> & Q2 & H2 & Hr).
      exists (n1 ++ n2)%list, (S n). rewrite app_assoc. split; [reflexivity|].
      split; [apply Forall_app; auto|].
      split; [rewrite upsOf_app, Hs; cbn [firstn List.app]; now constructor|].
      destruct r; [cbn [List.length]; congruence|exact Hr].
    + inversion E; subst. destruct H1 as [Hs Hp].
      exists n1, O. rewrite Hs.
      split; [reflexivity|]. split; [exact Q1|]. split; [constructor|exact Hp].
Qed.

Lemma quiet_not_duration (new : list event) : Forall ofCollector new -> Forall notDuration new.
Proof. apply Forall_impl. intros [a|l|s]; cbn; tauto. Qed.

Lemma collectAll_spec (c : Exporter.collector) (t t' : list event) (r : unit + crash) :
  collectAll c t = (t', r) ->
  exists new n,
    t' = (t ++ new)%list
    /\ Forall notDuration new
    /\ Forall2 upFor
               (firstn n (Collectors (ConfigForTarget (Exporter.target c) (Exporter.module c))))
               (upsOf new)
    /\ match r with
       | inl _ =>
           n = List.length (Collectors (ConfigForTarget (Exporter.target c) (Exporter.module c)))
       | inr p => notByArity validLabel p
       end.
Proof.
  unfold Exporter.collectAll. intros E. rewrite bindIO_eq in E.
  match type of E with
  | context [forEach ?b ?l t] => destruct (forEach b l t) as [t1 r1] eqn:E1
  end.
  apply loop_spec in E1 as (n1 & n & -> & Q1 & H1 & Hr).
  destruct r1 as [[]|p].
  - rewrite bindIO_eq in E.
    match type of E with
    | context [Exporter.collectPowerState _ _ _ _ _ ?tg ?tr] =>
        destruct (does_collectPowerState tg tr) as (n2 & E2 & Q2 & H2);
        destruct (Exporter.collectPowerState cmdRun exitStatus errorText cmdText validLabel tg tr)
          as [t2 r2]
    end.
    cbn [fst snd] in *. subst t2.
    exists (n1 ++ n2)%list, n. rewrite app_assoc.
    assert (Hu : upsOf (n1 ++ n2) = upsOf n1)
      by (rewrite upsOf_app, (upsOf_quiet n2 Q2); apply app_nil_r).
    rewrite Hu.
    destruct r2 as [x|p]; inversion E; subst;
      (split; [reflexivity|]); (split; [apply Forall_app; split;
                                        [exact Q1|now apply quiet_not_duration]|]);
      (split; [exact H1|]); auto.
  - inversion E; subst. exists n1, n. auto.
Qed.

Lemma scrapeDuration_eq (c : Exporter.collector) (t : list event) :
  Exporter.scrapeDuration validLabel since c t
  = ((t ++ [Log (Debugf "Scrape of target %s took %f seconds."
                        [targetName (Exporter.target c); FormatFloat (since t) 6]);
            Send (mkSample (inr durationDesc) (since t) [])])%list, inl tt).
Proof.
  unfold Exporter.scrapeDuration. rewrite bindIO_eq. unfold logDebugf, emit, Exporter.send.
  cbn. unfold emit. now rewrite <- app_assoc.
Qed.

(** Collect is its body, then the deferred function, with the outcome of
    the body. *)
Lemma Collect_eq (c : Exporter.collector) (t : list event) :
  Collect c t
  = ((fst (collectAll c t)
      ++ [Log (Debugf "Scrape of target %s took %f seconds."
                      [targetName (Exporter.target c);
                       FormatFloat (since (fst (collectAll c t))) 6]);
          Send (mkSample (inr durationDesc) (since (fst (collectAll c t))) [])])%list,
     snd (collectAll c t)).
Proof.
  unfold Exporter.Collect. destruct (collectAll c t) as [t' [[]|p]];
    rewrite scrapeDuration_eq; reflexivity.
Qed.

Lemma upsOf_duration (t : list event) (l : logEntry) (v : float64) :
  upsOf (t ++ [Log l; Send (mkSample (inr durationDesc) v [])]) = upsOf t.
Proof. rewrite upsOf_app. cbn. apply app_nil_r. Qed.

(** X16.  In every scrape the "up" samples Collect sends are those of the
    configured collectors, one for each in the order of the
    configuration, with the collector's name as label and 0 or 1 as value,
    0 for a name Collect has no collector for; when Collect returns there
    is one for every configured collector, when a panic ends it, for those
    before the one that panicked. *)
Theorem X16_up_samples :
  forall (c : Exporter.collector) (t : list event),
    exists (new : list event) (n : nat),
      fst (Collect c t) = (t ++ new)%list
      /\ Forall2 upFor
                 (firstn n (Collectors (ConfigForTarget (Exporter.target c) (Exporter.module c))))
                 (upsOf new)
      /\ match snd (Collect c t) with
         | inl _ =>
             n = List.length
                   (Collectors (ConfigForTarget (Exporter.target c) (Exporter.module c)))
         | inr _ => True
         end.
Proof.
  intros c t. rewrite Collect_eq. cbn [fst snd].
  destruct (collectAll c t) as [t' r] eqn:E. cbn [fst snd].
  apply collectAll_spec in E as (new & n & -> & Q & H & Hr).
  eexists (new ++ [_; _])%list, n. rewrite app_assoc. split; [reflexivity|].
  rewrite upsOf_duration. split; [exact H|]. destruct r; auto.
Qed.

(** X17.  MustNewConstMetric never panics in a scrape for the number of
    label values: at every call the collector passes as many values as the
    descriptor has label names.  A scrape ends in its panic only on a label
    value the client library refuses, never if it refuses none. *)
Theorem X17_label_values_match_descriptor :
  forall (c : Exporter.collector) (t : list event),
    match snd (Collect c t) with
    | inr (MustPanic s) =>
        List.length (sampleLabels s) = List.length (variableLabels (sampleDesc s))
        /\ exists l, In l (sampleLabels s) /\ validLabel l = false
    | _ => True
    end.
Proof.
  intros c t. rewrite Collect_eq. cbn [snd].
  destruct (collectAll c t) as [t' r] eqn:E. cbn [snd].
  apply collectAll_spec in E as (new & n & _ & _ & _ & Hr).
  destruct r as [x|[p|s]]; try exact I.
  destruct Hr as [Ha Hv]. split; [now apply Nat.eqb_eq|].
  clear - Hv. induction (sampleLabels s) as [|l ls IH]; [discriminate Hv|].
  cbn [forallb] in Hv. destruct (validLabel l) eqn:El.
  - destruct (IH Hv) as (l' & Hl' & Hv'). exists l'. split; [now right|exact Hv'].
  - exists l. split; [now left|exact El].
Qed.

(** X18.  Every scrape ends with the sample of its duration, sent by the
    deferred function after the log line, also when a panic ends the
    scrape; no other sample of a scrape has that descriptor. *)
Theorem X18_duration_is_sent_last :
  forall (c : Exporter.collector) (t : list event),
    exists mid : list event,
      fst (Collect c t)
      = (t ++ mid
           ++ [Log (Debugf "Scrape of target %s took %f seconds."
                           [targetName (Exporter.target c);
                            FormatFloat (since (t ++ mid)) 6]);
               Send (mkSample (inr durationDesc) (since (t ++ mid)) [])])%list
      /\ Forall notDuration mid.
Proof.
  intros c t. rewrite Collect_eq. cbn [fst].
  destruct (collectAll c t) as [t' r] eqn:E. cbn [fst].
  apply collectAll_spec in E as (new & n & -> & Q & _ & _).
  exists new. rewrite app_assoc. auto.
Qed.

(** ** Collectors whose parser cannot fail *)

Lemma forEach_send {T : Type} (desc : descriptor) (value : T -> float64)
      (labels : T -> list string) (l : list T) :
  forall t,
    snd (forEach (fun data => send desc (value data) (labels data)) l t) = inl tt
    \/ exists s, snd (forEach (fun data => send desc (value data) (labels data)) l t)
                 = inr (MustPanic s).
Proof.
  induction l as [|data l IH]; intros t; cbn [forEach].
  - left. reflexivity.
  - rewrite bindIO_eq.
    assert (Hs : forall t0,
               send desc (value data) (labels data) t0
               = if (Nat.eqb (List.length (labels data)) (List.length (variableLabels desc)))
                    && forallb validLabel (labels data)
                 then ((t0 ++ [Send (mkSample desc (value data) (labels data))])%list, inl tt)
                 else (t0, inr (MustPanic (mkSample desc (value data) (labels data))))).
    { intros t0. unfold Exporter.send. destruct (_ && _); reflexivity. }
    rewrite Hs. destruct (_ && _); [apply IH|]. right. cbn. eauto.
Qed.



(** ** Error checks that never fire *)

Lemma send_result (desc : descriptor) (value : float64) (labels : list string)
      (t : list event) :
  snd (send desc value labels t) = inl tt
  \/ exists s, snd (send desc value labels t) = inr (MustPanic s).
Proof. unfold Exporter.send. destruct (_ && _); cbn; eauto. Qed.


Lemma splitFwumOutput_returns (output : string) :
  exists r, Gen2.splitFwumOutput output = Ret r.
Proof.
  unfold Gen2.splitFwumOutput. rewrite scanAll_outcome.
  rewrite (fwum_forScan (bufio.Lines output) []). eauto.
Qed.

(** X22.  collectFwumInfo and collectDcmiPowerInfo never end in a run-time
    panic of their parser.  collectFwumInfo does not look at the error of
    its command: it returns 0 with the error of splitFwumOutput, or 1 after
    its one sample.  collectDcmiPowerInfo returns 0 with the error of the
    command or of splitDcmiPowerOutput, or 1. *)
Theorem X22_fwum_and_dcmi_collectors :
  forall (target : ipmiTarget) (t : list event),
    match snd (ipmitoolOutput target "fwum" t) with
    | inl (output, _) =>
        match Gen2.splitFwumOutput output with
        | Ret (_, Some e) => snd (collectFwumInfo target t) = inl (0, Some (ParseError e))
        | Ret (_, None) => snd (collectFwumInfo target t) = inl (1, None)
                           \/ exists s, snd (collectFwumInfo target t) = inr (MustPanic s)
        | Fault _ => False
        end
    | inr _ => False
    end
    /\ match snd (ipmitoolOutput target "dcmi-power" t) with
       | inl (_, Some e) => snd (collectDcmiPowerInfo target t) = inl (0, Some (ExecError e))
       | inl (output, None) =>
           match Gen2.splitDcmiPowerOutput output with
           | Ret (_, Some e) =>
               snd (collectDcmiPowerInfo target t) = inl (0, Some (ParseError e))
           | Ret (_, None) =>
               snd (collectDcmiPowerInfo target t) = inl (1, None)
               \/ exists s, snd (collectDcmiPowerInfo target t) = inr (MustPanic s)
           | Fault _ => False
           end
       | inr _ => False
       end.
Proof.
  intros target t. split.
  - unfold Exporter.collectFwumInfo. rewrite bindIO_eq.
    destruct (ipmitoolOutput_returns target "fwum" t) as [[output err] Hr].
    destruct (ipmitoolOutput target "fwum" t) as [t1 r1]. cbn [snd] in Hr. subst r1.
    cbn [fst snd]. rewrite bindIO_eq.
    destruct (splitFwumOutput_returns output) as [[results [e|]] ->]; cbn [call fst snd].
    + reflexivity.
    + destruct (Exporter.fwumLabels results "" "") as [firmwareRevision manufacturerID].
      rewrite bindIO_eq.
      destruct (send_result (inr fwumInfo) Exporter.one [firmwareRevision; manufacturerID] t1)
        as [H|[s H]];
        destruct (send _ _ _ t1) as [t2 r2]; cbn [snd] in H; subst r2; cbn [snd]; eauto.
  - unfold Exporter.collectDcmiPowerInfo. rewrite bindIO_eq.
    destruct (ipmitoolOutput_returns target "dcmi-power" t) as [[output err] Hr].
    destruct (ipmitoolOutput target "dcmi-power" t) as [t1 r1]. cbn [snd] in Hr. subst r1.
    cbn [fst snd]. destruct err as [e|]; [reflexivity|].
    rewrite bindIO_eq.
    destruct (splitDcmiPowerOutput_returns output) as [[e|] ->]; cbn [call fst snd].
    + reflexivity.
    + rewrite bindIO_eq.
      destruct (forEach_send (inr powerConsumptionDesc) dcmi_Value
                  (fun data => [dcmi_Name data])
                  (flat_map (emits Gen2.splitDcmiPowerLine) (bufio.Lines output)) t1)
        as [H|[s H]];
        destruct (forEach _ _ t1) as [t2 r2]; cbn [snd] in H; subst r2; cbn [snd]; eauto.
Qed.

(** ** The sensor collector in a scrape *)

Lemma forEach_log (l : list logLine) (t : list event) :
  forEach (fun line => emit (Log (AtError line))) l t
  = ((t ++ map (fun line => Log (AtError line)) l)%list, inl tt).
Proof.
  revert t. induction l as [|line l IH]; intros t; cbn [forEach map].
  - unfold ret. now rewrite app_nil_r.
  - rewrite bindIO_eq. unfold emit at 1. rewrite IH, <- app_assoc. reflexivity.
Qed.

Lemma forEach_metrics (ms : list Metric) :
  (forall l, validLabel l = true) ->
  (forall m, In m ms ->
        List.length (labelValues m) = List.length (variableLabels (inl (desc m)))) ->
  forall t,
    forEach (fun m => send (inl (desc m)) (metricValue m) (labelValues m)) ms t
    = ((t ++ map (fun m => Send (ofMetric m)) ms)%list, inl tt).
Proof.
  intros Hv. induction ms as [|m ms IH]; intros Ha t; cbn [forEach map].
  - unfold ret. now rewrite app_nil_r.
  - rewrite bindIO_eq. unfold Exporter.send at 1.
    rewrite (Ha m (or_introl eq_refl)), Nat.eqb_refl.
    replace (forallb validLabel (labelValues m)) with true
      by (symmetry; apply forallb_forall; intros; apply Hv).
    cbn [andb]. unfold emit. rewrite IH by (intros m' Hm'; apply Ha; now right).
    rewrite <- app_assoc. reflexivity.
Qed.

Lemma sendsOf_app (t t' : list event) : sendsOf (t ++ t') = (sendsOf t ++ sendsOf t')%list.
Proof. apply flat_map_app. Qed.

Lemma errorsOf_app (t t' : list event) : errorsOf (t ++ t') = (errorsOf t ++ errorsOf t')%list.
Proof. apply flat_map_app. Qed.

Lemma sendsOf_metrics (ms : list Metric) :
  sendsOf (map (fun m => Send (ofMetric m)) ms) = map ofMetric ms
  /\ errorsOf (map (fun m => Send (ofMetric m)) ms) = [].
Proof.
  induction ms as [|m ms [IH1 IH2]]; [split; reflexivity|].
  split; [change (sendsOf (map (fun m => Send (ofMetric m)) (m :: ms)))
            with (ofMetric m :: sendsOf (map (fun m => Send (ofMetric m)) ms));
          now rewrite IH1|exact IH2].
Qed.

Lemma errorsOf_lines (l : list logLine) :
  sendsOf (map (fun line => Log (AtError line)) l) = []
  /\ errorsOf (map (fun line => Log (AtError line)) l) = l.
Proof.
  induction l as [|line l [IH1 IH2]]; [split; reflexivity|].
  split; [exact IH1|].
  change (errorsOf (map (fun line => Log (AtError line)) (line :: l)))
    with (line :: errorsOf (map (fun line => Log (AtError line)) l)).
  now rewrite IH2.
Qed.

Lemma forEach_sendSensor (results : list sensorData) :
  (forall l, validLabel l = true) ->
  forall t, exists new,
    forEach (Exporter.sendSensor validLabel) results t = ((t ++ new)%list, inl tt)
    /\ sendsOf new = map ofMetric (fst (Gen2.collectSensors results))
    /\ errorsOf new = snd (Gen2.collectSensors results).
Proof.
  intros Hv. induction results as [|data rest IH]; intros t; cbn [forEach Gen2.collectSensors].
  - exists []. unfold ret. rewrite app_nil_r. auto.
  - rewrite bindIO_eq. unfold Exporter.sendSensor at 1.
    destruct (Gen2.sensorState data) as [state l].
    rewrite bindIO_eq, forEach_log.
    rewrite (forEach_metrics _ Hv (sensorMetrics_arity state data)).
    destruct (IH ((t ++ map (fun line => Log (AtError line)) l)
                    ++ map (fun m => Send (ofMetric m)) (Gen2.sensorMetrics state data))%list)
      as (new & E & Hs & He).
    rewrite E. destruct (Gen2.collectSensors rest) as [ms ls]. cbn [fst snd] in *.
    exists (map (fun line => Log (AtError line)) l
            ++ map (fun m => Send (ofMetric m)) (Gen2.sensorMetrics state data)
            ++ new)%list.
    split; [now rewrite <- !app_assoc|].
    destruct (sendsOf_metrics (Gen2.sensorMetrics state data)) as [S1 S2].
    destruct (errorsOf_lines l) as [L1 L2].
    rewrite !sendsOf_app, !errorsOf_app, S1, S2, L1, L2, Hs, He, map_app. auto.
Qed.

(** X21.  In a scrape the sensor collector does what collectSensorMonitoring
    does on the output of its command, when the client library refuses no
    label value: it sends the same samples in the same order, logs the
    same errors, returns the same values, and ends in the same run-time
    panic. *)
Theorem X21_sensor_collector_in_a_scrape :
  forall (target : ipmiTarget) (t : list event),
    (forall l, validLabel l = true) ->
    match ipmitoolOutput target "sensor" t with
    | (t1, inl r) =>
        match Gen2.collectSensorMonitoring (fun _ _ => r) (fun tg => targetName (host tg))
                                           errorText target with
        | Ret col =>
            exists new,
              collectSensorMonitoring target t = ((t1 ++ new)%list, inl (returned col))
              /\ sendsOf new = map ofMetric (sent col)
              /\ errorsOf new = logged col
        | Fault p => collectSensorMonitoring target t = (t1, inr (Panic p))
        end
    | (_, inr _) => False
    end.
Proof.
  intros target t Hv. unfold Exporter.collectSensorMonitoring, Gen2.collectSensorMonitoring.
  rewrite bindIO_eq.
  destruct (ipmitoolOutput_returns target "sensor" t) as [[output err] Hr].
  destruct (ipmitoolOutput target "sensor" t) as [t1 r1]. cbn [snd] in Hr. subst r1.
  cbn [fst snd]. destruct err as [e|].
  - eexists [_]. split; [reflexivity|]. split; reflexivity.
  - rewrite bindIO_eq.
    destruct (Gen2.splitSensorOutput output) as [[results [e|]]|p]; cbn [call bind fst snd].
    + eexists [_]. split; [reflexivity|]. split; reflexivity.
    + rewrite bindIO_eq. destruct (forEach_sendSensor results Hv t1) as (new & E & Hs & He).
      rewrite E. destruct (Gen2.collectSensors results) as [ms ls]. cbn [fst snd] in *.
      exists new. cbn [sent logged returned]. auto.
    + reflexivity.
Qed.

End ScrapeProperties.

Lemma X21_sensor_collector_in_a_scrape_witness :
  match Exporter.ipmitoolOutput sensorRun (fun status => Some status) (String.concat " ")
                                exampleTarget "sensor" [] with
  | (t1, inl r) =>
      match Gen2.collectSensorMonitoring (fun _ _ => r) (fun tg => targetName (host tg))
                                         (fun _ => "exit status 1") exampleTarget with
      | Ret col =>
          exists new,
            Exporter.collectSensorMonitoring sensorRun (fun status => Some status)
                                             (fun _ => "exit status 1") (String.concat " ")
                                             (fun _ => true) exampleTarget []
            = ((t1 ++ new)%list, inl (returned col))
            /\ sendsOf new = map ofMetric (sent col)
            /\ errorsOf new = logged col
      | Fault p =>
          Exporter.collectSensorMonitoring sensorRun (fun status => Some status)
                                           (fun _ => "exit status 1") (String.concat " ")
                                           (fun _ => true) exampleTarget []
          = (t1, inr (Panic p))
      end
  | (_, inr _) => False
  end.
Proof.
  apply (X21_sensor_collector_in_a_scrape
           sensorRun (fun status => Some status) (fun _ => "exit status 1") (String.concat " ")
           (fun _ => true) exampleTarget []).
  intros l. reflexivity.
Defined.

(** ** A scrape on an example *)

Example Collect_ex_commands :
  execsOf (fst exampleScrape)
  = [["-I"; "lanplus"; "-L"; "USER"; "-U"; "admin"; "-P"; "secret"; "-N"; "20";
      "-H"; "10.0.0.1"; "bmc"; "info"];
     ["-I"; "lanplus"; "-L"; "USER"; "-U"; "admin"; "-P"; "secret"; "-N"; "20";
      "-H"; "10.0.0.1"; "fru"; "list"];
     ["-I"; "lanplus"; "-L"; "USER"; "-U"; "admin"; "-P"; "secret"; "-N"; "20";
      "-H"; "10.0.0.1"; "power"; "status"]].
Proof. vm_compute. reflexivity. Qed.

Example Collect_ex_samples :
  map (fun s => (sampleDesc s, integerOf (sampleValue s), sampleLabels s))
      (sendsOf (fst exampleScrape))
  = [(inr bmcInfo, Some 1, ["FirmwareRevision"; "3.76"]);
     (inr bmcInfo, Some 1, ["IPMIVersion"; "2.0"]);
     (inr bmcInfo, Some 1, ["Manufacturer"; "Supermicro"]);
     (inr upDesc, Some 1, ["bmc"]);
     (inr upDesc, Some 0, ["sel"]);
     (inr upDesc, Some 0, ["fru"]);
     (inr chassisPowerStateDesc, Some 1, ["PowerState"]);
     (inr durationDesc, Some 2, [])]
  /\ snd exampleScrape = inl tt.
Proof. vm_compute. split; reflexivity. Qed.
